(** * The optical bar camera model (asp/Camera/OpticalBarModel.cc)

    A shallow embedding of the camera geometry engine, of the rigid
    transform and of the text codec of the optical bar camera model,
    followed by the properties of the specification that were checked
    against it, and by further properties of the code.

    Numbers.  A C++ [double] is a real number of [R]: arithmetic is exact,
    so "within floating-point tolerance" reads as equality.  What exact
    arithmetic cannot express is a division by zero, after which IEEE
    arithmetic carries on with an infinity or a NaN.  Every function of the
    source that divides is therefore a function into [option]: [None] says
    that the evaluation divided by zero, that is, that it left the finite
    numbers.  Likewise a file may hold [inf] or [nan], which [sscanf]
    converts like any number: [read] goes on as the source does, and its
    outcome is marked as not finite.  A C++ [int] is an integer of [Z],
    wrapped to 32 bits where the source computes with it. *)

From Stdlib Require Import Floats.
From Stdlib Require Import Reals ZArith NArith Lia Lra Psatz Bool List.
From Stdlib Require Import Ascii String.
Import ListNotations.

Open Scope R_scope.

(** ** Arithmetic of the source *)

(** The error monad of a computation on doubles that may divide by zero. *)
Definition fbind {A B : Type} (m : option A) (k : A -> option B) : option B :=
  match m with
  | Some a => k a
  | None => None
  end.

Notation "x <- m ;; k" := (fbind m (fun x => k))
  (at level 61, m at next level, right associativity).

(** [a / b] on doubles. *)
Definition fdiv (a b : R) : option R :=
  if Req_dec_T b 0 then None else Some (a / b).

Infix "/?" := fdiv (at level 40, left associativity).

(** Two's complement [int]. *)
Definition wrap32 (z : Z) : Z :=
  ((z + 2147483648) mod 4294967296 - 2147483648)%Z.

Definition is_int (z : Z) : Prop := (-2147483648 <= z <= 2147483647)%Z.

(** ** Vectors, matrices and quaternions (Vision Workbench)

    The camera model is written over the vector, matrix and quaternion
    classes of the Vision Workbench library.  Its operations are modelled
    by their mathematical definitions. *)

Record Vector2 : Type := vec2 { v2x : R; v2y : R }.
Record Vector2i : Type := vec2i { v2i_x : Z; v2i_y : Z }.
Record Vector3 : Type := vec3 { v3x : R; v3y : R; v3z : R }.
Record Matrix3x3 : Type := mat3 { row0 : Vector3; row1 : Vector3; row2 : Vector3 }.
Record Quat : Type := quat { qw : R; qx : R; qy : R; qz : R }.

Definition vadd (a b : Vector3) : Vector3 :=
  vec3 (v3x a + v3x b) (v3y a + v3y b) (v3z a + v3z b).

Definition vscale (k : R) (a : Vector3) : Vector3 :=
  vec3 (k * v3x a) (k * v3y a) (k * v3z a).

Definition dot (a b : Vector3) : R :=
  v3x a * v3x b + v3y a * v3y b + v3z a * v3z b.

Definition norm_2 (a : Vector3) : R := sqrt (dot a a).

(** [normalize(v)] is [v / norm_2(v)]. *)
Definition normalize (a : Vector3) : option Vector3 :=
  x <- v3x a /? norm_2 a;;
  y <- v3y a /? norm_2 a;;
  z <- v3z a /? norm_2 a;;
  Some (vec3 x y z).

Definition mat_vec (m : Matrix3x3) (v : Vector3) : Vector3 :=
  vec3 (dot (row0 m) v) (dot (row1 m) v) (dot (row2 m) v).

Definition col0 (m : Matrix3x3) : Vector3 :=
  vec3 (v3x (row0 m)) (v3x (row1 m)) (v3x (row2 m)).
Definition col1 (m : Matrix3x3) : Vector3 :=
  vec3 (v3y (row0 m)) (v3y (row1 m)) (v3y (row2 m)).
Definition col2 (m : Matrix3x3) : Vector3 :=
  vec3 (v3z (row0 m)) (v3z (row1 m)) (v3z (row2 m)).

Definition mat_mul (a b : Matrix3x3) : Matrix3x3 :=
  mat3 (vec3 (dot (row0 a) (col0 b)) (dot (row0 a) (col1 b)) (dot (row0 a) (col2 b)))
       (vec3 (dot (row1 a) (col0 b)) (dot (row1 a) (col1 b)) (dot (row1 a) (col2 b)))
       (vec3 (dot (row2 a) (col0 b)) (dot (row2 a) (col1 b)) (dot (row2 a) (col2 b))).

Definition mat_scale (k : R) (m : Matrix3x3) : Matrix3x3 :=
  mat3 (vscale k (row0 m)) (vscale k (row1 m)) (vscale k (row2 m)).

Definition identity_matrix : Matrix3x3 :=
  mat3 (vec3 1 0 0) (vec3 0 1 0) (vec3 0 0 1).

(** [vw::math::rotation_x_axis(theta)]. *)
Definition rotation_x_axis (theta : R) : Matrix3x3 :=
  mat3 (vec3 1 0 0)
       (vec3 0 (cos theta) (- sin theta))
       (vec3 0 (sin theta) (cos theta)).

(** [axis_angle_to_quaternion]: the angle is the length of the vector, the
    axis its direction; the zero vector is the identity rotation. *)
Definition axis_angle_to_quaternion (aa : Vector3) : Quat :=
  let angle := norm_2 aa in
  if Req_dec_T angle 0 then quat 1 0 0 0
  else
    let s := sin (angle / 2) in
    quat (cos (angle / 2))
         (s * (v3x aa / angle)) (s * (v3y aa / angle)) (s * (v3z aa / angle)).

(** [Quaternion::rotation_matrix()]. *)
Definition rotation_matrix (q : Quat) : Matrix3x3 :=
  let w := qw q in let x := qx q in let y := qy q in let z := qz q in
  mat3 (vec3 (w*w + x*x - y*y - z*z) (2 * (x*y - w*z)) (2 * (z*x + w*y)))
       (vec3 (2 * (x*y + w*z)) (w*w - x*x + y*y - z*z) (2 * (y*z - w*x)))
       (vec3 (2 * (z*x - w*y)) (2 * (y*z + w*x)) (w*w - x*x - y*y + z*z)).

(** [Quaternion::rotate(v)]. *)
Definition rotate (q : Quat) (v : Vector3) : Vector3 :=
  mat_vec (rotation_matrix q) v.

(** The product of two quaternions. *)
Definition qmul (a b : Quat) : Quat :=
  quat (qw a * qw b - qx a * qx b - qy a * qy b - qz a * qz b)
       (qw a * qx b + qx a * qw b + qy a * qz b - qz a * qy b)
       (qw a * qy b - qx a * qz b + qy a * qw b + qz a * qx b)
       (qw a * qz b + qx a * qy b - qy a * qx b + qz a * qw b).

(** The squared norm of a quaternion. *)
Definition quat_norm2 (q : Quat) : R :=
  qw q * qw q + qx q * qx q + qy q * qy q + qz q * qz q.

(** ** The Parameter Set

    The members of [OpticalBarModel].  The class declaration is in the
    header [OpticalBarModel.h]; the members are the ones the source file
    uses.  [m_use_motion_compensation] has the type of the value that
    [read] assigns to it and that the motion compensation multiplies with,
    an [int]. *)

Record OpticalBarModel : Type := mkModel {
  m_image_size : Vector2i;
  m_center_loc_pixels : Vector2;
  m_pixel_size : R;
  m_focal_length : R;
  m_scan_angle_radians : R;
  m_scan_rate_radians : R;
  m_forward_tilt_radians : R;
  m_initial_position : Vector3;
  m_initial_orientation : Vector3;
  m_speed : R;
  m_mean_earth_radius : R;
  m_mean_surface_elevation : R;
  m_use_motion_compensation : Z;
  m_scan_left_to_right : bool;
  m_correct_velocity_aberration : bool;
  m_correct_atmospheric_refraction : bool
}.

(** Assignments to the members. *)

Definition set_image_size (x : Vector2i) (P : OpticalBarModel) : OpticalBarModel :=
  mkModel x (m_center_loc_pixels P) (m_pixel_size P) (m_focal_length P)
          (m_scan_angle_radians P) (m_scan_rate_radians P) (m_forward_tilt_radians P)
          (m_initial_position P) (m_initial_orientation P) (m_speed P)
          (m_mean_earth_radius P) (m_mean_surface_elevation P)
          (m_use_motion_compensation P) (m_scan_left_to_right P)
          (m_correct_velocity_aberration P) (m_correct_atmospheric_refraction P).

Definition set_center_loc_pixels (x : Vector2) (P : OpticalBarModel) : OpticalBarModel :=
  mkModel (m_image_size P) x (m_pixel_size P) (m_focal_length P)
          (m_scan_angle_radians P) (m_scan_rate_radians P) (m_forward_tilt_radians P)
          (m_initial_position P) (m_initial_orientation P) (m_speed P)
          (m_mean_earth_radius P) (m_mean_surface_elevation P)
          (m_use_motion_compensation P) (m_scan_left_to_right P)
          (m_correct_velocity_aberration P) (m_correct_atmospheric_refraction P).

Definition set_pixel_size (x : R) (P : OpticalBarModel) : OpticalBarModel :=
  mkModel (m_image_size P) (m_center_loc_pixels P) x (m_focal_length P)
          (m_scan_angle_radians P) (m_scan_rate_radians P) (m_forward_tilt_radians P)
          (m_initial_position P) (m_initial_orientation P) (m_speed P)
          (m_mean_earth_radius P) (m_mean_surface_elevation P)
          (m_use_motion_compensation P) (m_scan_left_to_right P)
          (m_correct_velocity_aberration P) (m_correct_atmospheric_refraction P).

Definition set_focal_length (x : R) (P : OpticalBarModel) : OpticalBarModel :=
  mkModel (m_image_size P) (m_center_loc_pixels P) (m_pixel_size P) x
          (m_scan_angle_radians P) (m_scan_rate_radians P) (m_forward_tilt_radians P)
          (m_initial_position P) (m_initial_orientation P) (m_speed P)
          (m_mean_earth_radius P) (m_mean_surface_elevation P)
          (m_use_motion_compensation P) (m_scan_left_to_right P)
          (m_correct_velocity_aberration P) (m_correct_atmospheric_refraction P).

Definition set_scan_angle_radians (x : R) (P : OpticalBarModel) : OpticalBarModel :=
  mkModel (m_image_size P) (m_center_loc_pixels P) (m_pixel_size P) (m_focal_length P) x
          (m_scan_rate_radians P) (m_forward_tilt_radians P) (m_initial_position P)
          (m_initial_orientation P) (m_speed P) (m_mean_earth_radius P)
          (m_mean_surface_elevation P) (m_use_motion_compensation P)
          (m_scan_left_to_right P) (m_correct_velocity_aberration P)
          (m_correct_atmospheric_refraction P).

Definition set_scan_rate_radians (x : R) (P : OpticalBarModel) : OpticalBarModel :=
  mkModel (m_image_size P) (m_center_loc_pixels P) (m_pixel_size P) (m_focal_length P)
          (m_scan_angle_radians P) x (m_forward_tilt_radians P) (m_initial_position P)
          (m_initial_orientation P) (m_speed P) (m_mean_earth_radius P)
          (m_mean_surface_elevation P) (m_use_motion_compensation P)
          (m_scan_left_to_right P) (m_correct_velocity_aberration P)
          (m_correct_atmospheric_refraction P).

Definition set_forward_tilt_radians (x : R) (P : OpticalBarModel) : OpticalBarModel :=
  mkModel (m_image_size P) (m_center_loc_pixels P) (m_pixel_size P) (m_focal_length P)
          (m_scan_angle_radians P) (m_scan_rate_radians P) x (m_initial_position P)
          (m_initial_orientation P) (m_speed P) (m_mean_earth_radius P)
          (m_mean_surface_elevation P) (m_use_motion_compensation P)
          (m_scan_left_to_right P) (m_correct_velocity_aberration P)
          (m_correct_atmospheric_refraction P).

Definition set_initial_position (x : Vector3) (P : OpticalBarModel) : OpticalBarModel :=
  mkModel (m_image_size P) (m_center_loc_pixels P) (m_pixel_size P) (m_focal_length P)
          (m_scan_angle_radians P) (m_scan_rate_radians P) (m_forward_tilt_radians P) x
          (m_initial_orientation P) (m_speed P) (m_mean_earth_radius P)
          (m_mean_surface_elevation P) (m_use_motion_compensation P)
          (m_scan_left_to_right P) (m_correct_velocity_aberration P)
          (m_correct_atmospheric_refraction P).

Definition set_initial_orientation (x : Vector3) (P : OpticalBarModel) : OpticalBarModel :=
  mkModel (m_image_size P) (m_center_loc_pixels P) (m_pixel_size P) (m_focal_length P)
          (m_scan_angle_radians P) (m_scan_rate_radians P) (m_forward_tilt_radians P)
          (m_initial_position P) x (m_speed P) (m_mean_earth_radius P)
          (m_mean_surface_elevation P) (m_use_motion_compensation P)
          (m_scan_left_to_right P) (m_correct_velocity_aberration P)
          (m_correct_atmospheric_refraction P).

Definition set_speed (x : R) (P : OpticalBarModel) : OpticalBarModel :=
  mkModel (m_image_size P) (m_center_loc_pixels P) (m_pixel_size P) (m_focal_length P)
          (m_scan_angle_radians P) (m_scan_rate_radians P) (m_forward_tilt_radians P)
          (m_initial_position P) (m_initial_orientation P) x (m_mean_earth_radius P)
          (m_mean_surface_elevation P) (m_use_motion_compensation P)
          (m_scan_left_to_right P) (m_correct_velocity_aberration P)
          (m_correct_atmospheric_refraction P).

Definition set_mean_earth_radius (x : R) (P : OpticalBarModel) : OpticalBarModel :=
  mkModel (m_image_size P) (m_center_loc_pixels P) (m_pixel_size P) (m_focal_length P)
          (m_scan_angle_radians P) (m_scan_rate_radians P) (m_forward_tilt_radians P)
          (m_initial_position P) (m_initial_orientation P) (m_speed P) x
          (m_mean_surface_elevation P) (m_use_motion_compensation P)
          (m_scan_left_to_right P) (m_correct_velocity_aberration P)
          (m_correct_atmospheric_refraction P).

Definition set_mean_surface_elevation (x : R) (P : OpticalBarModel) : OpticalBarModel :=
  mkModel (m_image_size P) (m_center_loc_pixels P) (m_pixel_size P) (m_focal_length P)
          (m_scan_angle_radians P) (m_scan_rate_radians P) (m_forward_tilt_radians P)
          (m_initial_position P) (m_initial_orientation P) (m_speed P)
          (m_mean_earth_radius P) x (m_use_motion_compensation P)
          (m_scan_left_to_right P) (m_correct_velocity_aberration P)
          (m_correct_atmospheric_refraction P).

Definition set_use_motion_compensation (x : Z) (P : OpticalBarModel) : OpticalBarModel :=
  mkModel (m_image_size P) (m_center_loc_pixels P) (m_pixel_size P) (m_focal_length P)
          (m_scan_angle_radians P) (m_scan_rate_radians P) (m_forward_tilt_radians P)
          (m_initial_position P) (m_initial_orientation P) (m_speed P)
          (m_mean_earth_radius P) (m_mean_surface_elevation P) x
          (m_scan_left_to_right P) (m_correct_velocity_aberration P)
          (m_correct_atmospheric_refraction P).

Definition set_scan_left_to_right (x : bool) (P : OpticalBarModel) : OpticalBarModel :=
  mkModel (m_image_size P) (m_center_loc_pixels P) (m_pixel_size P) (m_focal_length P)
          (m_scan_angle_radians P) (m_scan_rate_radians P) (m_forward_tilt_radians P)
          (m_initial_position P) (m_initial_orientation P) (m_speed P)
          (m_mean_earth_radius P) (m_mean_surface_elevation P)
          (m_use_motion_compensation P) x (m_correct_velocity_aberration P)
          (m_correct_atmospheric_refraction P).

(** ** Forward projection *)

Definition pixel_to_sensor_plane (P : OpticalBarModel) (pixel : Vector2) : Vector2 :=
  vec2 ((v2x pixel - v2x (m_center_loc_pixels P)) * m_pixel_size P)
       ((v2y pixel - v2y (m_center_loc_pixels P)) * m_pixel_size P).

(** [const int max_col = m_image_size[0]-1]. *)
Definition max_col (P : OpticalBarModel) : Z :=
  wrap32 (v2i_x (m_image_size P) - 1).

Definition pixel_to_time_delta (P : OpticalBarModel) (pix : Vector2) : option R :=
  scan_time <- m_scan_angle_radians P /? m_scan_rate_radians P;;
  scan_fraction <-
    (if m_scan_left_to_right P
     then v2x pix /? IZR (max_col P)
     else (IZR (max_col P) - v2x pix) /? IZR (max_col P));;
  Some (scan_fraction * scan_time).

(** The pose is constant for the duration of a scan. *)
Definition camera_pose (P : OpticalBarModel) (pix : Vector2) : Quat :=
  axis_angle_to_quaternion (m_initial_orientation P).

Definition get_velocity (P : OpticalBarModel) (pixel : Vector2) : Vector3 :=
  let pose := rotation_matrix (camera_pose P pixel) in
  let m := mat_mul (rotation_x_axis (- m_forward_tilt_radians P)) pose in
  mat_vec m (vec3 0 (m_speed P) 0).

Definition camera_center (P : OpticalBarModel) (pix : Vector2) : option Vector3 :=
  dt <- pixel_to_time_delta P pix;;
  Some (vadd (m_initial_position P) (vscale dt (get_velocity P pix))).

(** The local variable [H] of [pixel_to_vector_uncorrected]: the distance
    from the camera center to the ground. *)
Definition camera_height (P : OpticalBarModel) (pixel : Vector2) : option R :=
  cam_center <- camera_center P pixel;;
  Some (norm_2 cam_center - (m_mean_surface_elevation P + m_mean_earth_radius P)).

(** The local variable [image_motion_compensation] of
    [pixel_to_vector_uncorrected], as it stands when the ray is built, from
    the locals [H] and [alpha]. *)
Definition image_motion_compensation (P : OpticalBarModel) (H alpha : R) : option R :=
  q <- (m_focal_length P * m_speed P) /? (H * m_scan_rate_radians P);;
  let imc := q * sin alpha * IZR (m_use_motion_compensation P) in
  Some (if negb (m_scan_left_to_right P) then imc * -1 else imc).

Definition pixel_to_vector_uncorrected (P : OpticalBarModel) (pixel : Vector2)
  : option Vector3 :=
  let sensor_plane_pos := pixel_to_sensor_plane P pixel in
  cam_center <- camera_center P pixel;;
  let cam_pose := camera_pose P pixel in
  alpha <- v2x sensor_plane_pos /? m_focal_length P;;
  let H := norm_2 cam_center
           - (m_mean_surface_elevation P + m_mean_earth_radius P) in
  imc <- image_motion_compensation P H alpha;;
  r <- normalize (vec3 (m_focal_length P * sin alpha)
                       (v2y sensor_plane_pos + imc)
                       (m_focal_length P * cos alpha));;
  Some (rotate cam_pose r).

(** ** Errors and external collaborators *)

Inductive error_kind : Type :=
  | IOErr | ArgumentErr | PixelToRayErr | PointToPixelErr | OtherErr.

(** A [vw::Exception]: its class and its message [what()]. *)
Record exn : Type := mkExn { kind : error_kind; what : string }.

Inductive result (A : Type) : Type :=
  | Ok (a : A)
  | Raise (e : exn).
Arguments Ok {A} a.
Arguments Raise {A} e.

(** A ray or a position handed to a collaborator: [None] when it is not a
    vector of finite numbers. *)
Definition fvec : Type := option Vector3.

(** The arguments of one call of the generic solver:
    [levenberg_marquardt(model, start, objective, status, ABS_TOL, REL_TOL,
    MAX_ITERATIONS)], with [model] a [CameraGenericLMA(this, point)]. *)
Record lma_args : Type := mkLma {
  lma_camera : OpticalBarModel;
  lma_point : Vector3;
  lma_start : Vector2;
  lma_objective : Vector3;
  lma_abs_tol : R;
  lma_rel_tol : R;
  lma_max_iterations : Z
}.

(** What the camera model calls and does not define: the two ray
    corrections, which may throw, the least-squares solver, which returns a
    solution and a status, the conversions of the quaternion class whose
    result depends on a choice of representative (of a sign, of an angle),
    and the formatting of a double on an output stream of precision 17. *)
Record Collaborators : Type := mkCollab {
  apply_atmospheric_refraction_correction :
    fvec -> R -> R -> fvec -> result fvec;
  apply_velocity_aberration_correction :
    fvec -> Vector3 -> R -> fvec -> result fvec;
  levenberg_marquardt : lma_args -> Vector2 * Z;
  quat_of_matrix : Matrix3x3 -> Quat;
  quat_axis_angle : Quat -> Vector3;
  show_double : R -> string
}.

(** The calls made to the collaborators, in order. *)
Inductive call : Type :=
  | CallAtmosphericRefraction (cam_ctr : fvec) (radius elevation : R) (v : fvec)
  | CallVelocityAberration (cam_ctr : fvec) (velocity : Vector3) (radius : R) (v : fvec)
  | CallLevenbergMarquardt (a : lma_args).

Definition is_refraction_call (c : call) : bool :=
  match c with CallAtmosphericRefraction _ _ _ _ => true | _ => false end.
Definition is_aberration_call (c : call) : bool :=
  match c with CallVelocityAberration _ _ _ _ => true | _ => false end.

(** [catch(const vw::Exception &e) { vw_throw(PixelToRayErr() << e.what()); }] *)
Definition repackage {A : Type} (r : result A) : result A :=
  match r with
  | Ok a => Ok a
  | Raise e => Raise (mkExn PixelToRayErr (what e))
  end.

(** [pixel_to_vector]: the calls made and the outcome. *)
Definition pixel_to_vector (E : Collaborators) (P : OpticalBarModel) (pixel : Vector2)
  : list call * result fvec :=
  let output_vector := pixel_to_vector_uncorrected P pixel in
  let cam_ctr := camera_center P pixel in
  let '(calls1, stage1) :=
    if negb (m_correct_atmospheric_refraction P)
    then ([CallAtmosphericRefraction cam_ctr (m_mean_earth_radius P)
                                     (m_mean_surface_elevation P) output_vector],
          apply_atmospheric_refraction_correction E cam_ctr (m_mean_earth_radius P)
                                     (m_mean_surface_elevation P) output_vector)
    else ([], Ok output_vector) in
  match stage1 with
  | Raise e => (calls1, repackage (Raise e))
  | Ok output_vector =>
      if negb (m_correct_velocity_aberration P)
      then (calls1, Ok output_vector)
      else (calls1 ++ [CallVelocityAberration cam_ctr (get_velocity P pixel)
                                              (m_mean_earth_radius P) output_vector],
            repackage (apply_velocity_aberration_correction E cam_ctr
                         (get_velocity P pixel) (m_mean_earth_radius P) output_vector))
  end.

(** ** Inverse projection *)

Definition ABS_TOL : R := 1e-16.
Definition REL_TOL : R := 1e-16.
Definition MAX_ITERATIONS : Z := 100000.

Definition point_to_pixel_args (P : OpticalBarModel) (point : Vector3) : lma_args :=
  let start := vec2 (IZR (v2i_x (m_image_size P)) / 2)
                    (IZR (v2i_y (m_image_size P)) / 2) in
  mkLma P point start (vec3 0 0 0) ABS_TOL REL_TOL MAX_ITERATIONS.

Definition point_to_pixel (E : Collaborators) (P : OpticalBarModel) (point : Vector3)
  : list call * result Vector2 :=
  let a := point_to_pixel_args P point in
  let '(solution, status) := levenberg_marquardt E a in
  ([CallLevenbergMarquardt a],
   if (status >? 0)%Z then Ok solution
   else Raise (mkExn PointToPixelErr "Unable to project point into Linescan model")).

(** ** Rigid transform *)

(** The pixel of a call [camera_center()] or [camera_pose()] without an
    argument.  The default argument is declared in the header, which is not
    among the sources: a default-constructed [Vector2], the zero vector,
    which is also the pixel [write] evaluates the pose at. *)
Definition default_pixel : Vector2 := vec2 0 0.

(** Modelled from the spec: [set_camera_center] is defined in the header;
    the transform "mutates the Parameter Set in place", with the "new
    position" it computes. *)
Definition set_camera_center (position : Vector3) (P : OpticalBarModel) : OpticalBarModel :=
  set_initial_position position P.

(** Modelled from the spec: [set_camera_pose] is defined in the header; the
    "new orientation" is stored "converted back to axis-angle". *)
Definition set_camera_pose (orientation : Vector3) (P : OpticalBarModel) : OpticalBarModel :=
  set_initial_orientation orientation P.

(** [apply_transform]; [None] when the position it reads is not finite. *)
Definition apply_transform (E : Collaborators)
    (rotation : Matrix3x3) (translation : Vector3) (scale : R)
    (P : OpticalBarModel) : option OpticalBarModel :=
  position <- camera_center P default_pixel;;
  let pose := camera_pose P default_pixel in
  let rotation_quaternion := quat_of_matrix E rotation in
  let position := vadd (mat_vec (mat_scale scale rotation) position) translation in
  let pose := qmul rotation_quaternion pose in
  Some (set_camera_pose (quat_axis_angle E pose) (set_camera_center position P)).

(** ** Text: lines, searching, scanning and printing

    The file is the string of its characters.  [std::getline], the search
    [std::string::find], [sscanf] with the formats of the source and the
    output of an [int] are modelled on characters. *)

Open Scope string_scope.

Definition newline : ascii := ascii_of_nat 10.
Definition nl : string := String newline EmptyString.

(** The characters up to the first newline, and what follows that newline
    when there is one. *)
Fixpoint split_line (s : string) : string * option string :=
  match s with
  | EmptyString => (EmptyString, None)
  | String c t =>
      if Ascii.eqb c newline then (EmptyString, Some t)
      else let '(l, r) := split_line t in (String c l, r)
  end.

(** An input file stream: the characters not yet read and [good()]. *)
Record ifstream : Type := mkStream { unread : string; good : bool }.

(** [std::getline(cam_file, line)].  On a stream that is not good nothing
    is read and [line] keeps its value; reaching the end of the file before
    a newline sets [eofbit], so the stream is no longer good. *)
Definition getline (f : ifstream) (line : string) : ifstream * string :=
  if good f then
    match split_line (unread f) with
    | (l, Some r) => (mkStream r true, l)
    | (l, None) => (mkStream EmptyString false, l)
    end
  else (f, line).

(** [hay.find(needle) != std::string::npos]. *)
Fixpoint find (hay needle : string) : bool :=
  if prefix needle hay then true
  else match hay with
       | EmptyString => false
       | String _ t => find t needle
       end.

(** [isspace]. *)
Definition is_space (c : ascii) : bool :=
  let n := nat_of_ascii c in
  (Nat.eqb n 32 || (Nat.leb 9 n && Nat.leb n 13))%bool.

Fixpoint skip_space (s : string) : string :=
  match s with
  | EmptyString => EmptyString
  | String c t => if is_space c then skip_space t else s
  end.

Definition digit_of (c : ascii) : option N :=
  let n := N_of_ascii c in
  if ((48 <=? n) && (n <=? 57))%N then Some (n - 48)%N else None.

(** The longest run of decimal digits at the head of [s]: the number read
    after [acc], the count of digits after [cnt], and the rest. *)
Fixpoint scan_digits (s : string) (acc : N) (cnt : nat) : N * nat * string :=
  match s with
  | EmptyString => (acc, cnt, s)
  | String c t =>
      match digit_of c with
      | Some d => scan_digits t (acc * 10 + d)%N (S cnt)
      | None => (acc, cnt, s)
      end
  end.

Definition scan_sign (s : string) : bool * string :=
  match s with
  | String "-" t => (true, t)
  | String "+" t => (false, t)
  | _ => (false, s)
  end.

(** The input item of [%d]: an optional sign and at least one digit. *)
Definition scan_int (s : string) : option (Z * string) :=
  let '(neg, s1) := scan_sign s in
  let '(n, cnt, s2) := scan_digits s1 0%N 0%nat in
  match cnt with
  | O => None
  | S _ => Some (if neg then (- Z.of_N n)%Z else Z.of_N n, s2)
  end.

(** A decimal number as it is written: sign, digits, power of ten. *)
Record decimal : Type := mkDec { dec_neg : bool; dec_mant : N; dec_exp : Z }.

Definition decimal_value (d : decimal) : R :=
  ((if dec_neg d then -1 else 1) * IZR (Z.of_N (dec_mant d)) * powerRZ 10 (dec_exp d))%R.

(** ** The input item of [%lf]

    [sscanf] collects the input item of a [%lf] and hands it to [strtod];
    what follows is the C library's conversion (glibc), with every form it
    accepts: decimal and hexadecimal numbers, infinities and NaNs. *)

(** A letter of the input compared with a lower-case letter, whichever the
    case of the input. *)
Definition is_letter (c l : ascii) : bool :=
  let n := nat_of_ascii c in
  Ascii.eqb (if (Nat.leb 65 n && Nat.leb n 90)%bool then ascii_of_nat (n + 32) else c) l.

(** The letters of [w] at the head of [s], in either case. *)
Fixpoint scan_word (w s : string) : option string :=
  match w with
  | EmptyString => Some s
  | String l w' =>
      match s with
      | String c t => if is_letter c l then scan_word w' t else None
      | EmptyString => None
      end
  end.

Definition hex_digit_of (c : ascii) : option N :=
  let n := N_of_ascii c in
  if ((48 <=? n) && (n <=? 57))%N then Some (n - 48)%N
  else if ((97 <=? n) && (n <=? 102))%N then Some (n - 87)%N
  else if ((65 <=? n) && (n <=? 70))%N then Some (n - 55)%N
  else None.

Fixpoint scan_hex_digits (s : string) (acc : N) (cnt : nat) : N * nat * string :=
  match s with
  | EmptyString => (acc, cnt, s)
  | String c t =>
      match hex_digit_of c with
      | Some d => scan_hex_digits t (acc * 16 + d)%N (S cnt)
      | None => (acc, cnt, s)
      end
  end.

(** What an input item denotes: a decimal number, a hexadecimal number
    (sign, digits, power of two), an infinity, or a NaN. *)
Inductive number : Type :=
  | Decimal (d : decimal)
  | Hexadecimal (neg : bool) (mant : N) (exp : Z)
  | Infinity (neg : bool)
  | NaN.

(** The double of a number, where it is a finite one.  A decimal number is
    taken at its exact value: the rounding to the nearest double, and the
    overflow of a large exponent, are outside the reading of doubles as real
    numbers. *)
Definition number_value (x : number) : option R :=
  match x with
  | Decimal d => Some (decimal_value d)
  | Hexadecimal neg mant exp =>
      Some ((if neg then -1 else 1) * IZR (Z.of_N mant) * powerRZ 2 exp)%R
  | Infinity _ => None
  | NaN => None
  end.

(** The exponent part after the digits: the letter [mark] in either case, an
    optional sign, digits.  The letter and the sign are part of the input
    item even when no digit follows; [strtod] then stops before the letter,
    and the exponent is zero. *)
Definition scan_exponent (mark : ascii) (s : string) : Z * string :=
  match s with
  | String c t =>
      if is_letter c mark then
        match scan_int t with
        | Some (e, s') => (e, s')
        | None => (0%Z, snd (scan_sign t))
        end
      else (0%Z, s)
  | EmptyString => (0%Z, s)
  end.

(** A decimal number: digits with an optional point, at least one digit in
    all, and an optional exponent. *)
Definition scan_decimal (neg : bool) (s1 : string) : option (number * string) :=
  let '(ip, ki, s2) := scan_digits s1 0%N 0%nat in
  let '(m, kf, s3) :=
    match s2 with
    | String "." t => scan_digits t ip 0%nat
    | _ => (ip, 0%nat, s2)
    end in
  match (ki + kf)%nat with
  | O => None
  | S _ =>
      let '(e, s4) := scan_exponent "e" s3 in
      Some (Decimal (mkDec neg m (e - Z.of_nat kf)), s4)
  end.

(** A hexadecimal number, after its prefix [0x]: hexadecimal digits with an
    optional point and an optional binary exponent [p].  The prefix alone is
    a matching failure; the prefix and a point alone are read as the [0] of
    the prefix. *)
Definition scan_hexadecimal (neg : bool) (s2 : string) : option (number * string) :=
  let '(ip, ki, s3) := scan_hex_digits s2 0%N 0%nat in
  match s3 with
  | String "." t =>
      let '(m, kf, s4) := scan_hex_digits t ip 0%nat in
      match (ki + kf)%nat with
      | O => Some (Hexadecimal neg 0 0, s4)
      | S _ =>
          let '(e, s5) := scan_exponent "p" s4 in
          Some (Hexadecimal neg m (e - 4 * Z.of_nat kf), s5)
      end
  | _ =>
      match ki with
      | O => None
      | S _ =>
          let '(e, s5) := scan_exponent "p" s3 in
          Some (Hexadecimal neg ip e, s5)
      end
  end.

(** The input item after its sign: [nan], [inf] or [infinity] in either
    case, a hexadecimal number, or a decimal number.  After [inf] a further
    [i] commits to the whole of [infinity]. *)
Definition scan_unsigned (neg : bool) (s1 : string) : option (number * string) :=
  match s1 with
  | EmptyString => None
  | String c t =>
      if is_letter c "n" then
        match scan_word "an" t with
        | Some r => Some (NaN, r)
        | None => None
        end
      else if is_letter c "i" then
        match scan_word "nf" t with
        | Some (String c' t') =>
            if is_letter c' "i" then
              match scan_word "nity" t' with
              | Some r => Some (Infinity neg, r)
              | None => None
              end
            else Some (Infinity neg, String c' t')
        | Some EmptyString => Some (Infinity neg, EmptyString)
        | None => None
        end
      else
        match t with
        | String x t' =>
            if (Ascii.eqb c "0" && is_letter x "x")%bool
            then scan_hexadecimal neg t'
            else scan_decimal neg s1
        | EmptyString => scan_decimal neg s1
        end
  end.

(** The input item of [%lf]: an optional sign and a number. *)
Definition scan_double (s : string) : option (number * string) :=
  let '(neg, s1) := scan_sign s in
  scan_unsigned neg s1.

(** The directives of a format: white space, an ordinary character, [%d],
    [%lf]. *)
Inductive directive : Type :=
  | DSpace
  | DChar (c : ascii)
  | DInt
  | DDouble.

Fixpoint parse_format (fmt : string) : list directive :=
  match fmt with
  | EmptyString => []
  | String "%" (String "d" t) => DInt :: parse_format t
  | String "%" (String "l" (String "f" t)) => DDouble :: parse_format t
  | String c t => (if is_space c then DSpace else DChar c) :: parse_format t
  end.

(** What a conversion assigns: an [int], a double that is a finite number,
    or a double that is an infinity or a NaN. *)
Inductive value : Type :=
  | VInt (z : Z)
  | VDouble (r : R)
  | VNotFinite.

Definition double_value (x : number) : value :=
  match number_value x with
  | Some r => VDouble r
  | None => VNotFinite
  end.

Definition is_finite (v : value) : bool :=
  match v with
  | VNotFinite => false
  | _ => true
  end.

(** The values converted before the first directive that fails; [sscanf]
    returns their number (or [EOF], which is no positive count either). *)
Fixpoint scan (ds : list directive) (s : string) : list value :=
  match ds with
  | [] => []
  | DSpace :: ds' => scan ds' (skip_space s)
  | DChar c :: ds' =>
      match s with
      | String c' t => if Ascii.eqb c c' then scan ds' t else []
      | EmptyString => []
      end
  | DInt :: ds' =>
      match scan_int (skip_space s) with
      | Some (z, t) => VInt (wrap32 z) :: scan ds' t
      | None => []
      end
  | DDouble :: ds' =>
      match scan_double (skip_space s) with
      | Some (x, t) => double_value x :: scan ds' t
      | None => []
      end
  end.

Definition sscanf (line fmt : string) : list value :=
  scan (parse_format fmt) line.

(** The output of an [int]: decimal digits, [-] before a negative number. *)
Definition digit_char (d : N) : ascii := ascii_of_N (48 + d).

Fixpoint show_digits (fuel : nat) (n : N) (acc : string) : string :=
  match fuel with
  | O => acc
  | S f =>
      let acc' := String (digit_char (n mod 10)) acc in
      if (n / 10 =? 0)%N then acc' else show_digits f (n / 10)%N acc'
  end.

Definition show_N (n : N) : string :=
  show_digits (S (N.to_nat (N.log2 n))) n EmptyString.

Definition show_int (z : Z) : string :=
  if (z <? 0)%Z then String "-" (show_N (Z.to_N (- z))) else show_N (Z.to_N z).

(** ** The text codec *)

(** What [read] does with a file.  It assigns the members one by one, so a
    failure leaves the Parameter Set with the members assigned so far.
    [NotFinite]: [read] assigned an infinity or a NaN to a member, which the
    Parameter Set of the model, made of real numbers, cannot hold; [e] is
    the error [read] ended with, if it did, and [P] has the other
    members. *)
Inductive outcome : Type :=
  | Loaded (P : OpticalBarModel)
  | Failed (e : exn) (P : OpticalBarModel)
  | NotFinite (e : option exn) (P : OpticalBarModel).

(** The outcome once a member is not finite. *)
Definition not_finite (o : outcome) : outcome :=
  match o with
  | Loaded P => NotFinite None P
  | Failed e P => NotFinite (Some e) P
  | NotFinite e P => NotFinite e P
  end.

(** The error [read] ends with, if any. *)
Definition error_of (o : outcome) : option exn :=
  match o with
  | Loaded _ => None
  | Failed e _ => Some e
  | NotFinite e _ => e
  end.

(** One parameter line of the file: the format [sscanf] is called with, the
    number of conversions it must return, the message of the error
    otherwise, and the members the conversions are stored into. *)
Record field : Type := mkField {
  fmt : string;
  arity : nat;
  msg : string;
  store : list value -> OpticalBarModel -> OpticalBarModel
}.

Definition store_image_size (vs : list value) (P : OpticalBarModel) : OpticalBarModel :=
  match vs with
  | VInt a :: VInt b :: _ => set_image_size (vec2i a b) P
  | VInt a :: _ => set_image_size (vec2i a (v2i_y (m_image_size P))) P
  | _ => P
  end.

(** The double a conversion assigned, or [old] where it converted an
    infinity or a NaN: such a member keeps in the model the real number it
    had. *)
Definition finite_or (old : R) (v : value) : R :=
  match v with
  | VDouble r => r
  | _ => old
  end.

Definition store_image_center (vs : list value) (P : OpticalBarModel) : OpticalBarModel :=
  let c := m_center_loc_pixels P in
  match vs with
  | a :: b :: _ =>
      set_center_loc_pixels (vec2 (finite_or (v2x c) a) (finite_or (v2y c) b)) P
  | a :: _ => set_center_loc_pixels (vec2 (finite_or (v2x c) a) (v2y c)) P
  | _ => P
  end.

Definition store_double (set : R -> OpticalBarModel -> OpticalBarModel)
    (vs : list value) (P : OpticalBarModel) : OpticalBarModel :=
  match vs with
  | VDouble a :: _ => set a P
  | _ => P
  end.

Definition store_initial_position (vs : list value) (P : OpticalBarModel) : OpticalBarModel :=
  let p := m_initial_position P in
  match vs with
  | a :: b :: c :: _ =>
      set_initial_position
        (vec3 (finite_or (v3x p) a) (finite_or (v3y p) b) (finite_or (v3z p) c)) P
  | a :: b :: _ =>
      set_initial_position (vec3 (finite_or (v3x p) a) (finite_or (v3y p) b) (v3z p)) P
  | a :: _ => set_initial_position (vec3 (finite_or (v3x p) a) (v3y p) (v3z p)) P
  | _ => P
  end.

(** The nine numbers go to the local [rot_mat]; the orientation is assigned
    from it once all nine are read: [Quat q(rot_mat); q.axis_angle()]. *)
Definition store_rotation (E : Collaborators) (vs : list value) (P : OpticalBarModel)
  : OpticalBarModel :=
  match vs with
  | [VDouble a; VDouble b; VDouble c; VDouble d; VDouble e; VDouble f;
     VDouble g; VDouble h; VDouble i] =>
      let rot_mat := mat3 (vec3 a b c) (vec3 d e f) (vec3 g h i) in
      set_initial_orientation (quat_axis_angle E (quat_of_matrix E rot_mat)) P
  | _ => P
  end.

(** [m_use_motion_compensation = temp_i;//(temp_i > 0);] *)
Definition store_use_motion_compensation (vs : list value) (P : OpticalBarModel)
  : OpticalBarModel :=
  match vs with
  | VInt temp_i :: _ => set_use_motion_compensation temp_i P
  | _ => P
  end.

Definition read_file_msg (s : string) : string :=
  "OpticalBarModel::read_file(): " ++ s ++ nl.

(** The parameter lines, in the order [read] expects them. *)
Definition fields (E : Collaborators) : list field :=
  [ mkField "image_size = %d %d" 2
      (read_file_msg "Could not read the image size") store_image_size;
    mkField "image_center = %lf %lf" 2
      (read_file_msg "Could not read the image center") store_image_center;
    mkField "pitch = %lf" 1
      (read_file_msg "Could not read the pixel pitch") (store_double set_pixel_size);
    mkField "f = %lf" 1
      (read_file_msg "Could not read the focal_length") (store_double set_focal_length);
    mkField "scan_angle = %lf" 1
      (read_file_msg "Could not read the scan angle")
      (store_double set_scan_angle_radians);
    mkField "scan_rate = %lf" 1
      (read_file_msg "Could not read the scan rate")
      (store_double set_scan_rate_radians);
    mkField "forward_tilt = %lf" 1
      (read_file_msg "Could not read the forward tilt angle")
      (store_double set_forward_tilt_radians);
    mkField "iC = %lf %lf %lf" 3
      (read_file_msg "Could not read the initial position") store_initial_position;
    mkField "iR = %lf %lf %lf %lf %lf %lf %lf %lf %lf" 9
      ("PinholeModel::read_file(): Could not read the rotation matrix" ++ nl)
      (store_rotation E);
    mkField "speed = %lf" 1
      (read_file_msg "Could not read the speed") (store_double set_speed);
    mkField "mean_earth_radius = %lf" 1
      (read_file_msg "Could not read the mean earth radius")
      (store_double set_mean_earth_radius);
    mkField "mean_surface_elevation = %lf" 1
      (read_file_msg "Could not read the mean surface elevation")
      (store_double set_mean_surface_elevation);
    mkField "use_motion_compensation = %d" 1
      (read_file_msg "Could not read use motion compensation")
      store_use_motion_compensation ]%list.

(** The parameter lines of [read], then the line of the scan direction:
    for each line [getline], then
    [if (!cam_file.good() || sscanf(...) != n) throw IOErr].  An infinity or
    a NaN counts as a conversion like any number; [read] goes on as the
    source does, and the outcome is marked. *)
Fixpoint read_fields (fs : list field) (cam_file : ifstream) (line : string)
    (P : OpticalBarModel) : outcome :=
  match fs with
  | [] =>
      let '(cam_file, line) := getline cam_file line in
      Loaded (set_scan_left_to_right (negb (find line "scan_dir = left")) P)
  | f :: fs' =>
      let '(cam_file, line) := getline cam_file line in
      if negb (good cam_file) then Failed (mkExn IOErr (msg f)) P
      else
        let vs := sscanf line (fmt f) in
        let o := if Nat.eqb (List.length vs) (arity f)
                 then read_fields fs' cam_file line (store f vs P)
                 else Failed (mkExn IOErr (msg f)) (store f vs P) in
        if forallb is_finite vs then o else not_finite o
  end.

(** [read(filename)] on the Parameter Set [P]; [file] is the content of the
    file of that name, [None] when it cannot be opened. *)
Definition read (E : Collaborators) (file : option string) (filename : string)
    (P : OpticalBarModel) : outcome :=
  match file with
  | None =>
      Failed (mkExn IOErr
                ("OpticalBarModel::read_file: Could not open file: " ++ filename)) P
  | Some content =>
      let cam_file := mkStream content true in
      let '(cam_file, line) := getline cam_file EmptyString in
      if negb (find line "VERSION")
      then Failed (mkExn IOErr (read_file_msg "Version missing!")) P
      else
        let file_version :=
          match sscanf line "VERSION_%d" with
          | VInt v :: _ => v
          | _ => 1%Z
          end in
        if (file_version <? 4)%Z
        then Failed (mkExn ArgumentErr
                       (read_file_msg "Versions prior to 4 are not supported!")) P
        else
          let '(cam_file, line) := getline cam_file line in
          if negb (find line "OPTICAL_BAR")
          then Failed (mkExn ArgumentErr
                         ("OpticalBarModel::read_file: Expected OPTICAL_BAR type, but got type "
                          ++ line)) P
          else read_fields (fields E) cam_file line P
  end.

(** Lines, each followed by a newline. *)
Fixpoint unlines (ls : list string) : string :=
  match ls with
  | nil => EmptyString
  | cons l ls' => l ++ nl ++ unlines ls'
  end.

(** The lines [write] sends to the file, in order. *)
Definition write_lines (E : Collaborators) (P : OpticalBarModel) : list string :=
  let d := show_double E in
  let rot_mat := rotation_matrix (camera_pose P (vec2 0 0)) in
  [ "VERSION_4";
    "OPTICAL_BAR";
    "image_size = " ++ show_int (v2i_x (m_image_size P)) ++ " "
                    ++ show_int (v2i_y (m_image_size P));
    "image_center = " ++ d (v2x (m_center_loc_pixels P)) ++ " "
                      ++ d (v2y (m_center_loc_pixels P));
    "pitch = " ++ d (m_pixel_size P);
    "f = " ++ d (m_focal_length P);
    "scan_angle = " ++ d (m_scan_angle_radians P);
    "scan_rate = " ++ d (m_scan_rate_radians P);
    "forward_tilt = " ++ d (m_forward_tilt_radians P);
    "iC = " ++ d (v3x (m_initial_position P)) ++ " "
            ++ d (v3y (m_initial_position P)) ++ " "
            ++ d (v3z (m_initial_position P));
    "iR = " ++ d (v3x (row0 rot_mat)) ++ " " ++ d (v3y (row0 rot_mat)) ++ " "
            ++ d (v3z (row0 rot_mat)) ++ " "
            ++ d (v3x (row1 rot_mat)) ++ " " ++ d (v3y (row1 rot_mat)) ++ " "
            ++ d (v3z (row1 rot_mat)) ++ " "
            ++ d (v3x (row2 rot_mat)) ++ " " ++ d (v3y (row2 rot_mat)) ++ " "
            ++ d (v3z (row2 rot_mat));
    "speed = " ++ d (m_speed P);
    "mean_earth_radius = " ++ d (m_mean_earth_radius P);
    "mean_surface_elevation = " ++ d (m_mean_surface_elevation P);
    "use_motion_compensation = " ++ show_int (m_use_motion_compensation P);
    if m_scan_left_to_right P then "scan_dir = right" else "scan_dir = left" ].

(** [write(filename)]: the content written, or the error when the file
    cannot be opened. *)
Definition write (E : Collaborators) (is_open : bool) (filename : string)
    (P : OpticalBarModel) : result string :=
  if negb is_open
  then Raise (mkExn IOErr ("OpticalBarModel::write: Could not open file: " ++ filename))
  else Ok (unlines (write_lines E P)).

(** ** The local ray in IEEE arithmetic

    The statements of [pixel_to_vector_uncorrected] from the motion
    compensation to the normalization, on binary64 numbers, where a division
    by zero yields an infinity or a NaN.  The sine and the cosine of [alpha]
    are arguments: the arithmetic of the kernel has no trigonometry. *)
Module IEEE.

Definition norm_2 (x y z : float) : float :=
  PrimFloat.sqrt (x * x + y * y + z * z)%float.

Definition local_ray (focal_length speed scan_rate H y sin_alpha cos_alpha
                      use_motion_compensation : float) (scan_left_to_right : bool)
  : float * float * float :=
  let imc := ((focal_length * speed) / (H * scan_rate)
              * sin_alpha * use_motion_compensation)%float in
  let imc := if negb scan_left_to_right then (imc * -1)%float else imc in
  let rx := (focal_length * sin_alpha)%float in
  let ry := (y + imc)%float in
  let rz := (focal_length * cos_alpha)%float in
  let n := norm_2 rx ry rz in
  ((rx / n)%float, (ry / n)%float, (rz / n)%float).

(** The example camera on the datum at pixel (0, 250): focal length 0.5,
    speed 7500, scan rate 0.05, [H = 0], sensor row 0, and the sine and the
    cosine of [alpha = -0.01]. *)
Definition ray_on_datum (use_motion_compensation : float) : float * float * float :=
  local_ray 0.5 7500 0x1.999999999999ap-5 0 0
            (-0x1.47acae915e807p-7) 0x1.fff9724ad97aap-1
            use_motion_compensation true.

End IEEE.

(** ** Parameter Sets of reference *)

(** The invariants of the Parameter Set, with the image size held in
    [int]s. *)
Record valid (P : OpticalBarModel) : Prop := mkValid {
  valid_columns : (1 < v2i_x (m_image_size P))%Z;
  valid_columns_int : is_int (v2i_x (m_image_size P));
  valid_rows_int : is_int (v2i_y (m_image_size P));
  valid_scan_rate : m_scan_rate_radians P <> 0;
  valid_focal_length : 0 < m_focal_length P;
  valid_pixel_size : 0 < m_pixel_size P
}.

(** The example scenario of the specification, with the two ray
    corrections switched off. *)
Definition example_scenario : OpticalBarModel :=
  mkModel (vec2i 1000 500) (vec2 500 250) 1e-5 0.5 0.1 0.05 0
          (vec3 7000000 0 0) (vec3 0 0 0) 7500 6371000 0 0 true false true.

(** The same camera scanning from right to left. *)
Definition example_right_to_left : OpticalBarModel :=
  set_scan_left_to_right false example_scenario.

(** The same camera placed on the datum, motion compensation on. *)
Definition example_on_datum : OpticalBarModel :=
  set_use_motion_compensation 1
    (set_initial_position (vec3 6371000 0 0) example_scenario).

(** A sample of collaborators, to evaluate the model at concrete inputs:
    corrections that return the ray they are given, a solver that returns
    its start with status 1, conversions that answer the identity rotation,
    and doubles printed as the integer below them, which is faithful for the
    integers. *)
Definition sample_collaborators : Collaborators :=
  mkCollab (fun _ _ _ v => Ok v) (fun _ _ _ v => Ok v)
           (fun a => (lma_start a, 1%Z))
           (fun _ => quat 1 0 0 0) (fun _ => vec3 0 0 0)
           (fun r => show_int (Zfloor r)).

(** The same collaborators with a refraction correction that throws. *)
Definition failing_refraction : Collaborators :=
  mkCollab (fun _ _ _ _ => Raise (mkExn OtherErr "refraction"))
           (apply_velocity_aberration_correction sample_collaborators)
           (levenberg_marquardt sample_collaborators)
           (quat_of_matrix sample_collaborators)
           (quat_axis_angle sample_collaborators)
           (show_double sample_collaborators).

(** The example camera with both corrections applied: the refraction flag
    is false, the velocity aberration flag is true. *)
Definition example_corrected : OpticalBarModel :=
  mkModel (vec2i 1000 500) (vec2 500 250) 1e-5 0.5 0.1 0.05 0
          (vec3 7000000 0 0) (vec3 0 0 0) 7500 6371000 0 0 true true false.

(** The refraction correction is called and throws. *)
Definition refraction_raises (E : Collaborators) (P : OpticalBarModel) (pixel : Vector2)
  : bool :=
  negb (m_correct_atmospheric_refraction P)
  && match apply_atmospheric_refraction_correction E (camera_center P pixel)
             (m_mean_earth_radius P) (m_mean_surface_elevation P)
             (pixel_to_vector_uncorrected P pixel) with
     | Raise _ => true
     | Ok _ => false
     end.

(** The time of one complete scan. *)
Definition scan_time (P : OpticalBarModel) : R :=
  m_scan_angle_radians P / m_scan_rate_radians P.

(** ** Notions for the properties of the text codec *)

(** The text holds in one line. *)
Fixpoint no_newline (s : string) : bool :=
  match s with
  | EmptyString => true
  | String c t => negb (Ascii.eqb c newline) && no_newline t
  end.

(** What follows a number in a line: nothing, or a space. *)
Definition delimited (s : string) : Prop :=
  s = EmptyString \/ exists t, s = String " " t.

(** Words separated by single spaces. *)
Fixpoint join (ws : list string) : string :=
  match ws with
  | nil => EmptyString
  | cons w ws' =>
      match ws' with
      | nil => w
      | cons _ _ => w ++ String " " (join ws')
      end
  end.

(** [n] conversions, each after white space. *)
Fixpoint conversions (d : directive) (n : nat) : list directive :=
  match n with
  | O => nil
  | S n' => DSpace :: d :: conversions d n'
  end.

(** The ordinary characters of a key. *)
Fixpoint chars (key : string) : list directive :=
  match key with
  | EmptyString => nil
  | String c t => DChar c :: chars t
  end.

(** The text of the double [r], as the collaborator prints it, holds in
    one line and scans back to the number [v]. *)
Definition scans_back (E : Collaborators) (r v : R) : Prop :=
  no_newline (show_double E r) = true /\
  forall rest, delimited rest ->
    exists x, scan_double (skip_space (show_double E r ++ rest)) = Some (x, rest)
              /\ number_value x = Some v.

(** A double whose text scans back to the same number. *)
Definition prints_faithfully (E : Collaborators) (r : R) : Prop :=
  scans_back E r r.

(** The doubles [write] prints, in the order of the file. *)
Definition doubles_written (P : OpticalBarModel) : list R :=
  let m := rotation_matrix (camera_pose P (vec2 0 0)) in
  [ v2x (m_center_loc_pixels P); v2y (m_center_loc_pixels P);
    m_pixel_size P; m_focal_length P; m_scan_angle_radians P;
    m_scan_rate_radians P; m_forward_tilt_radians P;
    v3x (m_initial_position P); v3y (m_initial_position P); v3z (m_initial_position P);
    v3x (row0 m); v3y (row0 m); v3z (row0 m);
    v3x (row1 m); v3y (row1 m); v3z (row1 m);
    v3x (row2 m); v3y (row2 m); v3z (row2 m);
    m_speed P; m_mean_earth_radius P; m_mean_surface_elevation P ]%list.

(** The numbers of the Parameter Set survive their text: the integers are
    [int]s, and the doubles are printed faithfully. *)
Record writable (E : Collaborators) (P : OpticalBarModel) : Prop := mkWritable {
  writable_columns : is_int (v2i_x (m_image_size P));
  writable_rows : is_int (v2i_y (m_image_size P));
  writable_motion : is_int (m_use_motion_compensation P);
  writable_doubles : Forall (prints_faithfully E) (doubles_written P)
}.

(** What [read] makes of [P0] from the file written for [P]. *)
Definition reloaded (E : Collaborators) (P P0 : OpticalBarModel) : OpticalBarModel :=
  mkModel (m_image_size P) (m_center_loc_pixels P) (m_pixel_size P) (m_focal_length P)
          (m_scan_angle_radians P) (m_scan_rate_radians P) (m_forward_tilt_radians P)
          (m_initial_position P)
          (quat_axis_angle E
             (quat_of_matrix E (rotation_matrix (camera_pose P (vec2 0 0)))))
          (m_speed P) (m_mean_earth_radius P) (m_mean_surface_elevation P)
          (m_use_motion_compensation P) (m_scan_left_to_right P)
          (m_correct_velocity_aberration P0) (m_correct_atmospheric_refraction P0).

(** The local variable [file_version] of [read]. *)
Definition version_of (line : string) : Z :=
  match sscanf line "VERSION_%d" with
  | VInt v :: _ => v
  | _ => 1%Z
  end%list.

(** The two lines that open a file [read] accepts. *)
Definition header_ok (h0 h1 : string) : Prop :=
  no_newline h0 = true /\ no_newline h1 = true /\
  find h0 "VERSION" = true /\ (4 <= version_of h0)%Z /\
  find h1 "OPTICAL_BAR" = true.

(** A line in which [sscanf] finds the values of the field. *)
Definition well_formed (f : field) (l : string) : Prop :=
  no_newline l = true /\ List.length (sscanf l (fmt f)) = arity f.

(** What remains of the file does not start with a line of the field: no
    complete line remains, or [sscanf] does not find the values of the
    field in the next line. *)
Definition bad_line (f : field) (tail : string) : Prop :=
  no_newline tail = true \/
  exists l rest, tail = l ++ nl ++ rest /\ no_newline l = true /\
                 List.length (sscanf l (fmt f)) <> arity f.

(** What remains of the file starts with a line of another field: a line
    out of order. *)
Definition out_of_order (E : Collaborators) (f : field) (tail : string) : Prop :=
  exists g l rest, tail = l ++ nl ++ rest /\ In g (fields E) /\ fmt g <> fmt f /\
                   well_formed g l.

(** A line whose values are all finite numbers. *)
Definition finite_line (f : field) (l : string) : Prop :=
  forallb is_finite (sscanf l (fmt f)) = true.

(** A camera whose numbers are all integers. *)
Definition example_integral : OpticalBarModel :=
  mkModel (vec2i 1000 500) (vec2 500 250) 1 1 1 1 0
          (vec3 7000000 0 0) (vec3 0 0 0) 7500 6371000 0 3 true false true.

(** The example camera turned once around the first axis: the same
    attitude, another axis-angle vector. *)
Definition example_turned : OpticalBarModel :=
  set_initial_orientation (vec3 (2 * PI) 0 0) example_scenario.

(** [r'] is [r] rounded to 17 significant decimal digits: a whole multiple
    of the unit [10^e] of the 17th digit of [r], at most half a unit
    away. *)
Definition rounded_17 (r r' : R) : Prop :=
  (r = 0 /\ r' = 0) \/
  exists m e : Z,
    powerRZ 10 (e + 16) <= Rabs r < powerRZ 10 (e + 17) /\
    r' = IZR m * powerRZ 10 e /\ Rabs (r' - r) <= powerRZ 10 e / 2.

(** The output of the double [r] on a stream of precision 17,
    [os << std::setprecision(17) << r]: a text that holds in one line and
    scans back to [r] rounded to 17 significant digits. *)
Definition prints_17_digits (E : Collaborators) (r : R) : Prop :=
  exists r', scans_back E r r' /\ rounded_17 r r'.

(** Equal within the tolerance of a round trip through 17 significant
    digits: a relative error of at most [5e-17]. *)
Definition close (x x' : R) : Prop := Rabs (x' - x) <= 5 / 10 ^ 17 * Rabs x.

(** The decimal exponent of a positive number. *)
Definition dec_exponent (a : R) : Z := Zfloor (ln a / ln 10).

(** A positive number rounded to 17 significant digits: the digits as an
    integer, and the exponent of the last one. *)
Definition round_17 (a : R) : Z * Z :=
  let e := (dec_exponent a - 16)%Z in
  (Zfloor (a * powerRZ 10 (- e) + / 2), e).

(** A printer of 17 significant digits, in a notation of its own: the
    digits, [e], the exponent of the last digit. *)
Definition show_17_digits (r : R) : string :=
  if Req_dec_T r 0 then "0"
  else
    let '(m, e) := round_17 (Rabs r) in
    (if Rlt_dec r 0 then "-" else "") ++ show_N (Z.to_N m) ++ "e" ++ show_int e.

(** A number of at most 17 significant digits: zero, or a whole multiple of
    the unit of its own 17th digit. *)
Definition seventeen_digits (x : R) : Prop :=
  x = 0 \/
  exists k e : Z, x = IZR k * powerRZ 10 e /\
                  powerRZ 10 (e + 16) <= Rabs x < powerRZ 10 (e + 17).

(** What the round trip makes of a double: a number within the tolerance,
    and the double itself when it has at most 17 significant digits. *)
Definition restored (x x' : R) : Prop :=
  close x x' /\ (seventeen_digits x -> x' = x).

Definition restored2 (a a' : Vector2) : Prop :=
  restored (v2x a) (v2x a') /\ restored (v2y a) (v2y a').

Definition restored3 (a a' : Vector3) : Prop :=
  restored (v3x a) (v3x a') /\ restored (v3y a) (v3y a') /\ restored (v3z a) (v3z a').

Definition restored_matrix (m m' : Matrix3x3) : Prop :=
  restored3 (row0 m) (row0 m') /\ restored3 (row1 m) (row1 m') /\
  restored3 (row2 m) (row2 m').

(** The numbers of the Parameter Set can be written: the integers are
    [int]s, and the doubles are printed with 17 significant digits. *)
Record printable (E : Collaborators) (P : OpticalBarModel) : Prop := mkPrintable {
  printable_columns : is_int (v2i_x (m_image_size P));
  printable_rows : is_int (v2i_y (m_image_size P));
  printable_motion : is_int (m_use_motion_compensation P);
  printable_doubles : Forall (prints_17_digits E) (doubles_written P)
}.

(** The axis-angle vector of a quaternion: its vector part, scaled to the
    length of the angle. *)
Definition axis_angle_of (q : Quat) : Vector3 :=
  let v := vec3 (qx q) (qy q) (qz q) in
  if Req_dec_T (norm_2 v) 0 then vec3 0 0 0
  else vscale (2 * acos (qw q) / norm_2 v) v.

(** The quaternion of a rotation matrix, by the formula for a matrix of
    positive trace. *)
Definition quaternion_of (m : Matrix3x3) : Quat :=
  let w := sqrt (1 + v3x (row0 m) + v3y (row1 m) + v3z (row2 m)) / 2 in
  quat w ((v3y (row2 m) - v3z (row1 m)) / (4 * w))
         ((v3z (row0 m) - v3x (row2 m)) / (4 * w))
         ((v3x (row1 m) - v3y (row0 m)) / (4 * w)).

(** A second sample of collaborators: the conversions of the quaternion
    class by the usual formulas, and doubles printed with 17 significant
    digits. *)
Definition precise_collaborators : Collaborators :=
  mkCollab (fun _ _ _ v => Ok v) (fun _ _ _ v => Ok v)
           (fun a => (lma_start a, 1%Z))
           quaternion_of axis_angle_of show_17_digits.

(** The example camera turned by one radian about the first axis. *)
Definition example_oriented : OpticalBarModel :=
  set_initial_orientation (vec3 1 0 0) example_scenario.

(** A turn about the first axis, by the angle of cosine 7/25. *)
Definition example_turn : Matrix3x3 :=
  rotation_matrix (quat (4 / 5) (3 / 5) 0 0).

(** [write] then [read] restores the orientation of [P], within the
    tolerance. *)
Definition restores_orientation (E : Collaborators) (P0 P : OpticalBarModel) : Prop :=
  exists content P',
    write E true "camera.tsai" P = Ok content /\
    read E (Some content) "camera.tsai" P0 = Loaded P' /\
    close (v3x (m_initial_orientation P)) (v3x (m_initial_orientation P')) /\
    close (v3y (m_initial_orientation P)) (v3y (m_initial_orientation P')) /\
    close (v3z (m_initial_orientation P)) (v3z (m_initial_orientation P')).

(** The parameter lines of a file for the example camera. *)
Definition example_lines : list string :=
  [ "image_size = 1000 500"; "image_center = 500 250"; "pitch = 1e-05"; "f = 0.5";
    "scan_angle = 0.1"; "scan_rate = 0.05"; "forward_tilt = 0"; "iC = 7000000 0 0";
    "iR = 1 0 0 0 1 0 0 0 1"; "speed = 7500"; "mean_earth_radius = 6371000";
    "mean_surface_elevation = 0"; "use_motion_compensation = 1" ]%list.

(** A file that ends after the line of the motion compensation. *)
Definition file_without_scan_dir : string :=
  "VERSION_4" ++ nl ++ "OPTICAL_BAR" ++ nl ++ unlines example_lines.

(** A file in which the line of the scan rate comes before the line of the
    scan angle. *)
Definition file_out_of_order : string :=
  "VERSION_4" ++ nl ++ "OPTICAL_BAR" ++ nl
  ++ unlines (firstn 4 example_lines)
  ++ "scan_rate = 0.05" ++ nl ++ "scan_angle = 0.1" ++ nl.

(** ** Notions for the further properties *)

(** The example camera with its optical center in the first column. *)
Definition example_left_center : OpticalBarModel :=
  set_center_loc_pixels (vec2 0 250) example_scenario.

(** The difference of two vectors. *)
Definition vsub (a b : Vector3) : Vector3 :=
  vec3 (v3x a - v3x b) (v3y a - v3y b) (v3z a - v3z b).

(** The Parameter Set an outcome of [read] leaves behind (for an outcome
    that is not finite, its members that are finite numbers). *)
Definition outcome_state (o : outcome) : OpticalBarModel :=
  match o with
  | Loaded P => P
  | Failed _ P => P
  | NotFinite _ P => P
  end.

(** The members as the parameter lines [ls] leave them, each line stored
    through its field. *)
Fixpoint stored (fs : list field) (ls : list string) (P : OpticalBarModel)
  : OpticalBarModel :=
  match fs, ls with
  | cons f fs', cons l ls' => stored fs' ls' (store f (sscanf l (fmt f)) P)
  | _, _ => P
  end.

(** [P] with the two correction switches of [P0]. *)
Definition with_corrections_of (P0 P : OpticalBarModel) : OpticalBarModel :=
  mkModel (m_image_size P) (m_center_loc_pixels P) (m_pixel_size P) (m_focal_length P)
          (m_scan_angle_radians P) (m_scan_rate_radians P) (m_forward_tilt_radians P)
          (m_initial_position P) (m_initial_orientation P)
          (m_speed P) (m_mean_earth_radius P) (m_mean_surface_elevation P)
          (m_use_motion_compensation P) (m_scan_left_to_right P)
          (m_correct_velocity_aberration P0) (m_correct_atmospheric_refraction P0).

(** The two correction switches. *)
Definition corrections (P : OpticalBarModel) : bool * bool :=
  (m_correct_velocity_aberration P, m_correct_atmospheric_refraction P).

(** The conversions of a format, in order: [true] for [%d], [false] for
    [%lf]. *)
Fixpoint conversion_kinds (ds : list directive) : list bool :=
  match ds with
  | nil => nil
  | cons DInt ds' => cons true (conversion_kinds ds')
  | cons DDouble ds' => cons false (conversion_kinds ds')
  | cons _ ds' => conversion_kinds ds'
  end.

(** Whether a converted value is that of a [%d]. *)
Definition is_int_value (v : value) : bool :=
  match v with
  | VInt _ => true
  | _ => false
  end.

(** A file whose image size line stops after the width. *)
Definition file_half_image_size : string :=
  "VERSION_4" ++ nl ++ "OPTICAL_BAR" ++ nl ++ "image_size = 1234 wide" ++ nl.

(** * Properties *)

(** ** Arithmetic *)

Lemma fdiv_some (a b : R) : b <> 0 -> a /? b = Some (a / b).
Proof.
  intros Hb. unfold fdiv. destruct (Req_dec_T b 0); [contradiction | reflexivity].
Qed.

Lemma fdiv_zero (a : R) : a /? 0 = None.
Proof.
  unfold fdiv. destruct (Req_dec_T 0 0) as [_ | H]; [reflexivity | now elim H].
Qed.

Lemma fdiv_none_iff (a b : R) : a /? b = None <-> b = 0.
Proof.
  unfold fdiv. destruct (Req_dec_T b 0); split; intros; try discriminate; tauto.
Qed.

Lemma wrap32_int (z : Z) : is_int z -> wrap32 z = z.
Proof.
  unfold is_int, wrap32. intros H.
  rewrite Z.mod_small by lia. lia.
Qed.

Lemma max_col_valid (P : OpticalBarModel) :
  is_int (v2i_x (m_image_size P)) -> (1 < v2i_x (m_image_size P))%Z ->
  max_col P = (v2i_x (m_image_size P) - 1)%Z /\ 0 < IZR (max_col P).
Proof.
  intros Hint Hgt. unfold max_col.
  rewrite wrap32_int by (unfold is_int in *; lia).
  split; [reflexivity | apply IZR_lt; lia].
Qed.

(** ** Scan timing *)

Lemma pixel_to_time_delta_value (P : OpticalBarModel) (pix : Vector2) :
  m_scan_rate_radians P <> 0 -> IZR (max_col P) <> 0 ->
  pixel_to_time_delta P pix =
    Some ((if m_scan_left_to_right P
           then v2x pix / IZR (max_col P)
           else (IZR (max_col P) - v2x pix) / IZR (max_col P)) * scan_time P).
Proof.
  intros Hrate Hcol. unfold pixel_to_time_delta, scan_time.
  rewrite (fdiv_some _ _ Hrate). cbn [fbind].
  destruct (m_scan_left_to_right P); rewrite (fdiv_some _ _ Hcol); reflexivity.
Qed.

(** C7.  Under the invariants (more than one column, positive scan angle
    and scan rate) the time offset of a pixel is defined and is monotone in
    the pixel column: non-decreasing for a left-to-right scan,
    non-increasing for a right-to-left scan. *)
Theorem pixel_to_time_delta_monotone
    (P : OpticalBarModel) (c1 c2 r1 r2 : R) :
  is_int (v2i_x (m_image_size P)) ->
  (1 < v2i_x (m_image_size P))%Z ->
  0 < m_scan_angle_radians P ->
  0 < m_scan_rate_radians P ->
  c1 <= c2 ->
  exists t1 t2,
    pixel_to_time_delta P (vec2 c1 r1) = Some t1 /\
    pixel_to_time_delta P (vec2 c2 r2) = Some t2 /\
    (if m_scan_left_to_right P then t1 <= t2 else t2 <= t1).
Proof.
  intros Hint Hcols Hangle Hrate Hle.
  destruct (max_col_valid P Hint Hcols) as [_ Hpos].
  assert (Hm : IZR (max_col P) <> 0) by lra.
  assert (Hr : m_scan_rate_radians P <> 0) by lra.
  assert (Ht : 0 < scan_time P).
  { unfold scan_time. apply Rdiv_lt_0_compat; assumption. }
  do 2 eexists. rewrite !pixel_to_time_delta_value by assumption.
  split; [reflexivity | split; [reflexivity |]].
  cbn [v2x]. assert (Hi : 0 < / IZR (max_col P)) by (apply Rinv_0_lt_compat; lra).
  unfold Rdiv.
  destruct (m_scan_left_to_right P); apply Rmult_le_compat_r; try lra;
    apply Rmult_le_compat_r; lra.
Qed.

Lemma example_scenario_valid : valid example_scenario.
Proof.
  constructor; cbn; unfold is_int; try lia; lra.
Qed.

Lemma pixel_to_time_delta_monotone_witness :
  exists t1 t2,
    pixel_to_time_delta example_scenario (vec2 10 0) = Some t1 /\
    pixel_to_time_delta example_scenario (vec2 20 0) = Some t2 /\
    (if m_scan_left_to_right example_scenario then t1 <= t2 else t2 <= t1).
Proof.
  apply (pixel_to_time_delta_monotone example_scenario 10 20 0 0);
    cbn; unfold is_int; try lia; lra.
Defined.

(** ** Rotations *)

Lemma dot_self_nonneg (a : Vector3) : 0 <= dot a a.
Proof. unfold dot. nra. Qed.

Lemma norm_2_sqr (a : Vector3) : norm_2 a * norm_2 a = dot a a.
Proof. unfold norm_2. apply sqrt_sqrt, dot_self_nonneg. Qed.

Lemma norm_2_zero : norm_2 (vec3 0 0 0) = 0.
Proof.
  unfold norm_2, dot; cbn.
  replace (0 * 0 + 0 * 0 + 0 * 0) with 0 by ring. apply sqrt_0.
Qed.

Lemma axis_angle_to_quaternion_zero :
  axis_angle_to_quaternion (vec3 0 0 0) = quat 1 0 0 0.
Proof.
  unfold axis_angle_to_quaternion.
  destruct (Req_dec_T (norm_2 (vec3 0 0 0)) 0) as [_ | H]; [reflexivity |].
  elim H. apply norm_2_zero.
Qed.

(** The quaternion of an axis-angle vector is a unit quaternion. *)
Lemma axis_angle_to_quaternion_unit (aa : Vector3) :
  quat_norm2 (axis_angle_to_quaternion aa) = 1.
Proof.
  unfold axis_angle_to_quaternion.
  destruct (Req_dec_T (norm_2 aa) 0) as [Hz | Hnz].
  - unfold quat_norm2; cbn. ring.
  - pose proof (norm_2_sqr aa) as Hsq. unfold dot in Hsq.
    pose proof (sin2_cos2 (norm_2 aa / 2)) as Hsc. unfold Rsqr in Hsc.
    unfold quat_norm2; cbn.
    set (t := norm_2 aa) in *. set (s := sin (t / 2)) in *.
    set (c := cos (t / 2)) in *.
    replace (c * c + s * (v3x aa / t) * (s * (v3x aa / t))
             + s * (v3y aa / t) * (s * (v3y aa / t))
             + s * (v3z aa / t) * (s * (v3z aa / t)))
      with (c * c + s * s * ((v3x aa * v3x aa + v3y aa * v3y aa + v3z aa * v3z aa)
                             / (t * t)))
      by (field; exact Hnz).
    rewrite <- Hsq. replace (t * t / (t * t)) with 1 by (field; exact Hnz).
    lra.
Qed.

(** The matrix of a quaternion scales lengths by the squared norm of the
    quaternion: it preserves them when the quaternion has norm one. *)
Lemma rotate_dot (q : Quat) (v : Vector3) :
  dot (rotate q v) (rotate q v) = quat_norm2 q * quat_norm2 q * dot v v.
Proof.
  destruct q, v. unfold rotate, mat_vec, rotation_matrix, dot, quat_norm2; cbn. ring.
Qed.

Lemma rotate_norm (q : Quat) (v : Vector3) :
  quat_norm2 q = 1 -> norm_2 (rotate q v) = norm_2 v.
Proof.
  intros Hq. unfold norm_2. rewrite rotate_dot, Hq. f_equal. ring.
Qed.

Lemma rotation_x_axis_dot (theta : R) (v : Vector3) :
  dot (mat_vec (rotation_x_axis theta) v) (mat_vec (rotation_x_axis theta) v)
  = dot v v.
Proof.
  pose proof (sin2_cos2 theta) as H. unfold Rsqr in H.
  destruct v as [x y z]. unfold mat_vec, rotation_x_axis, dot; cbn.
  replace (v3x _) with (v3x (vec3 x y z)) by reflexivity. cbn.
  nra.
Qed.

Lemma mat_mul_vec (a b : Matrix3x3) (v : Vector3) :
  mat_vec (mat_mul a b) v = mat_vec a (mat_vec b v).
Proof.
  destruct a as [[? ? ?] [? ? ?] [? ? ?]], b as [[? ? ?] [? ? ?] [? ? ?]], v.
  unfold mat_vec, mat_mul, dot, col0, col1, col2; cbn. f_equal; ring.
Qed.

(** The velocity has the length of the speed, whatever the attitude. *)
Lemma get_velocity_dot (P : OpticalBarModel) (pixel : Vector2) :
  dot (get_velocity P pixel) (get_velocity P pixel) = m_speed P * m_speed P.
Proof.
  unfold get_velocity. rewrite mat_mul_vec, rotation_x_axis_dot.
  fold (rotate (camera_pose P pixel) (vec3 0 (m_speed P) 0)).
  rewrite rotate_dot. unfold camera_pose.
  rewrite axis_angle_to_quaternion_unit. unfold dot; cbn. ring.
Qed.

(** With no rotation and no tilt the velocity is along the second axis. *)
Lemma get_velocity_level (P : OpticalBarModel) (pixel : Vector2) :
  m_initial_orientation P = vec3 0 0 0 -> m_forward_tilt_radians P = 0 ->
  get_velocity P pixel = vec3 0 (m_speed P) 0.
Proof.
  intros Ho Ht. unfold get_velocity, camera_pose.
  rewrite Ho, Ht, axis_angle_to_quaternion_zero, Ropp_0.
  unfold rotation_x_axis. rewrite cos_0, sin_0.
  unfold mat_vec, mat_mul, rotation_matrix, dot, col0, col1, col2; cbn.
  f_equal; ring.
Qed.

Lemma vadd_vscale_zero (p v : Vector3) : vadd p (vscale 0 v) = p.
Proof. destruct p, v. unfold vadd, vscale; cbn. f_equal; ring. Qed.

(** ** The camera center at the default pixel *)

Lemma camera_center_value (P : OpticalBarModel) (pix : Vector2) :
  m_scan_rate_radians P <> 0 -> IZR (max_col P) <> 0 ->
  camera_center P pix =
    Some (vadd (m_initial_position P)
            (vscale ((if m_scan_left_to_right P
                      then v2x pix / IZR (max_col P)
                      else (IZR (max_col P) - v2x pix) / IZR (max_col P))
                     * scan_time P)
                    (get_velocity P pix))).
Proof.
  intros Hr Hm. unfold camera_center.
  rewrite pixel_to_time_delta_value by assumption. reflexivity.
Qed.

Lemma valid_max_col (P : OpticalBarModel) : valid P -> IZR (max_col P) <> 0.
Proof.
  intros [Hc Hi _ _ _ _]. destruct (max_col_valid P Hi Hc) as [_ H]. lra.
Qed.

(** The camera center at the default pixel: the initial position for a
    scan from left to right, the position a whole scan later for a scan from
    right to left. *)
Lemma camera_center_at_default_pixel (P : OpticalBarModel) :
  valid P ->
  camera_center P default_pixel =
    Some (if m_scan_left_to_right P
          then m_initial_position P
          else vadd (m_initial_position P)
                    (vscale (scan_time P) (get_velocity P default_pixel))).
Proof.
  intros Hv. pose proof (valid_max_col P Hv) as Hm.
  rewrite camera_center_value by (try apply Hv; assumption).
  change (v2x default_pixel) with 0.
  destruct (m_scan_left_to_right P).
  - replace (0 / IZR (max_col P) * scan_time P) with 0 by (field; assumption).
    now rewrite vadd_vscale_zero.
  - replace ((IZR (max_col P) - 0) / IZR (max_col P) * scan_time P)
      with (scan_time P) by (field; assumption).
    reflexivity.
Qed.

(** C2, as amended.  For a valid Parameter Set the camera center at the
    default pixel is the initial position when the scan runs from left to
    right, whatever the speed; when it runs from right to left the default
    pixel is the last one exposed, and the center is the initial position
    moved by the velocity for the time of a whole scan. *)
Theorem camera_center_default (P : OpticalBarModel) :
  valid P ->
  (m_scan_left_to_right P = true ->
     camera_center P default_pixel = Some (m_initial_position P)) /\
  (m_scan_left_to_right P = false ->
     camera_center P default_pixel
     = Some (vadd (m_initial_position P)
               (vscale (m_scan_angle_radians P / m_scan_rate_radians P)
                       (get_velocity P default_pixel)))).
Proof.
  intros Hv. rewrite (camera_center_at_default_pixel P Hv).
  split; intros ->; reflexivity.
Qed.

Lemma camera_center_default_witness :
  (m_scan_left_to_right example_scenario = true ->
     camera_center example_scenario default_pixel
     = Some (m_initial_position example_scenario)) /\
  (m_scan_left_to_right example_scenario = false ->
     camera_center example_scenario default_pixel
     = Some (vadd (m_initial_position example_scenario)
               (vscale (m_scan_angle_radians example_scenario
                        / m_scan_rate_radians example_scenario)
                       (get_velocity example_scenario default_pixel)))).
Proof.
  apply (camera_center_default example_scenario).
  constructor; cbn; unfold is_int; try lia; lra.
Defined.

Lemma example_right_to_left_valid : valid example_right_to_left.
Proof.
  constructor; cbn; unfold is_int; try lia; lra.
Qed.

(** C2, counterexample.  The example camera scanning from right to left is
    valid; its center at the default pixel is 15000 off the initial
    position (two time units at speed 7500). *)
Lemma camera_center_default_right_to_left :
  valid example_right_to_left /\
  camera_center example_right_to_left default_pixel = Some (vec3 7000000 15000 0) /\
  camera_center example_right_to_left default_pixel
    <> Some (m_initial_position example_right_to_left).
Proof.
  assert (H : camera_center example_right_to_left default_pixel
              = Some (vec3 7000000 15000 0)).
  { rewrite (camera_center_at_default_pixel _ example_right_to_left_valid).
    rewrite get_velocity_level by reflexivity.
    unfold scan_time, vadd, vscale; cbn. do 2 f_equal; lra. }
  split; [exact example_right_to_left_valid | split; [exact H |]].
  rewrite H. cbn. intros Heq. injection Heq as Heq. lra.
Qed.

(** No choice of the default pixel would do: whatever pixel the argument
    defaults to, a scan direction exists for which the center there is not
    the initial position. *)
Lemma camera_center_no_reference_pixel :
  ~ exists d : Vector2,
      forall P, valid P -> camera_center P d = Some (m_initial_position P).
Proof.
  intros [d Hd].
  pose proof (Hd _ example_scenario_valid) as H1.
  pose proof (Hd _ example_right_to_left_valid) as H2.
  rewrite camera_center_value in H1, H2
    by (try apply valid_max_col; first [ exact example_scenario_valid
                                       | exact example_right_to_left_valid
                                       | cbn; lra ]).
  rewrite get_velocity_level in H1, H2 by reflexivity.
  assert (Hm1 : max_col example_scenario = 999%Z) by reflexivity.
  assert (Hm2 : max_col example_right_to_left = 999%Z) by reflexivity.
  rewrite Hm1 in H1. rewrite Hm2 in H2.
  unfold scan_time, vadd, vscale in H1, H2; cbn in H1, H2.
  injection H1 as _ H1 _. injection H2 as _ H2 _. lra.
Qed.

(** ** The uncorrected ray *)

Lemma camera_center_first_column (P : OpticalBarModel) (pix : Vector2) :
  valid P -> m_scan_left_to_right P = true -> v2x pix = 0 ->
  camera_center P pix = Some (m_initial_position P).
Proof.
  intros Hv Hl Hx. pose proof (valid_max_col P Hv) as Hm.
  rewrite camera_center_value by (try apply Hv; assumption).
  rewrite Hl, Hx.
  replace (0 / IZR (max_col P) * scan_time P) with 0 by (field; assumption).
  now rewrite vadd_vscale_zero.
Qed.

Lemma camera_height_defined (P : OpticalBarModel) (pixel : Vector2) :
  valid P -> exists H, camera_height P pixel = Some H.
Proof.
  intros Hv. unfold camera_height.
  rewrite camera_center_value by (try apply Hv; now apply valid_max_col).
  cbn [fbind]. eexists; reflexivity.
Qed.

Lemma norm_2_first_axis (a : R) : 0 <= a -> norm_2 (vec3 a 0 0) = a.
Proof.
  intros Ha. unfold norm_2, dot; cbn.
  replace (a * a + 0 * 0 + 0 * 0) with (a * a) by ring.
  now apply sqrt_square.
Qed.

Lemma normalize_unit (a : Vector3) :
  norm_2 a <> 0 -> exists r, normalize a = Some r /\ norm_2 r = 1.
Proof.
  intros Hn. unfold normalize. rewrite !(fdiv_some _ _ Hn). cbn [fbind].
  eexists; split; [reflexivity |].
  pose proof (norm_2_sqr a) as Hsq.
  remember (norm_2 a) as n eqn:En.
  unfold norm_2, dot. cbn [v3x v3y v3z].
  replace (v3x a / n * (v3x a / n) + v3y a / n * (v3y a / n) + v3z a / n * (v3z a / n))
    with (dot a a / (n * n)) by (unfold dot; field; exact Hn).
  rewrite Hsq. replace (dot a a / dot a a) with 1 by (field; rewrite <- Hsq; nra).
  apply sqrt_1.
Qed.

(** The local ray is never the zero vector when the focal length is not
    zero, so it can be normalized, to length one. *)
Lemma normalize_ray (f alpha y : R) :
  f <> 0 ->
  exists r, normalize (vec3 (f * sin alpha) y (f * cos alpha)) = Some r
            /\ norm_2 r = 1.
Proof.
  intros Hf. apply normalize_unit.
  pose proof (sin2_cos2 alpha) as Hsc. unfold Rsqr in Hsc.
  assert (Hd : 0 < dot (vec3 (f * sin alpha) y (f * cos alpha))
                       (vec3 (f * sin alpha) y (f * cos alpha))).
  { unfold dot; cbn [v3x v3y v3z].
    assert (0 < f * f) by nra.
    replace (f * sin alpha * (f * sin alpha) + y * y + f * cos alpha * (f * cos alpha))
      with (f * f * (sin alpha * sin alpha + cos alpha * cos alpha) + y * y) by ring.
    rewrite Hsc. nra. }
  unfold norm_2. pose proof (sqrt_lt_R0 _ Hd). lra.
Qed.

(** The uncorrected ray of a valid Parameter Set is a unit vector when the
    camera height is not zero. *)
Lemma pixel_to_vector_uncorrected_unit (P : OpticalBarModel) (pixel : Vector2) (H : R) :
  valid P -> camera_height P pixel = Some H -> H <> 0 ->
  exists v, pixel_to_vector_uncorrected P pixel = Some v /\ norm_2 v = 1.
Proof.
  intros Hv HH Hnz. unfold camera_height in HH. unfold pixel_to_vector_uncorrected.
  destruct (camera_center P pixel) as [c |]; [| discriminate].
  cbn [fbind] in *. injection HH as HH.
  assert (Hf : m_focal_length P <> 0) by (pose proof (valid_focal_length P Hv); lra).
  rewrite (fdiv_some _ _ Hf). cbn [fbind]. rewrite HH.
  unfold image_motion_compensation.
  assert (Hd : H * m_scan_rate_radians P <> 0).
  { apply Rmult_integral_contrapositive_currified; [exact Hnz | apply Hv]. }
  rewrite (fdiv_some _ _ Hd). cbn [fbind].
  match goal with
  | |- context [normalize (vec3 (?f * sin ?a) ?y (?f * cos ?a))] =>
      destruct (normalize_ray f a y Hf) as (r & Hr & Hunit)
  end.
  rewrite Hr. cbn [fbind]. eexists; split; [reflexivity |].
  rewrite rotate_norm; [exact Hunit |].
  apply axis_angle_to_quaternion_unit.
Qed.

(** At camera height zero the motion compensation divides by zero. *)
Lemma pixel_to_vector_uncorrected_on_datum (P : OpticalBarModel) (pixel : Vector2) :
  valid P -> camera_height P pixel = Some 0 ->
  pixel_to_vector_uncorrected P pixel = None.
Proof.
  intros Hv HH. unfold camera_height in HH. unfold pixel_to_vector_uncorrected.
  destruct (camera_center P pixel) as [c |]; [| reflexivity].
  cbn [fbind] in *. injection HH as HH.
  assert (Hf : m_focal_length P <> 0) by (pose proof (valid_focal_length P Hv); lra).
  rewrite (fdiv_some _ _ Hf). cbn [fbind]. rewrite HH.
  unfold image_motion_compensation. rewrite Rmult_0_l, fdiv_zero. reflexivity.
Qed.

(** With both corrections off no collaborator is called and the ray is the
    uncorrected one. *)
Lemma pixel_to_vector_plain (E : Collaborators) (P : OpticalBarModel) (pixel : Vector2) :
  m_correct_atmospheric_refraction P = true ->
  m_correct_velocity_aberration P = false ->
  pixel_to_vector E P pixel = ([]%list, Ok (pixel_to_vector_uncorrected P pixel)).
Proof.
  intros Ha Hb. unfold pixel_to_vector. rewrite Ha, Hb. reflexivity.
Qed.

(** C4, as amended.  The division by the camera height [H] has no guard
    and forward projection raises no error for it.  For a valid Parameter
    Set with the corrections off, [H] is defined; where [H] is not zero,
    negative heights included, the ray returned is finite; where [H] is
    zero the value returned is not finite. *)
Theorem pixel_to_vector_height
    (E : Collaborators) (P : OpticalBarModel) (pixel : Vector2) :
  valid P ->
  m_correct_atmospheric_refraction P = true ->
  m_correct_velocity_aberration P = false ->
  exists H,
    camera_height P pixel = Some H /\
    (H <> 0 -> exists v, pixel_to_vector E P pixel = ([]%list, Ok (Some v))) /\
    (H = 0 -> pixel_to_vector E P pixel = ([]%list, Ok None)).
Proof.
  intros Hv Ha Hb. destruct (camera_height_defined P pixel Hv) as [H HH].
  exists H. rewrite (pixel_to_vector_plain E P pixel Ha Hb).
  split; [exact HH | split].
  - intros Hnz.
    destruct (pixel_to_vector_uncorrected_unit P pixel H Hv HH Hnz) as (v & Hvec & _).
    exists v. now rewrite Hvec.
  - intros Hz. subst H.
    now rewrite (pixel_to_vector_uncorrected_on_datum P pixel Hv HH).
Qed.

Lemma pixel_to_vector_height_witness :
  exists H,
    camera_height example_scenario (vec2 500 250) = Some H /\
    (H <> 0 -> exists v, pixel_to_vector sample_collaborators example_scenario (vec2 500 250)
                         = ([]%list, Ok (Some v))) /\
    (H = 0 -> pixel_to_vector sample_collaborators example_scenario (vec2 500 250)
              = ([]%list, Ok None)).
Proof.
  apply (pixel_to_vector_height sample_collaborators example_scenario (vec2 500 250));
    [constructor; cbn; unfold is_int; try lia; lra | reflexivity | reflexivity].
Defined.

Lemma example_on_datum_valid : valid example_on_datum.
Proof.
  constructor; cbn; unfold is_int; try lia; lra.
Qed.

Lemma example_on_datum_height :
  camera_height example_on_datum (vec2 0 250) = Some 0.
Proof.
  unfold camera_height.
  rewrite camera_center_first_column
    by (first [exact example_on_datum_valid | reflexivity]).
  cbn [fbind]. change (m_initial_position example_on_datum) with (vec3 6371000 0 0).
  rewrite norm_2_first_axis by lra. cbn. f_equal. lra.
Qed.

(** C4, counterexample.  The example camera placed on the datum is valid;
    at pixel (0, 250) its height is [H = 0], and [pixel_to_vector] returns,
    without an error and without a call to a collaborator, a value that is
    not finite. *)
Lemma pixel_to_vector_on_datum_not_finite :
  valid example_on_datum /\
  camera_height example_on_datum (vec2 0 250) = Some 0 /\
  pixel_to_vector sample_collaborators example_on_datum (vec2 0 250)
    = ([]%list, Ok None).
Proof.
  split; [exact example_on_datum_valid | split; [exact example_on_datum_height |]].
  rewrite pixel_to_vector_plain by reflexivity.
  now rewrite (pixel_to_vector_uncorrected_on_datum _ _ example_on_datum_valid
                 example_on_datum_height).
Qed.

(** In IEEE arithmetic the ray of that pixel has a NaN for its second
    component when the motion compensation is on, and three NaNs when it is
    off. *)
Lemma ray_on_datum_nan :
  (let '(_, y, _) := IEEE.ray_on_datum 1 in PrimFloat.is_nan y) = true /\
  (let '(x, y, z) := IEEE.ray_on_datum 0 in
   PrimFloat.is_nan x && PrimFloat.is_nan y && PrimFloat.is_nan z) = true.
Proof.
  split; vm_compute; reflexivity.
Qed.

(** C9, as amended.  For a valid Parameter Set with both corrections off,
    at a pixel where the camera height [H] is not zero, [pixel_to_vector]
    calls no collaborator and returns a vector of length one. *)
Theorem pixel_to_vector_unit
    (E : Collaborators) (P : OpticalBarModel) (pixel : Vector2) (H : R) :
  valid P ->
  m_correct_atmospheric_refraction P = true ->
  m_correct_velocity_aberration P = false ->
  camera_height P pixel = Some H ->
  H <> 0 ->
  exists v, pixel_to_vector E P pixel = ([]%list, Ok (Some v)) /\ norm_2 v = 1.
Proof.
  intros Hv Ha Hb HH Hnz.
  destruct (pixel_to_vector_uncorrected_unit P pixel H Hv HH Hnz) as (v & Hvec & Hn).
  exists v. rewrite (pixel_to_vector_plain E P pixel Ha Hb), Hvec. now split.
Qed.

Lemma example_scenario_height :
  camera_height example_scenario (vec2 0 250) = Some 629000.
Proof.
  unfold camera_height.
  rewrite camera_center_first_column
    by (first [exact example_scenario_valid | reflexivity]).
  cbn [fbind]. change (m_initial_position example_scenario) with (vec3 7000000 0 0).
  rewrite norm_2_first_axis by lra. cbn. f_equal. lra.
Qed.

Lemma pixel_to_vector_unit_witness :
  exists v,
    pixel_to_vector sample_collaborators example_scenario (vec2 0 250)
      = ([]%list, Ok (Some v)) /\ norm_2 v = 1.
Proof.
  apply (pixel_to_vector_unit sample_collaborators example_scenario (vec2 0 250) 629000).
  - constructor; cbn; unfold is_int; try lia; lra.
  - reflexivity.
  - reflexivity.
  - exact example_scenario_height.
  - lra.
Defined.

(** C9, counterexample.  The example camera on the datum has both
    corrections off, and at pixel (0, 250) [pixel_to_vector] returns no
    vector of length one. *)
Lemma pixel_to_vector_on_datum_not_unit :
  valid example_on_datum /\
  m_correct_atmospheric_refraction example_on_datum = true /\
  m_correct_velocity_aberration example_on_datum = false /\
  ~ exists v,
      snd (pixel_to_vector sample_collaborators example_on_datum (vec2 0 250))
        = Ok (Some v) /\ norm_2 v = 1.
Proof.
  split; [exact example_on_datum_valid | split; [reflexivity | split; [reflexivity |]]].
  rewrite pixel_to_vector_plain by reflexivity.
  rewrite (pixel_to_vector_uncorrected_on_datum _ _ example_on_datum_valid
             example_on_datum_height).
  intros (v & Hv & _). discriminate.
Qed.

(** ** The two corrections *)

Lemma existsb_snoc {A : Type} (f : A -> bool) (l : list A) (a : A) :
  existsb f (l ++ [a])%list = (existsb f l || f a)%bool.
Proof.
  rewrite existsb_app. cbn. now rewrite orb_false_r.
Qed.

(** C5, as amended.  The refraction correction is called exactly when its
    flag is false.  The velocity aberration correction is called exactly
    when its flag is true and the refraction correction, if it was called,
    did not throw: an error of the first correction ends the projection
    before the second one. *)
Theorem pixel_to_vector_corrections
    (E : Collaborators) (P : OpticalBarModel) (pixel : Vector2) :
  existsb is_refraction_call (fst (pixel_to_vector E P pixel))
    = negb (m_correct_atmospheric_refraction P)
  /\
  existsb is_aberration_call (fst (pixel_to_vector E P pixel))
    = (m_correct_velocity_aberration P && negb (refraction_raises E P pixel))%bool.
Proof.
  unfold pixel_to_vector, refraction_raises.
  destruct (m_correct_atmospheric_refraction P), (m_correct_velocity_aberration P);
    cbn [negb andb];
    try destruct (apply_atmospheric_refraction_correction E _ _ _ _);
    cbn; split; reflexivity.
Qed.

(** C5, counterexample.  With a refraction correction that throws, the
    velocity aberration flag of the example camera is true and the velocity
    aberration correction is not applied: the projection ends with the
    repackaged error of the refraction correction. *)
Lemma aberration_skipped_after_refraction_error :
  m_correct_velocity_aberration example_corrected = true /\
  existsb is_aberration_call
    (fst (pixel_to_vector failing_refraction example_corrected (vec2 500 250))) = false /\
  snd (pixel_to_vector failing_refraction example_corrected (vec2 500 250))
    = Raise (mkExn PixelToRayErr "refraction").
Proof.
  repeat split.
Qed.

(** ** Inverse projection *)

(** C6.  [point_to_pixel] calls the solver once, with the image center as
    the start, tolerances 1e-16 and at most 100000 iterations; it returns
    the solution when the status is positive and raises a point-to-pixel
    error exactly when the status is not positive. *)
Theorem point_to_pixel_solver
    (E : Collaborators) (P : OpticalBarModel) (point : Vector3) :
  let a := point_to_pixel_args P point in
  let solution := fst (levenberg_marquardt E a) in
  let status := snd (levenberg_marquardt E a) in
  fst (point_to_pixel E P point) = [CallLevenbergMarquardt a]%list /\
  lma_camera a = P /\ lma_point a = point /\
  lma_start a = vec2 (IZR (v2i_x (m_image_size P)) / 2)
                     (IZR (v2i_y (m_image_size P)) / 2) /\
  lma_abs_tol a = 1e-16 /\ lma_rel_tol a = 1e-16 /\
  lma_max_iterations a = 100000%Z /\
  ((0 < status)%Z -> snd (point_to_pixel E P point) = Ok solution) /\
  ((exists m, snd (point_to_pixel E P point) = Raise (mkExn PointToPixelErr m))
   <-> (status <= 0)%Z).
Proof.
  cbv zeta. unfold point_to_pixel.
  destruct (levenberg_marquardt E (point_to_pixel_args P point)) as [solution status].
  cbn [fst snd]. repeat (split; [reflexivity |]).
  destruct (Z.gtb_spec status 0) as [Hp | Hn]; split.
  - reflexivity.
  - split; [intros [m Hm]; discriminate | lia].
  - lia.
  - split; [intros _; lia | intros _; eexists; reflexivity].
Qed.

(** ** Motion compensation *)

(** The lens-shift term is the quotient [f * speed / (H * rate)] times
    [sin alpha], multiplied by the stored integer, and negated for a scan
    from right to left. *)
Lemma image_motion_compensation_value (P : OpticalBarModel) (H alpha : R) :
  H * m_scan_rate_radians P <> 0 ->
  image_motion_compensation P H alpha =
    Some ((if m_scan_left_to_right P then 1 else -1)
          * (m_focal_length P * m_speed P / (H * m_scan_rate_radians P) * sin alpha)
          * IZR (m_use_motion_compensation P)).
Proof.
  intros Hd. unfold image_motion_compensation.
  rewrite (fdiv_some _ _ Hd). cbn [fbind].
  destruct (m_scan_left_to_right P); cbn [negb]; f_equal; ring.
Qed.

(** ** The rigid transform *)

Lemma set_camera_valid (P : OpticalBarModel) (c o : Vector3) :
  valid P -> valid (set_camera_pose o (set_camera_center c P)).
Proof.
  intros [H1 H2 H3 H4 H5 H6]. constructor; assumption.
Qed.

(** What [apply_transform] stores for a valid Parameter Set: the transform
    of the camera center at the default pixel. *)
Lemma apply_transform_value (E : Collaborators) (rotation : Matrix3x3)
    (translation : Vector3) (scale : R) (P : OpticalBarModel) :
  valid P ->
  exists P',
    apply_transform E rotation translation scale P = Some P' /\
    valid P' /\
    m_scan_left_to_right P' = m_scan_left_to_right P /\
    m_speed P' = m_speed P /\
    scan_time P' = scan_time P /\
    m_initial_position P' =
      vadd (mat_vec (mat_scale scale rotation)
              (if m_scan_left_to_right P
               then m_initial_position P
               else vadd (m_initial_position P)
                         (vscale (scan_time P) (get_velocity P default_pixel))))
           translation.
Proof.
  intros Hv. unfold apply_transform.
  rewrite (camera_center_at_default_pixel P Hv). cbn [fbind].
  eexists; split; [reflexivity |].
  split; [now apply set_camera_valid |]. repeat split.
Qed.

(** X10.  For a scan from left to right the positions compose: two
    transforms in a row store the position that the combined transform
    stores. *)
Lemma apply_transform_position_left_to_right (E : Collaborators)
    (rot1 rot2 : Matrix3x3) (t1 t2 : Vector3) (s1 s2 : R) (P : OpticalBarModel) :
  valid P -> m_scan_left_to_right P = true ->
  exists P1 P2 P12,
    apply_transform E rot1 t1 s1 P = Some P1 /\
    apply_transform E rot2 t2 s2 P1 = Some P2 /\
    apply_transform E (mat_mul rot2 rot1) (vadd (vscale s2 (mat_vec rot2 t1)) t2) (s1 * s2) P
      = Some P12 /\
    m_initial_position P2 = m_initial_position P12.
Proof.
  intros Hv Hl.
  destruct (apply_transform_value E rot1 t1 s1 P Hv)
    as (P1 & HP1 & Hv1 & Hl1 & _ & _ & Hpos1).
  destruct (apply_transform_value E rot2 t2 s2 P1 Hv1)
    as (P2 & HP2 & _ & _ & _ & _ & Hpos2).
  destruct (apply_transform_value E (mat_mul rot2 rot1)
              (vadd (vscale s2 (mat_vec rot2 t1)) t2) (s1 * s2) P Hv)
    as (P12 & HP12 & _ & _ & _ & _ & Hpos12).
  exists P1, P2, P12. repeat (split; [assumption |]).
  rewrite Hpos2, Hpos12, Hl1, Hpos1, !Hl.
  destruct rot1 as [[? ? ?] [? ? ?] [? ? ?]], rot2 as [[? ? ?] [? ? ?] [? ? ?]].
  destruct t1, t2, (m_initial_position P).
  unfold vadd, vscale, mat_vec, mat_scale, mat_mul, dot, col0, col1, col2; cbn.
  f_equal; ring.
Qed.

Lemma mat_vec_identity (v : Vector3) :
  mat_vec (mat_scale 1 identity_matrix) v = v.
Proof.
  destruct v. unfold mat_vec, mat_scale, identity_matrix, vscale, dot; cbn.
  f_equal; ring.
Qed.

Lemma vadd_zero (v : Vector3) : vadd v (vec3 0 0 0) = v.
Proof. destruct v. unfold vadd; cbn. f_equal; ring. Qed.

Lemma vadd_cancel (p v : Vector3) (k : R) :
  vadd p (vscale k v) = p -> k <> 0 -> dot v v = 0.
Proof.
  destruct p as [a b c], v as [x y z]. unfold vadd, vscale, dot; cbn.
  intros Heq Hk. injection Heq as Hx Hy Hz.
  assert (x = 0) by (apply (Rmult_eq_reg_l k); [lra | exact Hk]).
  assert (y = 0) by (apply (Rmult_eq_reg_l k); [lra | exact Hk]).
  assert (z = 0) by (apply (Rmult_eq_reg_l k); [lra | exact Hk]).
  subst. ring.
Qed.

(** The transform with the identity rotation, no translation and scale one
    moves a camera that scans from right to left: the position it stores is
    the center at the end of the scan. *)
Lemma apply_transform_identity_moves (E : Collaborators) (P : OpticalBarModel) :
  valid P -> m_scan_left_to_right P = false ->
  m_speed P <> 0 -> scan_time P <> 0 ->
  exists P',
    apply_transform E identity_matrix (vec3 0 0 0) 1 P = Some P' /\
    m_initial_position P' <> m_initial_position P.
Proof.
  intros Hv Hl Hs Ht.
  destruct (apply_transform_value E identity_matrix (vec3 0 0 0) 1 P Hv)
    as (P' & HP' & _ & _ & _ & _ & Hpos).
  exists P'. split; [exact HP' |].
  rewrite Hpos, Hl, mat_vec_identity, vadd_zero. intros Heq.
  apply vadd_cancel in Heq; [| exact Ht].
  rewrite get_velocity_dot in Heq. nra.
Qed.

(** C8, at the failing input.  The example camera scanning from right to
    left, transformed twice with the identity, no translation and scale
    one, does not end at the position the combined transform (again the
    identity, no translation, scale one) stores: whatever the quaternion
    conversions do, the second transform moves the camera once more. *)
Theorem apply_transform_composition_right_to_left (E : Collaborators) :
  exists P1 P2 P12,
    apply_transform E identity_matrix (vec3 0 0 0) 1 example_right_to_left = Some P1 /\
    apply_transform E identity_matrix (vec3 0 0 0) 1 P1 = Some P2 /\
    apply_transform E (mat_mul identity_matrix identity_matrix)
      (vadd (vscale 1 (mat_vec identity_matrix (vec3 0 0 0))) (vec3 0 0 0)) (1 * 1)
      example_right_to_left = Some P12 /\
    m_initial_position P12 = vec3 7000000 15000 0 /\
    m_initial_position P2 <> m_initial_position P12.
Proof.
  pose proof example_right_to_left_valid as Hv.
  destruct (apply_transform_value E identity_matrix (vec3 0 0 0) 1 _ Hv)
    as (P1 & HP1 & Hv1 & Hl1 & Hs1 & Ht1 & Hpos1).
  destruct (apply_transform_identity_moves E P1 Hv1) as (P2 & HP2 & Hne).
  { rewrite Hl1. reflexivity. }
  { rewrite Hs1. cbn. lra. }
  { rewrite Ht1. unfold scan_time; cbn. lra. }
  destruct (apply_transform_value E (mat_mul identity_matrix identity_matrix)
              (vadd (vscale 1 (mat_vec identity_matrix (vec3 0 0 0))) (vec3 0 0 0))
              (1 * 1) _ Hv)
    as (P12 & HP12 & _ & _ & _ & _ & Hpos12).
  assert (Hc : vadd (m_initial_position example_right_to_left)
                 (vscale (scan_time example_right_to_left)
                    (get_velocity example_right_to_left default_pixel))
               = vec3 7000000 15000 0).
  { rewrite get_velocity_level by reflexivity.
    unfold scan_time, vadd, vscale; cbn. f_equal; lra. }
  assert (H1 : m_initial_position P1 = vec3 7000000 15000 0).
  { rewrite Hpos1. change (m_scan_left_to_right example_right_to_left) with false.
    cbv iota. rewrite Hc.
    unfold vadd, mat_vec, mat_scale, identity_matrix, vscale, dot; cbn. f_equal; ring. }
  assert (H12 : m_initial_position P12 = vec3 7000000 15000 0).
  { rewrite Hpos12. change (m_scan_left_to_right example_right_to_left) with false.
    cbv iota. rewrite Hc.
    unfold vadd, mat_vec, mat_scale, mat_mul, identity_matrix, vscale, dot,
      col0, col1, col2; cbn. f_equal; ring. }
  exists P1, P2, P12. repeat (split; [assumption |]).
  rewrite H12, <- H1. exact Hne.
Qed.

(** ** Lines *)

Lemma append_assoc (a b c : string) : (a ++ b) ++ c = a ++ b ++ c.
Proof. induction a as [| x a IH]; cbn; [reflexivity | now rewrite IH]. Qed.

Lemma append_empty (a : string) : a ++ "" = a.
Proof. induction a as [| x a IH]; cbn; [reflexivity | now rewrite IH]. Qed.

Lemma no_newline_app (a b : string) :
  no_newline (a ++ b) = (no_newline a && no_newline b)%bool.
Proof.
  induction a as [| x a IH]; cbn; [reflexivity |].
  rewrite IH. now rewrite andb_assoc.
Qed.

Lemma split_line_app (l r : string) :
  no_newline l = true -> split_line (l ++ nl ++ r) = (l, Some r).
Proof.
  change (nl ++ r) with (String newline r).
  induction l as [| c l IH]; cbn [append split_line no_newline]; intros H.
  - now rewrite Ascii.eqb_refl.
  - apply andb_true_iff in H as [Hc Hl].
    apply negb_true_iff in Hc. rewrite Hc, (IH Hl). reflexivity.
Qed.

Lemma split_line_no_newline (s : string) :
  no_newline (fst (split_line s)) = true.
Proof.
  induction s as [| c s IH]; cbn [split_line]; [reflexivity |].
  destruct (Ascii.eqb c newline) eqn:Hc; [reflexivity |].
  destruct (split_line s) as [l r]. cbn [fst no_newline] in *. now rewrite Hc, IH.
Qed.

Lemma getline_line (l r old : string) :
  no_newline l = true ->
  getline (mkStream (l ++ nl ++ r) true) old = (mkStream r true, l).
Proof.
  intros H. unfold getline; cbn [good unread]. now rewrite split_line_app.
Qed.

(** ** Digits *)

Lemma digit_of_digit_char (d : N) : (d < 10)%N -> digit_of (digit_char d) = Some d.
Proof.
  intros H. unfold digit_of, digit_char.
  rewrite N_ascii_embedding by lia.
  replace ((48 <=? 48 + d)%N) with true by (symmetry; apply N.leb_le; lia).
  replace ((48 + d <=? 57)%N) with true by (symmetry; apply N.leb_le; lia).
  cbn [andb]. f_equal. lia.
Qed.

Lemma show_digits_app (fuel : nat) (n : N) (acc rest : string) :
  show_digits fuel n acc ++ rest = show_digits fuel n (acc ++ rest).
Proof.
  revert n acc. induction fuel as [| f IH]; intros n acc; cbn; [reflexivity |].
  destruct (n / 10 =? 0)%N; [reflexivity | apply IH].
Qed.

Lemma show_digits_S (f : nat) (n : N) (acc : string) :
  show_digits (S f) n acc =
    if (n / 10 =? 0)%N then String (digit_char (n mod 10)) acc
    else show_digits f (n / 10)%N (String (digit_char (n mod 10)) acc).
Proof. reflexivity. Qed.

Lemma scan_digits_show_digits (f : nat) (n : N) (acc : string) :
  (n < 2 ^ N.of_nat (S f))%N ->
  exists k, scan_digits (show_digits (S f) n acc) 0%N 0%nat = scan_digits acc n (S k).
Proof.
  revert n acc. induction f as [| f IH]; intros n acc Hn.
  - change (2 ^ N.of_nat 1)%N with 2%N in Hn.
    cbn [show_digits]. replace (n / 10)%N with 0%N by (symmetry; apply N.div_small; lia).
    cbn [N.eqb scan_digits]. rewrite N.mod_small by lia.
    rewrite digit_of_digit_char by lia. exists 0%nat. reflexivity.
  - rewrite show_digits_S. destruct (N.eqb_spec (n / 10) 0) as [Hz | Hnz].
    + cbn [scan_digits]. assert (n < 10)%N.
      { apply N.div_small_iff in Hz; lia. }
      rewrite N.mod_small by lia. rewrite digit_of_digit_char by lia.
      exists 0%nat. reflexivity.
    + destruct (IH (n / 10)%N (String (digit_char (n mod 10)) acc)) as [k Hk].
      { rewrite Nat2N.inj_succ, N.pow_succ_r' in Hn.
        apply N.Div0.div_lt_upper_bound. 
        assert (0 < 2 ^ N.of_nat (S f))%N by (apply N.neq_0_lt_0, N.pow_nonzero; lia).
        lia. }
      rewrite Hk. cbn [scan_digits].
      rewrite digit_of_digit_char by (apply N.mod_lt; lia).
      exists (S k). f_equal. rewrite (N.div_mod n 10) at 3 by lia. lia.
Qed.

Lemma digit_class (c : ascii) (d : N) (t : string) :
  digit_of c = Some d ->
  scan_sign (String c t) = (false, String c t) /\
  is_space c = false /\ Ascii.eqb c newline = false.
Proof.
  destruct c as [[] [] [] [] [] [] [] []]; cbv; intros H;
    first [discriminate | repeat split].
Qed.

Lemma show_digits_head (f : nat) (n : N) (acc : string) :
  exists c t, show_digits (S f) n acc = String c t /\ exists d, digit_of c = Some d.
Proof.
  revert n acc. induction f as [| f IH]; intros n acc; rewrite show_digits_S.
  - destruct (n / 10 =? 0)%N; cbn [show_digits]; do 2 eexists; (split; [reflexivity |]);
      eexists; apply digit_of_digit_char, N.mod_lt; lia.
  - destruct (n / 10 =? 0)%N; [| apply IH].
    do 2 eexists; (split; [reflexivity |]).
    eexists; apply digit_of_digit_char, N.mod_lt; lia.
Qed.

Lemma no_newline_show_digits (fuel : nat) (n : N) (acc : string) :
  no_newline (show_digits fuel n acc) = no_newline acc.
Proof.
  revert n acc. induction fuel as [| f IH]; intros n acc; [reflexivity |].
  rewrite show_digits_S.
  assert (H : no_newline (String (digit_char (n mod 10)) acc) = no_newline acc).
  { cbn [no_newline].
    destruct (digit_class (digit_char (n mod 10)) (n mod 10) acc) as (_ & _ & Hn).
    { apply digit_of_digit_char, N.mod_lt; lia. }
    now rewrite Hn. }
  destruct (n / 10 =? 0)%N; [exact H | now rewrite IH].
Qed.

Lemma scan_digits_delimited (rest : string) (n : N) (k : nat) :
  delimited rest -> scan_digits rest n k = (n, k, rest).
Proof.
  intros [-> | [t ->]]; reflexivity.
Qed.

Lemma show_N_fuel (n : N) : (n < 2 ^ N.of_nat (S (N.to_nat (N.log2 n))))%N.
Proof.
  rewrite Nat2N.inj_succ, N2Nat.id.
  destruct (N.eq_dec n 0) as [-> | Hn]; [reflexivity |].
  apply N.log2_spec. lia.
Qed.

Lemma scan_digits_show_N (n : N) (rest : string) :
  delimited rest ->
  exists k, scan_digits (show_N n ++ rest) 0%N 0%nat = (n, S k, rest).
Proof.
  intros Hd. unfold show_N. rewrite show_digits_app.
  destruct (scan_digits_show_digits _ n ("" ++ rest) (show_N_fuel n)) as [k Hk].
  exists k. rewrite Hk. now apply scan_digits_delimited.
Qed.

(** What does not start with a digit. *)
Lemma scan_digits_show_N_before (n : N) (rest : string) :
  (forall a k, scan_digits rest a k = (a, k, rest)) ->
  exists k, scan_digits (show_N n ++ rest) 0%N 0%nat = (n, S k, rest).
Proof.
  intros Hd. unfold show_N. rewrite show_digits_app.
  destruct (scan_digits_show_digits _ n ("" ++ rest) (show_N_fuel n)) as [k Hk].
  exists k. rewrite Hk. apply Hd.
Qed.

Lemma show_digits_head_nonzero (f : nat) (n : N) (acc : string) :
  (0 < n < 2 ^ N.of_nat (S f))%N ->
  exists c t d, show_digits (S f) n acc = String c t /\ digit_of c = Some d /\ d <> 0%N.
Proof.
  revert n acc. induction f as [| f IH]; intros n acc Hn; rewrite show_digits_S.
  - change (2 ^ N.of_nat 1)%N with 2%N in Hn.
    replace (n / 10)%N with 0%N by (symmetry; apply N.div_small; lia).
    cbn [N.eqb]. exists (digit_char (n mod 10)), acc, (n mod 10)%N.
    split; [reflexivity |]. split; [apply digit_of_digit_char, N.mod_lt; lia |].
    rewrite N.mod_small by lia. lia.
  - destruct (N.eqb_spec (n / 10) 0) as [Hz | Hnz].
    + exists (digit_char (n mod 10)), acc, (n mod 10)%N.
      split; [reflexivity |]. split; [apply digit_of_digit_char, N.mod_lt; lia |].
      apply N.div_small_iff in Hz; [| lia]. rewrite N.mod_small by lia. lia.
    + apply IH. split; [now apply N.neq_0_lt_0 |].
      destruct Hn as [_ Hn]. rewrite Nat2N.inj_succ, N.pow_succ_r' in Hn.
      apply N.Div0.div_lt_upper_bound.
      assert (0 < 2 ^ N.of_nat (S f))%N by (apply N.neq_0_lt_0, N.pow_nonzero; lia).
      lia.
Qed.

Lemma show_N_head_nonzero (n : N) :
  (0 < n)%N ->
  exists c t d, show_N n = String c t /\ digit_of c = Some d /\ d <> 0%N.
Proof.
  intros Hn. apply show_digits_head_nonzero. split; [exact Hn | apply show_N_fuel].
Qed.

(** Past a digit that does not start the prefix [0x], the number is a
    decimal one. *)
Lemma scan_unsigned_digit (neg : bool) (c : ascii) (t : string) (d : N) :
  digit_of c = Some d ->
  d <> 0%N \/ (forall x t', t = String x t' -> is_letter x "x" = false) ->
  scan_unsigned neg (String c t) = scan_decimal neg (String c t).
Proof.
  intros Hc Hx.
  destruct c as [[] [] [] [] [] [] [] []]; cbv in Hc; try discriminate Hc;
    injection Hc as <-; unfold scan_unsigned;
    match goal with
    | |- context [is_letter ?c "n"] =>
        change (is_letter c "n") with false; change (is_letter c "i") with false;
        cbv iota
    end;
    destruct t as [| x t']; try reflexivity;
    first [ change (Ascii.eqb ?a "0") with false; reflexivity
          | destruct Hx as [Hx | Hx]; [now elim Hx |];
            rewrite (Hx x t' eq_refl); reflexivity ].
Qed.

Lemma scan_exponent_delimited (rest : string) :
  delimited rest -> scan_exponent "e" rest = (0%Z, rest).
Proof.
  intros [-> | [t ->]]; reflexivity.
Qed.

(** The digits of a number, then the end of the item. *)
Lemma scan_unsigned_show_N (neg : bool) (n : N) (rest : string) :
  delimited rest ->
  scan_unsigned neg (show_N n ++ rest) = Some (Decimal (mkDec neg n 0), rest).
Proof.
  intros Hd.
  assert (Hdec : scan_decimal neg (show_N n ++ rest)
                 = Some (Decimal (mkDec neg n 0), rest)).
  { unfold scan_decimal.
    destruct (scan_digits_show_N n rest Hd) as [k ->].
    replace (match rest with
             | String "." t => scan_digits t n 0%nat
             | _ => (n, 0%nat, rest)
             end) with (n, 0%nat, rest)
      by (destruct Hd as [-> | [t ->]]; reflexivity).
    cbn [Nat.add]. now rewrite scan_exponent_delimited. }
  rewrite <- Hdec.
  destruct (show_digits_head (N.to_nat (N.log2 n)) n "") as (c & t & Hs & d & Hc).
  fold (show_N n) in Hs. rewrite Hs.
  change (String c t ++ rest) with (String c (t ++ rest)).
  apply (scan_unsigned_digit neg c (t ++ rest) d Hc).
  destruct (N.eq_dec n 0) as [-> | Hn].
  - right. intros x t' Ht. change (show_N 0) with "0" in Hs.
    injection Hs as _ <-. cbn [append] in Ht.
    destruct Hd as [-> | [t0 ->]]; [discriminate |]. now injection Ht as <- _.
  - left. destruct (show_N_head_nonzero n) as (c' & t'' & d' & Hs' & Hc' & Hd'); [lia |].
    rewrite Hs in Hs'. injection Hs' as <- _. congruence.
Qed.

Lemma scan_int_show_int (z : Z) (rest : string) :
  delimited rest -> scan_int (show_int z ++ rest) = Some (z, rest).
Proof.
  intros Hd. unfold show_int, scan_int.
  destruct (Z.ltb_spec z 0) as [Hneg | Hpos].
  - change (String "-" (show_N (Z.to_N (- z))) ++ rest)
      with (String "-" (show_N (Z.to_N (- z)) ++ rest)).
    cbn [scan_sign].
    destruct (scan_digits_show_N (Z.to_N (- z)) rest Hd) as [k Hk]. rewrite Hk.
    do 2 f_equal. lia.
  - destruct (show_digits_head (N.to_nat (N.log2 (Z.to_N z))) (Z.to_N z) "")
      as (c & t & Hs & d & Hc).
    fold (show_N (Z.to_N z)) in Hs.
    assert (Hsign : scan_sign (show_N (Z.to_N z) ++ rest)
                    = (false, show_N (Z.to_N z) ++ rest)).
    { rewrite Hs. apply (digit_class c d _ Hc). }
    rewrite Hsign.
    destruct (scan_digits_show_N (Z.to_N z) rest Hd) as [k Hk]. rewrite Hk.
    do 2 f_equal. lia.
Qed.

Lemma skip_space_idem (s : string) : skip_space (skip_space s) = skip_space s.
Proof.
  induction s as [| c s IH]; [reflexivity |].
  cbn [skip_space]. destruct (is_space c) eqn:Hc; [exact IH |].
  cbn [skip_space]. now rewrite Hc.
Qed.

Lemma skip_space_show_int (z : Z) (rest : string) :
  skip_space (show_int z ++ rest) = show_int z ++ rest.
Proof.
  unfold show_int. destruct (z <? 0)%Z; [reflexivity |].
  destruct (show_digits_head (N.to_nat (N.log2 (Z.to_N z))) (Z.to_N z) "")
    as (c & t & Hs & d & Hc).
  fold (show_N (Z.to_N z)) in Hs. rewrite Hs.
  change (String c t ++ rest) with (String c (t ++ rest)). cbn [skip_space].
  now destruct (digit_class c d (t ++ rest) Hc) as (_ & -> & _).
Qed.

Lemma no_newline_show_int (z : Z) : no_newline (show_int z) = true.
Proof.
  unfold show_int, show_N.
  destruct (z <? 0)%Z; cbn [no_newline]; rewrite no_newline_show_digits; reflexivity.
Qed.

(** ** Scanning a written line *)

Lemma delimited_join_tail (ws : list string) :
  delimited (match ws with nil => EmptyString | cons _ _ => String " " (join ws) end).
Proof.
  destruct ws; [now left | right; eexists; reflexivity].
Qed.

Lemma join_cons (w : string) (ws : list string) :
  join (w :: ws) = w ++ match ws with nil => EmptyString | cons _ _ => String " " (join ws) end.
Proof.
  destruct ws; cbn [join]; [now rewrite append_empty | reflexivity].
Qed.

Lemma scan_space (ds : list directive) (s : string) :
  scan (DSpace :: ds) s = scan ds (skip_space s).
Proof. reflexivity. Qed.

Lemma scan_join {A : Type} (d : directive) (show : A -> string) (val : A -> value)
    (xs : list A) :
  (forall x, In x xs -> forall ds rest, delimited rest ->
     scan (d :: ds) (skip_space (show x ++ rest)) = val x :: scan ds rest) ->
  scan (conversions d (List.length xs)) (String " " (join (map show xs))) = map val xs.
Proof.
  induction xs as [| x xs IH]; intros H; [reflexivity |].
  cbn [List.length conversions map]. rewrite scan_space.
  change (skip_space (String " " ?s)) with (skip_space s).
  rewrite join_cons, H; [| now left | apply delimited_join_tail].
  f_equal. destruct xs as [| y ys]; [reflexivity |].
  apply IH. intros x' Hx'. apply H. now right.
Qed.

Lemma scan_chars (key : string) (ds : list directive) (s : string) :
  scan (chars key ++ ds) (key ++ s) = scan ds s.
Proof.
  induction key as [| c key IH]; [reflexivity |].
  cbn [chars app append scan]. now rewrite Ascii.eqb_refl.
Qed.

(** A line [key = x1 ... xn] scanned with the format [key = %c ... %c]. *)
Lemma scan_line {A : Type} (key : string) (d : directive) (show : A -> string)
    (val : A -> value) (xs : list A) :
  (forall x, In x xs -> forall ds rest, delimited rest ->
     scan (d :: ds) (skip_space (show x ++ rest)) = val x :: scan ds rest) ->
  scan (chars key ++ DSpace :: DChar "=" :: conversions d (List.length xs))
       (key ++ String " " (String "=" (String " " (join (map show xs)))))
  = map val xs.
Proof.
  intros H. rewrite scan_chars, scan_space.
  change (skip_space (String " " (String "=" ?s))) with (String "=" s).
  change (scan (DChar "=" :: ?ds) (String "=" ?s)) with (scan ds s).
  now apply scan_join.
Qed.

Lemma scan_step_double (E : Collaborators) (r v : R) :
  scans_back E r v ->
  forall ds rest, delimited rest ->
    scan (DDouble :: ds) (skip_space (show_double E r ++ rest))
    = VDouble v :: scan ds rest.
Proof.
  intros [_ H] ds rest Hd. destruct (H rest Hd) as (x & Hs & Hv).
  cbn [scan]. rewrite skip_space_idem, Hs. unfold double_value. now rewrite Hv.
Qed.

Lemma scan_step_int (z : Z) :
  is_int z ->
  forall ds rest, delimited rest ->
    scan (DInt :: ds) (skip_space (show_int z ++ rest)) = VInt z :: scan ds rest.
Proof.
  intros Hz ds rest Hd. cbn [scan].
  rewrite skip_space_idem, skip_space_show_int, scan_int_show_int by assumption.
  now rewrite wrap32_int.
Qed.

Lemma no_newline_join (ws : list string) :
  Forall (fun w => no_newline w = true) ws -> no_newline (join ws) = true.
Proof.
  induction 1 as [| w ws Hw Hws IH]; [reflexivity |].
  rewrite join_cons, no_newline_app, Hw. destruct ws; [reflexivity |].
  cbn [andb no_newline]. exact IH.
Qed.

Lemma Forall2_combine {A B : Type} (R : A -> B -> Prop) (xs : list A) (ys : list B) :
  Forall2 R xs ys ->
  List.length (combine xs ys) = List.length xs /\
  map fst (combine xs ys) = xs /\ map snd (combine xs ys) = ys /\
  Forall (fun p => R (fst p) (snd p)) (combine xs ys).
Proof.
  induction 1 as [| x y xs ys Hxy _ (Hl & Hf & Hs & Ha)]; cbn [combine List.length map].
  - repeat split; constructor.
  - rewrite Hl, Hf, Hs. repeat split. now constructor.
Qed.

(** A line of doubles, each printed by the collaborator, scanned with its
    format: the numbers their texts scan back to. *)
Lemma sscanf_doubles_as (E : Collaborators) (key : string) (rs vs : list R)
    (fmt : string) :
  parse_format fmt
    = (chars key ++ DSpace :: DChar "=" :: conversions DDouble (List.length rs))%list ->
  Forall2 (scans_back E) rs vs ->
  let line := key ++ String " " (String "=" (String " " (join (map (show_double E) rs)))) in
  sscanf line fmt = map VDouble vs /\ (no_newline key = true -> no_newline line = true).
Proof.
  intros Hfmt Hrs line.
  destruct (Forall2_combine _ _ _ Hrs) as (Hl & Hf & Hs & Ha).
  split.
  - unfold sscanf, line. rewrite Hfmt.
    pose proof (scan_line key DDouble (fun p => show_double E (fst p))
                  (fun p => VDouble (snd p)) (combine rs vs)) as H.
    rewrite Hl, <- (map_map fst (show_double E)), <- (map_map snd VDouble), Hf, Hs in H.
    apply H. intros x Hx. apply scan_step_double.
    rewrite Forall_forall in Ha. now apply Ha.
  - intros Hk. unfold line. rewrite no_newline_app, Hk.
    cbn [andb no_newline]. change (Ascii.eqb " " newline) with false.
    change (Ascii.eqb "=" newline) with false. cbn [negb andb].
    apply no_newline_join. apply Forall_map.
    clear -Hrs. induction Hrs as [| r v rs vs [Hr _] _ IH]; constructor; assumption.
Qed.

Lemma sscanf_doubles (E : Collaborators) (key : string) (rs : list R) (fmt : string) :
  parse_format fmt
    = (chars key ++ DSpace :: DChar "=" :: conversions DDouble (List.length rs))%list ->
  Forall (prints_faithfully E) rs ->
  let line := key ++ String " " (String "=" (String " " (join (map (show_double E) rs)))) in
  sscanf line fmt = map VDouble rs /\ (no_newline key = true -> no_newline line = true).
Proof.
  intros Hfmt Hrs. apply sscanf_doubles_as; [exact Hfmt |].
  clear Hfmt. induction Hrs; constructor; assumption.
Qed.

Lemma sscanf_ints (key : string) (zs : list Z) (fmt : string) :
  parse_format fmt
    = (chars key ++ DSpace :: DChar "=" :: conversions DInt (List.length zs))%list ->
  Forall is_int zs ->
  let line := key ++ String " " (String "=" (String " " (join (map show_int zs)))) in
  sscanf line fmt = map VInt zs /\ (no_newline key = true -> no_newline line = true).
Proof.
  intros Hfmt Hzs line. split.
  - unfold sscanf, line. rewrite Hfmt. apply scan_line.
    intros x Hx. apply scan_step_int. rewrite Forall_forall in Hzs. now apply Hzs.
  - intros Hk. unfold line. rewrite no_newline_app, Hk.
    cbn [andb no_newline]. change (Ascii.eqb " " newline) with false.
    change (Ascii.eqb "=" newline) with false. cbn [negb andb].
    apply no_newline_join. apply Forall_map.
    apply Forall_forall. intros z _. apply no_newline_show_int.
Qed.

Lemma read_fields_step (f : field) (fs : list field) (l rest old : string)
    (P : OpticalBarModel) (vs : list value) :
  no_newline l = true -> sscanf l (fmt f) = vs -> List.length vs = arity f ->
  forallb is_finite vs = true ->
  read_fields (f :: fs) (mkStream (l ++ nl ++ rest) true) old P
  = read_fields fs (mkStream rest true) l (store f vs P).
Proof.
  intros Hl Hs Hn Hf. cbn [read_fields]. rewrite getline_line by assumption.
  cbn [good negb]. cbv zeta. rewrite Hs, Hn, Nat.eqb_refl, Hf. reflexivity.
Qed.

(** ** Reading what was written *)

Lemma read_header (E : Collaborators) (rest filename : string) (P0 : OpticalBarModel) :
  read E (Some ("VERSION_4" ++ nl ++ "OPTICAL_BAR" ++ nl ++ rest)) filename P0
  = read_fields (fields E) (mkStream rest true) "OPTICAL_BAR" P0.
Proof.
  unfold read. rewrite getline_line by reflexivity.
  change (find "VERSION_4" "VERSION") with true.
  change (sscanf "VERSION_4" "VERSION_%d") with [VInt 4]%list.
  cbn [negb]. change (4 <? 4)%Z with false. cbv iota.
  rewrite getline_line by reflexivity. reflexivity.
Qed.

Lemma read_scan_dir (l old : string) (P : OpticalBarModel) :
  no_newline l = true ->
  read_fields nil (mkStream (l ++ nl ++ "") true) old P
  = Loaded (set_scan_left_to_right (negb (find l "scan_dir = left")) P).
Proof.
  intros Hl. cbn [read_fields]. now rewrite getline_line.
Qed.

Ltac field_step H :=
  let Hs := fresh "Hs" in
  let Hl := fresh "Hl" in
  destruct H as [Hs Hl];
  [ reflexivity
  | repeat first [ apply Forall_nil | apply Forall_cons ]; assumption
  | specialize (Hl eq_refl);
    match type of Hl with
    | no_newline ?l = true =>
        eapply eq_trans;
        [ refine (read_fields_step _ _ l _ _ _ _ Hl _ _ _);
          [exact Hs | reflexivity | reflexivity]
        | clear Hs Hl ]
    end ].

Theorem read_write (E : Collaborators) (filename : string) (P P0 : OpticalBarModel)
    (content : string) :
  writable E P ->
  write E true filename P = Ok content ->
  read E (Some content) filename P0 = Loaded (reloaded E P P0).
Proof.
  intros [Hw Hh Hu Hd] Hwrite.
  assert (Hc : content = unlines (write_lines E P)).
  { unfold write in Hwrite. change (negb true) with false in Hwrite.
    cbv iota in Hwrite. congruence. }
  subst content. clear Hwrite.
  unfold doubles_written in Hd. unfold write_lines, reloaded. cbv zeta in *.
  remember (rotation_matrix (camera_pose P (vec2 0 0))) as m eqn:Em in *. clear Em.
  destruct m as [[m00 m01 m02] [m10 m11 m12] [m20 m21 m22]].
  destruct P as [[w h] [cx cy] pitch f angle rate tilt [px py pz] o speed radius
                 elev umc ltr fv fa].
  cbn [m_image_size m_center_loc_pixels m_pixel_size m_focal_length
       m_scan_angle_radians m_scan_rate_radians m_forward_tilt_radians
       m_initial_position m_speed m_mean_earth_radius m_mean_surface_elevation
       m_use_motion_compensation m_scan_left_to_right
       v2i_x v2i_y v2x v2y v3x v3y v3z row0 row1 row2 unlines] in *.
  repeat match goal with
         | H : Forall _ (_ :: _) |- _ => inversion H; clear H; subst
         | H : Forall _ nil |- _ => clear H
         end.
  etransitivity; [exact (read_header E _ filename P0) |].
  field_step (sscanf_ints "image_size" [w; h]%list "image_size = %d %d").
  field_step (sscanf_doubles E "image_center" [cx; cy]%list "image_center = %lf %lf").
  field_step (sscanf_doubles E "pitch" [pitch]%list "pitch = %lf").
  field_step (sscanf_doubles E "f" [f]%list "f = %lf").
  field_step (sscanf_doubles E "scan_angle" [angle]%list "scan_angle = %lf").
  field_step (sscanf_doubles E "scan_rate" [rate]%list "scan_rate = %lf").
  field_step (sscanf_doubles E "forward_tilt" [tilt]%list "forward_tilt = %lf").
  field_step (sscanf_doubles E "iC" [px; py; pz]%list "iC = %lf %lf %lf").
  field_step (sscanf_doubles E "iR" [m00; m01; m02; m10; m11; m12; m20; m21; m22]%list
                "iR = %lf %lf %lf %lf %lf %lf %lf %lf %lf").
  field_step (sscanf_doubles E "speed" [speed]%list "speed = %lf").
  field_step (sscanf_doubles E "mean_earth_radius" [radius]%list
                "mean_earth_radius = %lf").
  field_step (sscanf_doubles E "mean_surface_elevation" [elev]%list
                "mean_surface_elevation = %lf").
  field_step (sscanf_ints "use_motion_compensation" [umc]%list
                "use_motion_compensation = %d").
  destruct ltr.
  - etransitivity; [exact (read_scan_dir "scan_dir = right" _ _ eq_refl) | reflexivity].
  - etransitivity; [exact (read_scan_dir "scan_dir = left" _ _ eq_refl) | reflexivity].
Qed.

(** ** Errors of [read] *)

Lemma split_line_none (s : string) :
  no_newline s = true -> split_line s = (s, None).
Proof.
  induction s as [| c s IH]; cbn [no_newline split_line]; intros H; [reflexivity |].
  apply andb_true_iff in H as [Hc Hs]. apply negb_true_iff in Hc.
  now rewrite Hc, (IH Hs).
Qed.

Lemma read_header_ok (E : Collaborators) (h0 h1 rest filename : string)
    (P0 : OpticalBarModel) :
  header_ok h0 h1 ->
  read E (Some (h0 ++ nl ++ h1 ++ nl ++ rest)) filename P0
  = read_fields (fields E) (mkStream rest true) h1 P0.
Proof.
  intros (Hn0 & Hn1 & Hv & Hver & Hb). unfold read.
  rewrite getline_line by assumption. rewrite Hv. cbn [negb].
  fold (version_of h0).
  destruct (Z.ltb_spec (version_of h0) 4) as [Hlt | _]; [lia |].
  rewrite getline_line by assumption. now rewrite Hb.
Qed.

Lemma error_of_not_finite (o : outcome) : error_of (not_finite o) = error_of o.
Proof. now destruct o. Qed.

Lemma outcome_state_not_finite (o : outcome) :
  outcome_state (not_finite o) = outcome_state o.
Proof. now destruct o. Qed.

(** Past a well-formed line [read] goes on with the next field, whether
    the values of the line are finite or not. *)
Lemma read_fields_line (f : field) (fs : list field) (l rest old : string)
    (P : OpticalBarModel) :
  well_formed f l ->
  error_of (read_fields (f :: fs) (mkStream (l ++ nl ++ rest) true) old P)
  = error_of (read_fields fs (mkStream rest true) l (store f (sscanf l (fmt f)) P)) /\
  outcome_state (read_fields (f :: fs) (mkStream (l ++ nl ++ rest) true) old P)
  = outcome_state
      (read_fields fs (mkStream rest true) l (store f (sscanf l (fmt f)) P)).
Proof.
  intros [Hl Hn]. cbn [read_fields]. rewrite getline_line by assumption.
  cbn [good negb]. cbv zeta. rewrite Hn, Nat.eqb_refl.
  destruct (forallb is_finite (sscanf l (fmt f))); [now split |].
  now rewrite error_of_not_finite, outcome_state_not_finite.
Qed.

Lemma read_fields_good (fs : list field) (ls : list string) :
  Forall2 well_formed fs ls ->
  forall (fs' : list field) (tail old : string) (P : OpticalBarModel),
  exists old' P',
    error_of (read_fields (fs ++ fs')%list (mkStream (unlines ls ++ tail) true) old P)
    = error_of (read_fields fs' (mkStream tail true) old' P') /\
    outcome_state
      (read_fields (fs ++ fs')%list (mkStream (unlines ls ++ tail) true) old P)
    = outcome_state (read_fields fs' (mkStream tail true) old' P').
Proof.
  induction 1 as [| f l fs ls Hfl _ IH]; intros fs' tail old P.
  - do 2 eexists. split; reflexivity.
  - cbn [unlines app]. rewrite !append_assoc.
    destruct (read_fields_line f (fs ++ fs')%list l (unlines ls ++ tail) old P Hfl)
      as [-> ->].
    apply IH.
Qed.

Lemma read_fields_bad (f : field) (fs : list field) (tail old : string)
    (P : OpticalBarModel) :
  bad_line f tail ->
  error_of (read_fields (f :: fs) (mkStream tail true) old P)
  = Some (mkExn IOErr (msg f)).
Proof.
  intros [Hend | (l & rest & -> & Hl & Hn)]; cbn [read_fields].
  - unfold getline; cbn [good unread]. rewrite (split_line_none _ Hend).
    reflexivity.
  - rewrite getline_line by assumption. cbn [good negb]. cbv zeta.
    apply Nat.eqb_neq in Hn. rewrite Hn.
    now destruct (forallb is_finite (sscanf l (fmt f))).
Qed.

Lemma read_fields_scan_dir (tail old : string) (P : OpticalBarModel) :
  read_fields nil (mkStream tail true) old P
  = Loaded (set_scan_left_to_right
              (negb (find (fst (split_line tail)) "scan_dir = left")) P).
Proof.
  cbn [read_fields]. unfold getline; cbn [good unread].
  destruct (split_line tail) as [l [r |]]; reflexivity.
Qed.

Lemma firstn_nth_error_split {A : Type} (l : list A) (n : nat) (a : A) :
  nth_error l n = Some a -> l = (firstn n l ++ a :: skipn (S n) l)%list.
Proof.
  revert l. induction n as [| n IH]; intros [| x l] H; try discriminate.
  - cbn in *. congruence.
  - cbn in *. f_equal. now apply IH.
Qed.

(** *** A line out of order *)

(** A line in which a format finds a value starts with the key of the
    format, and goes on, after white space or none, with the equals
    sign. *)
Lemma scan_chars_inv (key : string) (ds : list directive) (l : string) :
  scan (chars key ++ ds) l <> nil -> exists l', l = key ++ l' /\ scan ds l' <> nil.
Proof.
  revert l. induction key as [| c key IH]; intros l H.
  - exists l. now split.
  - cbn [chars app scan] in H. destruct l as [| c' t]; [now elim H |].
    destruct (Ascii.eqb_spec c c') as [<- | _]; [| now elim H].
    destruct (IH t H) as (l' & -> & H'). exists l'. now split.
Qed.

Lemma well_formed_key (fmt key l : string) (ds : list directive) :
  parse_format fmt = (chars key ++ DSpace :: DChar "=" :: ds)%list ->
  sscanf l fmt <> nil ->
  exists l' l'', l = key ++ l' /\ skip_space l' = String "=" l''.
Proof.
  intros Hfmt H. unfold sscanf in H. rewrite Hfmt in H.
  destruct (scan_chars_inv key _ l H) as (l' & -> & H').
  exists l'. cbn [scan] in H'.
  destruct (skip_space l') as [| c t]; [now elim H' |].
  destruct (Ascii.eqb_spec "=" c) as [<- | _]; [| now elim H'].
  now exists t.
Qed.

(** The key [f] starts the key [forward_tilt]: a line of the focal length
    read with the format of the forward tilt. *)
Lemma focal_length_line_as_forward_tilt (l' l'' : string) :
  skip_space l' = String "=" l'' ->
  sscanf ("f" ++ l') "forward_tilt = %lf" = nil.
Proof.
  intros H. unfold sscanf.
  change (parse_format "forward_tilt = %lf")
    with (chars "f" ++ DChar "o" :: chars "rward_tilt"
          ++ [DSpace; DChar "="; DSpace; DDouble])%list.
  rewrite scan_chars.
  destruct l' as [| c t]; [reflexivity |]. cbn [scan].
  destruct (Ascii.eqb_spec "o" c) as [<- | _]; [| reflexivity].
  cbn in H. discriminate.
Qed.

Ltac line_key Hn l :=
  match type of Hn with
  | List.length (sscanf l ?F) = _ =>
      let k := eval vm_compute in
        ((fix key (s : string) : string :=
            match s with
            | String c t => if Ascii.eqb c " " then EmptyString else String c (key t)
            | EmptyString => EmptyString
            end) F) in
      let l' := fresh "l'" in
      let l'' := fresh "l''" in
      let Hk := fresh "Hk" in
      destruct (well_formed_key F k l _ eq_refl) as (l' & l'' & -> & Hk);
      [ intros Hnil; rewrite Hnil in Hn; discriminate Hn | clear Hn ]
  end.

(** A well-formed line of one field is no line of another field: in it the
    format of the other field finds no value. *)
Lemma out_of_order_bad (E : Collaborators) (f : field) (tail : string) :
  In f (fields E) -> out_of_order E f tail -> bad_line f tail.
Proof.
  intros Hf (g & l & rest & -> & Hg & Hne & Hl & Hn).
  right. exists l, rest. split; [reflexivity | split; [exact Hl |]].
  clear Hl rest.
  assert (H0 : sscanf l (fmt f) = nil -> List.length (sscanf l (fmt f)) <> arity f).
  { intros ->. cbn [fields In] in Hf.
    repeat (destruct Hf as [<- | Hf]; [discriminate |]). destruct Hf. }
  apply H0. clear H0.
  cbn [fields In] in Hg.
  repeat (destruct Hg as [<- | Hg];
          [ cbn [fmt arity] in Hn, Hne; line_key Hn l;
            cbn [fields In] in Hf;
            repeat (destruct Hf as [<- | Hf];
                    [ cbn [fmt] in Hne |- *;
                      first [ now elim Hne
                            | vm_compute; reflexivity
                            | now apply (focal_length_line_as_forward_tilt _ l'') ]
                    | ]);
            destruct Hf
          | ]).
  destruct Hg.
Qed.

(** C3, as amended.  In a file whose two header lines are accepted and
    whose first parameter lines [ls] are well formed, each for its field in
    the order of [read]: if what follows does not start with a line of the
    next field (no complete line remains, or the format of that field does
    not find its values in the next line, as in a well-formed line of any
    other field, a line out of order), [read] ends with the I/O error whose
    message names that field.  The line of the scan direction is not
    checked: once the thirteen parameter lines are read, [read] ends
    without an error whatever follows, and the scan is from left to right
    unless the next line contains [scan_dir = left]. *)
Theorem read_reports_field (E : Collaborators) (filename h0 h1 tail : string)
    (ls : list string) (P0 : OpticalBarModel) :
  header_ok h0 h1 ->
  Forall2 well_formed (firstn (List.length ls) (fields E)) ls ->
  let content := h0 ++ nl ++ h1 ++ nl ++ unlines ls ++ tail in
  (forall f, nth_error (fields E) (List.length ls) = Some f ->
     bad_line f tail \/ out_of_order E f tail ->
     error_of (read E (Some content) filename P0) = Some (mkExn IOErr (msg f)))
  /\
  (List.length ls = List.length (fields E) ->
     error_of (read E (Some content) filename P0) = None /\
     m_scan_left_to_right (outcome_state (read E (Some content) filename P0))
     = negb (find (fst (split_line tail)) "scan_dir = left")).
Proof.
  intros Hh Hgood content. unfold content. rewrite (read_header_ok E _ _ _ _ _ Hh).
  split.
  - intros f Hf Hbad.
    assert (Hb : bad_line f tail).
    { destruct Hbad as [Hb | Ho]; [exact Hb |].
      apply (out_of_order_bad E); [| exact Ho]. eapply nth_error_In; exact Hf. }
    rewrite (firstn_nth_error_split _ _ _ Hf) at 1.
    destruct (read_fields_good _ _ Hgood (f :: skipn (S (List.length ls)) (fields E))
                tail h1 P0) as (old' & P1 & -> & _).
    now apply read_fields_bad.
  - intros Hlen. rewrite Hlen, firstn_all in Hgood.
    destruct (read_fields_good _ _ Hgood nil tail h1 P0) as (old' & P1 & He & Hs).
    rewrite app_nil_r in He, Hs. rewrite He, Hs, read_fields_scan_dir.
    split; reflexivity.
Qed.

Lemma read_reports_field_witness :
  let f := mkField "scan_angle = %lf" 1 (read_file_msg "Could not read the scan angle")
             (store_double set_scan_angle_radians) in
  error_of (read sample_collaborators
              (Some ("VERSION_4" ++ nl ++ "OPTICAL_BAR" ++ nl
                     ++ unlines (firstn 4 example_lines)
                     ++ "scan_rate = 0.05" ++ nl ++ "scan_angle = 0.1" ++ nl))
              "camera.tsai" example_scenario)
  = Some (mkExn IOErr (msg f))
  /\
  (error_of (read sample_collaborators
               (Some ("VERSION_4" ++ nl ++ "OPTICAL_BAR" ++ nl
                      ++ unlines example_lines ++ "scan_dir = left"))
               "camera.tsai" example_scenario) = None /\
   m_scan_left_to_right
     (outcome_state
        (read sample_collaborators
           (Some ("VERSION_4" ++ nl ++ "OPTICAL_BAR" ++ nl
                  ++ unlines example_lines ++ "scan_dir = left"))
           "camera.tsai" example_scenario))
   = negb (find (fst (split_line "scan_dir = left")) "scan_dir = left")).
Proof.
  intros f. split.
  - apply (proj1 (read_reports_field sample_collaborators "camera.tsai"
                    "VERSION_4" "OPTICAL_BAR"
                    ("scan_rate = 0.05" ++ nl ++ "scan_angle = 0.1" ++ nl)
                    (firstn 4 example_lines) example_scenario
                    ltac:(repeat split; try reflexivity; vm_compute; discriminate)
                    ltac:(repeat constructor)) f eq_refl).
    right. exists (mkField "scan_rate = %lf" 1
                     (read_file_msg "Could not read the scan rate")
                     (store_double set_scan_rate_radians)),
             "scan_rate = 0.05", ("scan_angle = 0.1" ++ nl).
    split; [reflexivity |]. split; [cbn; tauto |].
    split; [discriminate | split; reflexivity].
  - apply (proj2 (read_reports_field sample_collaborators "camera.tsai"
                    "VERSION_4" "OPTICAL_BAR" "scan_dir = left"
                    example_lines example_scenario
                    ltac:(repeat split; try reflexivity; vm_compute; discriminate)
                    ltac:(repeat constructor)) eq_refl).
Defined.

(** C3, counterexample.  The file has every line up to the motion
    compensation and no line for the scan direction.  [read] succeeds, and
    the scan direction, which was right to left in the Parameter Set read
    into, is left to right afterwards. *)
Lemma read_without_scan_dir :
  find file_without_scan_dir "scan_dir" = false /\
  m_scan_left_to_right example_right_to_left = false /\
  exists P',
    read sample_collaborators (Some file_without_scan_dir) "camera.tsai"
      example_right_to_left = Loaded P' /\
    m_scan_left_to_right P' = true.
Proof.
  split; [reflexivity | split; [reflexivity |]].
  eexists; split; reflexivity.
Qed.

(** The file out of order is rejected at the line where the scan angle is
    expected, with the message of the scan angle. *)
Example read_out_of_order :
  read sample_collaborators (Some file_out_of_order) "camera.tsai" example_scenario
  = Failed (mkExn IOErr (read_file_msg "Could not read the scan angle"))
      (stored (fields sample_collaborators) (firstn 4 example_lines) example_scenario).
Proof. reflexivity. Qed.

(** A file of version 3 is rejected with an argument error. *)
Example read_version_3 :
  error_of (read sample_collaborators
              (Some ("VERSION_3" ++ nl ++ "OPTICAL_BAR" ++ nl ++ unlines example_lines))
              "camera.tsai" example_scenario)
  = Some (mkExn ArgumentErr (read_file_msg "Versions prior to 4 are not supported!")).
Proof. reflexivity. Qed.

(** A last parameter line without its newline is rejected: [getline] meets
    the end of the file, and the stream is no longer good. *)
Example read_unterminated_line :
  error_of (read sample_collaborators
              (Some ("VERSION_4" ++ nl ++ "OPTICAL_BAR" ++ nl
                     ++ unlines (firstn 12 example_lines)
                     ++ "use_motion_compensation = 1"))
              "camera.tsai" example_scenario)
  = Some (mkExn IOErr (read_file_msg "Could not read use motion compensation")).
Proof. reflexivity. Qed.

(** A line of the scan direction that says [left] is read as a scan from
    right to left, with or without its newline. *)
Example read_scan_dir_left :
  match read sample_collaborators (Some (file_without_scan_dir ++ "scan_dir = left"))
          "camera.tsai" example_scenario with
  | Loaded P' => m_scan_left_to_right P' = false
  | _ => False
  end.
Proof. reflexivity. Qed.

(** A speed of [inf] is converted like any number: the file loads, with a
    speed that is not finite. *)
Example read_infinite_speed :
  exists P',
    read sample_collaborators
      (Some ("VERSION_4" ++ nl ++ "OPTICAL_BAR" ++ nl ++ unlines (firstn 9 example_lines)
             ++ "speed = inf" ++ nl ++ unlines (skipn 10 example_lines)))
      "camera.tsai" example_scenario
    = NotFinite None P'.
Proof. eexists. reflexivity. Qed.

(** The forms of a number: a hexadecimal number is converted ([0x10] is
    16), its prefix without a digit is a matching failure, an exponent
    without digits is left out of the number, and a NaN is converted. *)
Example sscanf_pitch_forms :
  (exists r, sscanf "pitch = 0x10" "pitch = %lf" = [VDouble r]%list /\ r = 16) /\
  sscanf "pitch = 0xyz" "pitch = %lf" = nil /\
  sscanf "pitch = 1e" "pitch = %lf"
  = [VDouble (decimal_value (mkDec false 1 0))]%list /\
  sscanf "pitch = nan" "pitch = %lf" = [VNotFinite]%list.
Proof.
  split; [| repeat split].
  eexists. split; [reflexivity |]. cbn. lra.
Qed.

(** ** The sample collaborators print integers faithfully *)

Lemma scan_double_show_int (z : Z) (rest : string) :
  delimited rest ->
  exists x, scan_double (show_int z ++ rest) = Some (x, rest)
            /\ number_value x = Some (IZR z).
Proof.
  intros Hd. unfold scan_double, show_int.
  destruct (Z.ltb_spec z 0) as [Hneg | Hpos].
  - change (String "-" (show_N (Z.to_N (- z))) ++ rest)
      with (String "-" (show_N (Z.to_N (- z)) ++ rest)).
    cbn [scan_sign]. rewrite scan_unsigned_show_N by assumption.
    eexists; split; [reflexivity |]. cbn [number_value]. f_equal.
    unfold decimal_value; cbn [dec_neg dec_mant dec_exp powerRZ].
    rewrite Z2N.id by lia. rewrite opp_IZR. ring.
  - destruct (show_digits_head (N.to_nat (N.log2 (Z.to_N z))) (Z.to_N z) "")
      as (c & t & Hs & d & Hc).
    fold (show_N (Z.to_N z)) in Hs.
    assert (Hsign : scan_sign (show_N (Z.to_N z) ++ rest)
                    = (false, show_N (Z.to_N z) ++ rest)).
    { rewrite Hs. apply (digit_class c d _ Hc). }
    rewrite Hsign, scan_unsigned_show_N by assumption.
    eexists; split; [reflexivity |]. cbn [number_value]. f_equal.
    unfold decimal_value; cbn [dec_neg dec_mant dec_exp powerRZ].
    rewrite Z2N.id by lia. ring.
Qed.

Lemma sample_prints_integer (r : R) (z : Z) :
  r = IZR z -> prints_faithfully sample_collaborators r.
Proof.
  intros ->. unfold prints_faithfully, scans_back.
  change (show_double sample_collaborators (IZR z)) with (show_int (Zfloor (IZR z))).
  rewrite ZfloorZ. split; [apply no_newline_show_int |].
  intros rest Hd. rewrite skip_space_show_int. now apply scan_double_show_int.
Qed.

Lemma example_integral_writable : writable sample_collaborators example_integral.
Proof.
  constructor; try (cbn; unfold is_int; lia).
  unfold doubles_written, camera_pose.
  change (m_initial_orientation example_integral) with (vec3 0 0 0).
  rewrite axis_angle_to_quaternion_zero. cbn.
  repeat apply Forall_cons; try apply Forall_nil;
    first [ apply (sample_prints_integer _ 0); lra
          | apply (sample_prints_integer _ 1); lra
          | apply (sample_prints_integer _ 500); lra
          | apply (sample_prints_integer _ 250); lra
          | apply (sample_prints_integer _ 7000000); lra
          | apply (sample_prints_integer _ 7500); lra
          | apply (sample_prints_integer _ 6371000); lra ].
Qed.

(** ** The round trip *)

(** *** Seventeen significant digits *)

Lemma rounded_17_close (r r' : R) : rounded_17 r r' -> close r r'.
Proof.
  unfold close. intros [[-> ->] | (m & e & [Hlo _] & _ & Hr)].
  - rewrite Rminus_diag, Rabs_R0. lra.
  - eapply Rle_trans; [exact Hr |].
    rewrite powerRZ_add in Hlo by lra.
    change (powerRZ 10 16) with (10 ^ 16) in Hlo.
    pose proof (powerRZ_lt 10 e ltac:(lra)) as Hp.
    assert (H17 : 10 ^ 17 = 10 * 10 ^ 16) by reflexivity.
    assert (H16 : 0 < 10 ^ 16) by (apply pow_lt; lra).
    rewrite H17. 
    apply Rmult_le_reg_r with (10 * 10 ^ 16); [nra |].
    replace (5 / (10 * 10 ^ 16) * Rabs r * (10 * 10 ^ 16)) with (5 * Rabs r)
      by (field; lra).
    nra.
Qed.

Lemma ln_10_pos : 0 < ln 10.
Proof. rewrite <- ln_1. apply ln_increasing; lra. Qed.

Lemma dec_exponent_bounds (a : R) :
  0 < a ->
  powerRZ 10 (dec_exponent a) <= a < powerRZ 10 (dec_exponent a + 1).
Proof.
  intros Ha. unfold dec_exponent.
  pose proof ln_10_pos as Hl.
  pose proof (Zfloor_bound (ln a / ln 10)) as [Hlo Hhi].
  set (e := Zfloor (ln a / ln 10)) in *.
  assert (Ha' : a = Rpower 10 (ln a / ln 10)).
  { unfold Rpower. replace (ln a / ln 10 * ln 10) with (ln a) by (field; lra).
    now rewrite exp_ln. }
  rewrite !powerRZ_Rpower by lra. rewrite plus_IZR. split.
  - apply Rle_trans with (Rpower 10 (ln a / ln 10));
      [apply Rle_Rpower; lra | rewrite <- Ha'; lra].
  - apply Rle_lt_trans with (Rpower 10 (ln a / ln 10));
      [rewrite <- Ha'; lra | apply Rpower_lt; lra].
Qed.

Lemma round_17_spec (a : R) :
  0 < a ->
  let '(m, e) := round_17 a in
  (0 < m)%Z /\
  powerRZ 10 (e + 16) <= a < powerRZ 10 (e + 17) /\
  Rabs (IZR m * powerRZ 10 e - a) <= powerRZ 10 e / 2.
Proof.
  intros Ha. unfold round_17. cbv zeta.
  pose proof (dec_exponent_bounds a Ha) as [Hlo Hhi].
  set (e0 := dec_exponent a) in *. set (e := (e0 - 16)%Z).
  replace (e + 16)%Z with e0 by (unfold e; lia).
  replace (e + 17)%Z with (e0 + 1)%Z by (unfold e; lia).
  pose proof (powerRZ_lt 10 e ltac:(lra)) as Hp.
  assert (Hinv : powerRZ 10 (- e) * powerRZ 10 e = 1).
  { rewrite <- powerRZ_add by lra. replace (- e + e)%Z with 0%Z by lia. reflexivity. }
  assert (He0 : powerRZ 10 e0 = powerRZ 10 e * 10 ^ 16).
  { replace e0 with (e + 16)%Z by (unfold e; lia). rewrite powerRZ_add by lra.
    reflexivity. }
  pose proof (powerRZ_lt 10 (- e) ltac:(lra)) as Hq.
  set (x := a * powerRZ 10 (- e)).
  assert (Hx : a = x * powerRZ 10 e).
  { unfold x. rewrite Rmult_assoc, Hinv. ring. }
  assert (H16 : 0 < 10 ^ 16) by (apply pow_lt; lra).
  assert (Hxlo : 10 ^ 16 <= x).
  { apply Rmult_le_reg_r with (powerRZ 10 e); [exact Hp |]. rewrite <- Hx. lra. }
  pose proof (Zfloor_bound (x + / 2)) as [Hm1 Hm2].
  set (m := Zfloor (x + / 2)) in *.
  split; [| split; [split; assumption |]].
  - apply lt_IZR. lra.
  - rewrite Hx. rewrite <- Rmult_minus_distr_r, Rabs_mult, (Rabs_right (powerRZ 10 e)) by lra.
    assert (Rabs (IZR m - x) <= / 2) by (apply Rabs_le; lra).
    nra.
Qed.

Lemma scan_unsigned_digits_exponent (neg : bool) (m : N) (e : Z) (rest : string) :
  (0 < m)%N -> delimited rest ->
  scan_unsigned neg (show_N m ++ "e" ++ show_int e ++ rest)
  = Some (Decimal (mkDec neg m e), rest).
Proof.
  intros Hm Hd.
  destruct (show_N_head_nonzero m Hm) as (c & t & d & Hs & Hc & Hnz).
  assert (Hdec : scan_decimal neg (show_N m ++ "e" ++ show_int e ++ rest)
                 = Some (Decimal (mkDec neg m e), rest)).
  { unfold scan_decimal.
    destruct (scan_digits_show_N_before m ("e" ++ show_int e ++ rest)) as [k ->];
      [reflexivity |].
    change ("e" ++ show_int e ++ rest) with (String "e" (show_int e ++ rest)).
    cbv iota. cbn [Nat.add]. unfold scan_exponent.
    change (is_letter "e" "e") with true. cbv iota.
    rewrite scan_int_show_int by assumption. cbv iota beta.
    replace (e - Z.of_nat 0)%Z with e by (cbn; lia). reflexivity. }
  rewrite <- Hdec, Hs.
  change (String c t ++ ?r) with (String c (t ++ r)).
  apply (scan_unsigned_digit neg c _ d Hc). now left.
Qed.

Lemma no_newline_show_N (n : N) : no_newline (show_N n) = true.
Proof. unfold show_N. now rewrite no_newline_show_digits. Qed.

(** The printer of 17 digits prints every double so that it scans back to
    its rounding. *)
Lemma show_17_digits_rounds (E : Collaborators) (r : R) :
  show_double E r = show_17_digits r -> prints_17_digits E r.
Proof.
  intros HE. unfold prints_17_digits, scans_back. rewrite HE. unfold show_17_digits.
  destruct (Req_dec_T r 0) as [-> | Hr].
  - exists 0. split; [| now left]. split; [reflexivity |].
    intros rest Hd. change "0" with (show_int 0). rewrite skip_space_show_int.
    now apply scan_double_show_int.
  - assert (Ha : 0 < Rabs r) by now apply Rabs_pos_lt.
    pose proof (round_17_spec (Rabs r) Ha) as Hspec.
    destruct (round_17 (Rabs r)) as [m e]. destruct Hspec as (Hm & Hexp & Hnear).
    assert (HM : (0 < Z.to_N m)%N) by lia.
    assert (HZ : Z.of_N (Z.to_N m) = m) by lia.
    destruct (Rlt_dec r 0) as [Hneg | Hpos].
    + exists (- (IZR m * powerRZ 10 e)). split; [split |].
      * rewrite !no_newline_app, no_newline_show_N, no_newline_show_int. reflexivity.
      * intros rest Hd.
        change (("-" ++ show_N (Z.to_N m) ++ "e" ++ show_int e) ++ rest)
          with (String "-" ((show_N (Z.to_N m) ++ "e" ++ show_int e) ++ rest)).
        cbn [skip_space]. change (is_space "-") with false. cbv iota.
        unfold scan_double. cbn [scan_sign].
        rewrite !append_assoc.
        rewrite (scan_unsigned_digits_exponent true _ e rest HM Hd).
        eexists; split; [reflexivity |]. cbn [number_value]. f_equal.
        unfold decimal_value; cbn [dec_neg dec_mant dec_exp]. rewrite HZ. ring.
      * right. exists (- m)%Z, e. split; [exact Hexp |]. split.
        -- rewrite opp_IZR. ring.
        -- rewrite (Rabs_left r) in Hnear by exact Hneg.
           replace (- (IZR m * powerRZ 10 e) - r)
             with (- (IZR m * powerRZ 10 e - - r)) by ring.
           now rewrite Rabs_Ropp.
    + assert (Hr0 : 0 < r) by lra.
      exists (IZR m * powerRZ 10 e). split; [split |].
      * rewrite !no_newline_app, no_newline_show_N, no_newline_show_int. reflexivity.
      * intros rest Hd.
        change (("" ++ show_N (Z.to_N m) ++ "e" ++ show_int e) ++ rest)
          with ((show_N (Z.to_N m) ++ "e" ++ show_int e) ++ rest).
        rewrite !append_assoc.
        destruct (show_N_head_nonzero _ HM) as (c & t & d & Hs & Hc & _).
        destruct (digit_class c d (t ++ "e" ++ show_int e ++ rest) Hc)
          as (Hsign & Hsp & _).
        assert (Hskip : skip_space (show_N (Z.to_N m) ++ "e" ++ show_int e ++ rest)
                        = show_N (Z.to_N m) ++ "e" ++ show_int e ++ rest).
        { rewrite Hs. change (String c t ++ ?x) with (String c (t ++ x)).
          cbn [skip_space]. now rewrite Hsp. }
        rewrite Hskip. unfold scan_double.
        replace (scan_sign (show_N (Z.to_N m) ++ "e" ++ show_int e ++ rest))
          with (false, show_N (Z.to_N m) ++ "e" ++ show_int e ++ rest)
          by (rewrite Hs; symmetry; exact Hsign).
        rewrite (scan_unsigned_digits_exponent false _ e rest HM Hd).
        eexists; split; [reflexivity |]. cbn [number_value]. f_equal.
        unfold decimal_value; cbn [dec_neg dec_mant dec_exp]. rewrite HZ. ring.
      * right. exists m, e. rewrite (Rabs_right r) in Hnear by lra.
        repeat split; try apply Hexp. exact Hnear.
Qed.

Lemma powerRZ_10_le (a b : Z) : (a <= b)%Z -> powerRZ 10 a <= powerRZ 10 b.
Proof.
  intros H. rewrite !powerRZ_Rpower by lra. apply Rle_Rpower; [lra |].
  now apply IZR_le.
Qed.

(** A number of at most 17 significant digits is its own rounding. *)
Lemma rounded_17_exact (x x' : R) :
  rounded_17 x x' -> seventeen_digits x -> x' = x.
Proof.
  intros [[-> ->] | (m & e & [Hlo Hhi] & -> & Hr)] Hx; [reflexivity |].
  destruct Hx as [-> | (k & e' & -> & [Hlo' Hhi'])].
  - rewrite Rabs_R0 in Hlo. pose proof (powerRZ_lt 10 (e + 16) ltac:(lra)). lra.
  - assert (He : e' = e).
    { destruct (Z.lt_trichotomy e' e) as [Hlt | [Heq | Hgt]]; [| exact Heq |].
      - pose proof (powerRZ_10_le (e' + 17) (e + 16) ltac:(lia)). lra.
      - pose proof (powerRZ_10_le (e + 17) (e' + 16) ltac:(lia)). lra. }
    subst e'. pose proof (powerRZ_lt 10 e ltac:(lra)) as Hp.
    rewrite <- Rmult_minus_distr_r, Rabs_mult, (Rabs_right (powerRZ 10 e)) in Hr by lra.
    assert (Hmk : Rabs (IZR m - IZR k) < 1) by nra.
    rewrite <- minus_IZR in Hmk. 
    assert (m - k = 0)%Z.
    { destruct (Z.eq_dec (m - k) 0) as [H0 | Hn]; [exact H0 | exfalso].
      rewrite <- abs_IZR in Hmk. apply lt_IZR in Hmk. lia. }
    replace m with k by lia. reflexivity.
Qed.

Lemma rounded_17_restored (x x' : R) : rounded_17 x x' -> restored x x'.
Proof.
  intros H. split; [now apply rounded_17_close | now apply rounded_17_exact].
Qed.

(** *** Writing, then reading *)

Ltac field_step_as H :=
  let Hs := fresh "Hs" in
  let Hl := fresh "Hl" in
  destruct H as [Hs Hl];
  [ reflexivity
  | repeat first [ apply Forall2_nil | apply Forall2_cons ]; assumption
  | specialize (Hl eq_refl);
    match type of Hl with
    | no_newline ?l = true =>
        eapply eq_trans;
        [ refine (read_fields_step _ _ l _ _ _ _ Hl _ _ _);
          [exact Hs | reflexivity | reflexivity]
        | clear Hs Hl ]
    end ].

(** C1, as amended.  When the numbers of the Parameter Set can be written
    (the integers are [int]s, and the stream prints each double with 17
    significant digits), [write] followed by [read] succeeds, and restores
    every field of the file but the orientation: the image size, the motion
    compensation and the scan direction as they were, and each double (the
    center, the pixel size, the focal length, the scan angle and rate, the
    tilt, the position, the speed, the radius and the elevation) within the
    tolerance of 17 significant digits, a relative error of at most
    [5e-17], and exactly when it has at most 17 significant digits.  The
    orientation read is the axis-angle vector that the quaternion class
    extracts from the rotation matrix read, whose entries are those of the
    pose matrix written, restored in the same sense; it need not be the
    vector of before.  The two correction flags are not in the file and
    keep the values of the Parameter Set read into. *)
Theorem round_trip (E : Collaborators) (filename : string) (P P0 : OpticalBarModel) :
  printable E P ->
  exists content P' M',
    write E true filename P = Ok content /\
    read E (Some content) filename P0 = Loaded P' /\
    m_image_size P' = m_image_size P /\
    restored2 (m_center_loc_pixels P) (m_center_loc_pixels P') /\
    restored (m_pixel_size P) (m_pixel_size P') /\
    restored (m_focal_length P) (m_focal_length P') /\
    restored (m_scan_angle_radians P) (m_scan_angle_radians P') /\
    restored (m_scan_rate_radians P) (m_scan_rate_radians P') /\
    restored (m_forward_tilt_radians P) (m_forward_tilt_radians P') /\
    restored3 (m_initial_position P) (m_initial_position P') /\
    restored (m_speed P) (m_speed P') /\
    restored (m_mean_earth_radius P) (m_mean_earth_radius P') /\
    restored (m_mean_surface_elevation P) (m_mean_surface_elevation P') /\
    m_use_motion_compensation P' = m_use_motion_compensation P /\
    m_scan_left_to_right P' = m_scan_left_to_right P /\
    m_initial_orientation P' = quat_axis_angle E (quat_of_matrix E M') /\
    restored_matrix (rotation_matrix (camera_pose P (vec2 0 0))) M' /\
    m_correct_velocity_aberration P' = m_correct_velocity_aberration P0 /\
    m_correct_atmospheric_refraction P' = m_correct_atmospheric_refraction P0.
Proof.
  intros [Hw Hh Hu Hd].
  unfold doubles_written in Hd. unfold write, write_lines. cbv zeta in *.
  change (negb true) with false. cbv iota.
  remember (rotation_matrix (camera_pose P (vec2 0 0))) as m eqn:Em in *. clear Em.
  destruct m as [[m00 m01 m02] [m10 m11 m12] [m20 m21 m22]].
  destruct P as [[w h] [cx cy] pitch f angle rate tilt [px py pz] o speed radius
                 elev umc ltr fv fa].
  cbn [m_image_size m_center_loc_pixels m_pixel_size m_focal_length
       m_scan_angle_radians m_scan_rate_radians m_forward_tilt_radians
       m_initial_position m_speed m_mean_earth_radius m_mean_surface_elevation
       m_use_motion_compensation m_scan_left_to_right
       v2i_x v2i_y v2x v2y v3x v3y v3z row0 row1 row2 unlines] in *.
  repeat match goal with
         | H : Forall _ (_ :: _) |- _ => inversion H; clear H; subst
         | H : Forall _ nil |- _ => clear H
         end.
  repeat match goal with
         | H : prints_17_digits E ?r |- _ =>
             let v := fresh "v" in
             let Hs := fresh "Hsb" in
             let Hr := fresh "Hrd" in
             destruct H as (v & Hs & Hr); apply rounded_17_restored in Hr
         end.
  match goal with
  | H0 : scans_back E cx ?vcx, H1 : scans_back E cy ?vcy,
    H2 : scans_back E pitch ?vpitch, H3 : scans_back E f ?vf,
    H4 : scans_back E angle ?vangle, H5 : scans_back E rate ?vrate,
    H6 : scans_back E tilt ?vtilt,
    H7 : scans_back E px ?vpx, H8 : scans_back E py ?vpy, H9 : scans_back E pz ?vpz,
    Ha : scans_back E m00 ?v00, Hb : scans_back E m01 ?v01, Hc : scans_back E m02 ?v02,
    Hd : scans_back E m10 ?v10, He : scans_back E m11 ?v11, Hf : scans_back E m12 ?v12,
    Hg : scans_back E m20 ?v20, Hh : scans_back E m21 ?v21, Hi : scans_back E m22 ?v22,
    Hj : scans_back E speed ?vspeed, Hk : scans_back E radius ?vradius,
    Hl : scans_back E elev ?velev |- _ =>
      eexists _,
        (mkModel (vec2i w h) (vec2 vcx vcy) vpitch vf vangle vrate vtilt
           (vec3 vpx vpy vpz)
           (quat_axis_angle E
              (quat_of_matrix E
                 (mat3 (vec3 v00 v01 v02) (vec3 v10 v11 v12) (vec3 v20 v21 v22))))
           vspeed vradius velev umc ltr (m_correct_velocity_aberration P0)
           (m_correct_atmospheric_refraction P0)),
        (mat3 (vec3 v00 v01 v02) (vec3 v10 v11 v12) (vec3 v20 v21 v22));
      split; [reflexivity |]; split;
      [ etransitivity; [exact (read_header E _ filename P0) |];
        field_step (sscanf_ints "image_size" [w; h]%list "image_size = %d %d");
        field_step_as (sscanf_doubles_as E "image_center" [cx; cy]%list [vcx; vcy]%list
                         "image_center = %lf %lf");
        field_step_as (sscanf_doubles_as E "pitch" [pitch]%list [vpitch]%list "pitch = %lf");
        field_step_as (sscanf_doubles_as E "f" [f]%list [vf]%list "f = %lf");
        field_step_as (sscanf_doubles_as E "scan_angle" [angle]%list [vangle]%list
                         "scan_angle = %lf");
        field_step_as (sscanf_doubles_as E "scan_rate" [rate]%list [vrate]%list
                         "scan_rate = %lf");
        field_step_as (sscanf_doubles_as E "forward_tilt" [tilt]%list [vtilt]%list
                         "forward_tilt = %lf");
        field_step_as (sscanf_doubles_as E "iC" [px; py; pz]%list [vpx; vpy; vpz]%list
                         "iC = %lf %lf %lf");
        field_step_as (sscanf_doubles_as E "iR"
                         [m00; m01; m02; m10; m11; m12; m20; m21; m22]%list
                         [v00; v01; v02; v10; v11; v12; v20; v21; v22]%list
                         "iR = %lf %lf %lf %lf %lf %lf %lf %lf %lf");
        field_step_as (sscanf_doubles_as E "speed" [speed]%list [vspeed]%list "speed = %lf");
        field_step_as (sscanf_doubles_as E "mean_earth_radius" [radius]%list [vradius]%list
                         "mean_earth_radius = %lf");
        field_step_as (sscanf_doubles_as E "mean_surface_elevation" [elev]%list
                         [velev]%list "mean_surface_elevation = %lf");
        field_step (sscanf_ints "use_motion_compensation" [umc]%list
                      "use_motion_compensation = %d");
        destruct ltr;
        [ etransitivity; [exact (read_scan_dir "scan_dir = right" _ _ eq_refl) | reflexivity]
        | etransitivity; [exact (read_scan_dir "scan_dir = left" _ _ eq_refl) | reflexivity] ]
      | ]
  end.
  cbn [m_image_size m_center_loc_pixels m_pixel_size m_focal_length
       m_scan_angle_radians m_scan_rate_radians m_forward_tilt_radians
       m_initial_position m_initial_orientation m_speed m_mean_earth_radius
       m_mean_surface_elevation m_use_motion_compensation m_scan_left_to_right
       m_correct_velocity_aberration m_correct_atmospheric_refraction].
  unfold restored_matrix, restored3, restored2. cbn [v2x v2y v3x v3y v3z row0 row1 row2].
  repeat split; first [reflexivity | apply H | assumption | idtac].
  all: match goal with
       | H : restored ?a ?b |- context [?b] => apply H
       end.
Qed.

Lemma round_trip_witness :
  exists content P' M',
    write precise_collaborators true "camera.tsai" example_oriented = Ok content /\
    read precise_collaborators (Some content) "camera.tsai" example_corrected = Loaded P' /\
    m_image_size P' = m_image_size example_oriented /\
    restored2 (m_center_loc_pixels example_oriented) (m_center_loc_pixels P') /\
    restored (m_pixel_size example_oriented) (m_pixel_size P') /\
    restored (m_focal_length example_oriented) (m_focal_length P') /\
    restored (m_scan_angle_radians example_oriented) (m_scan_angle_radians P') /\
    restored (m_scan_rate_radians example_oriented) (m_scan_rate_radians P') /\
    restored (m_forward_tilt_radians example_oriented) (m_forward_tilt_radians P') /\
    restored3 (m_initial_position example_oriented) (m_initial_position P') /\
    restored (m_speed example_oriented) (m_speed P') /\
    restored (m_mean_earth_radius example_oriented) (m_mean_earth_radius P') /\
    restored (m_mean_surface_elevation example_oriented) (m_mean_surface_elevation P') /\
    m_use_motion_compensation P' = m_use_motion_compensation example_oriented /\
    m_scan_left_to_right P' = m_scan_left_to_right example_oriented /\
    m_initial_orientation P'
    = quat_axis_angle precise_collaborators (quat_of_matrix precise_collaborators M') /\
    restored_matrix (rotation_matrix (camera_pose example_oriented (vec2 0 0))) M' /\
    m_correct_velocity_aberration P' = m_correct_velocity_aberration example_corrected /\
    m_correct_atmospheric_refraction P'
    = m_correct_atmospheric_refraction example_corrected.
Proof.
  apply (round_trip precise_collaborators "camera.tsai" example_oriented example_corrected).
  constructor; try (cbn; unfold is_int; lia).
  apply Forall_forall. intros r _. now apply show_17_digits_rounds.
Defined.

Lemma full_turn_matrix :
  rotation_matrix (axis_angle_to_quaternion (vec3 (2 * PI) 0 0))
  = rotation_matrix (axis_angle_to_quaternion (vec3 0 0 0)).
Proof.
  rewrite axis_angle_to_quaternion_zero. unfold axis_angle_to_quaternion.
  pose proof PI_RGT_0 as Hpi.
  rewrite norm_2_first_axis by lra.
  destruct (Req_dec_T (2 * PI) 0) as [H0 | _]; [lra |].
  replace (2 * PI / 2) with PI by field.
  rewrite sin_PI, cos_PI. unfold rotation_matrix; cbn.
  f_equal; f_equal; ring.
Qed.

Lemma example_turned_written (E : Collaborators) :
  write_lines E example_turned = write_lines E example_scenario.
Proof.
  unfold write_lines, camera_pose.
  change (m_initial_orientation example_turned) with (vec3 (2 * PI) 0 0).
  change (m_initial_orientation example_scenario) with (vec3 0 0 0).
  rewrite full_turn_matrix. reflexivity.
Qed.

Lemma example_turned_valid : valid example_turned.
Proof.
  constructor; cbn; unfold is_int; try lia; lra.
Qed.

(** C1, counterexample.  The example camera and the same camera turned by
    a full turn are valid and differ by [2 * PI] in their orientation
    vectors, yet [write] produces the same file for both.  So whatever the
    collaborators are and whatever Parameter Set is read into, the round
    trip does not restore the orientation of both, not even within the
    tolerance. *)
Lemma round_trip_loses_orientation :
  valid example_scenario /\ valid example_turned /\
  v3x (m_initial_orientation example_turned)
    - v3x (m_initial_orientation example_scenario) = 2 * PI /\
  ~ exists E P0, restores_orientation E P0 example_scenario
                 /\ restores_orientation E P0 example_turned.
Proof.
  split; [exact example_scenario_valid | split; [exact example_turned_valid |]].
  split; [cbn; ring |].
  intros (E & P0 & (c1 & P1 & Hw1 & Hr1 & Ho1 & _) & (c2 & P2 & Hw2 & Hr2 & Ho2 & _)).
  unfold write in Hw1, Hw2. cbn [negb] in Hw1, Hw2.
  rewrite example_turned_written in Hw2.
  assert (c1 = c2) by congruence. subst c2.
  assert (P1 = P2) by congruence. subst P2.
  unfold close in Ho1, Ho2.
  change (v3x (m_initial_orientation example_scenario)) with 0 in Ho1.
  change (v3x (m_initial_orientation example_turned)) with (2 * PI) in Ho2.
  rewrite Rabs_R0, Rmult_0_r, Rminus_0_r in Ho1.
  assert (Hx : v3x (m_initial_orientation P1) = 0).
  { pose proof (Rabs_pos (v3x (m_initial_orientation P1))).
    destruct (Req_dec_T (v3x (m_initial_orientation P1)) 0) as [H0 | Hn]; [exact H0 |].
    exfalso. apply (Rabs_no_R0 _ Hn). lra. }
  rewrite Hx in Ho2. pose proof PI_RGT_0 as Hpi.
  replace (0 - 2 * PI) with (- (2 * PI)) in Ho2 by ring.
  rewrite Rabs_Ropp, (Rabs_right (2 * PI)) in Ho2 by lra.
  assert (H17 : 0 < 10 ^ 17) by (apply pow_lt; lra).
  assert (H : 5 / 10 ^ 17 < 1).
  { apply Rmult_lt_reg_r with (10 ^ 17); [exact H17 |].
    unfold Rdiv. rewrite Rmult_assoc, Rinv_l by lra.
    assert (10 ^ 17 = 100000000000000000) by (cbn; ring). lra. }
  nra.
Qed.

(** ** The motion compensation factor *)

(** C10.  [read] stores the integer of the line
    [use_motion_compensation = n] as it is written, and the lens-shift term
    is multiplied by it: with [term] the quotient
    [focal_length * speed / (H * scan_rate_radians)] times [sin alpha],
    negated for a scan from right to left, the motion compensation is
    [term * n]; it is zero for [n = 0], [term] for [n = 1], and scaled by
    [n] otherwise.  Stated where the quotient is defined. *)
Theorem motion_compensation_factor (E : Collaborators) (filename : string)
    (P P0 : OpticalBarModel) (H alpha : R) :
  writable E P ->
  H * m_scan_rate_radians P <> 0 ->
  let term := m_focal_length P * m_speed P / (H * m_scan_rate_radians P) * sin alpha in
  let signed := if m_scan_left_to_right P then term else - term in
  exists content P',
    write E true filename P = Ok content /\
    read E (Some content) filename P0 = Loaded P' /\
    m_use_motion_compensation P' = m_use_motion_compensation P /\
    image_motion_compensation P' H alpha
      = Some (signed * IZR (m_use_motion_compensation P)) /\
    (m_use_motion_compensation P = 0%Z ->
       image_motion_compensation P' H alpha = Some 0) /\
    (m_use_motion_compensation P = 1%Z ->
       image_motion_compensation P' H alpha = Some signed).
Proof.
  intros Hw Hd term signed.
  exists (unlines (write_lines E P)), (reloaded E P P0).
  split; [reflexivity |]. split; [now apply read_write |].
  split; [reflexivity |].
  assert (Hv : image_motion_compensation (reloaded E P P0) H alpha
               = Some (signed * IZR (m_use_motion_compensation P))).
  { rewrite image_motion_compensation_value by exact Hd.
    unfold signed, term, reloaded; cbn.
    destruct (m_scan_left_to_right P); f_equal; ring. }
  split; [exact Hv | split; intros Hn; rewrite Hv, Hn; f_equal; ring].
Qed.

Lemma motion_compensation_factor_witness :
  let P := example_integral in
  let term := m_focal_length P * m_speed P / (629000 * m_scan_rate_radians P) * sin 1 in
  let signed := if m_scan_left_to_right P then term else - term in
  exists content P',
    write sample_collaborators true "camera.tsai" P = Ok content /\
    read sample_collaborators (Some content) "camera.tsai" example_scenario = Loaded P' /\
    m_use_motion_compensation P' = m_use_motion_compensation P /\
    image_motion_compensation P' 629000 1
      = Some (signed * IZR (m_use_motion_compensation P)) /\
    (m_use_motion_compensation P = 0%Z ->
       image_motion_compensation P' 629000 1 = Some 0) /\
    (m_use_motion_compensation P = 1%Z ->
       image_motion_compensation P' 629000 1 = Some signed).
Proof.
  apply (motion_compensation_factor sample_collaborators "camera.tsai"
           example_integral example_scenario 629000 1).
  - exact example_integral_writable.
  - cbn. lra.
Defined.

(** * Further properties *)

(** ** More on the scan geometry *)

Lemma norm_2_sqrt_sqr (a : R) : sqrt (a * a) = Rabs a.
Proof. rewrite <- sqrt_Rsqr_abs. reflexivity. Qed.

(** X1.  The velocity has the magnitude of the speed at every pixel,
    whatever the orientation and the forward tilt. *)
Theorem get_velocity_norm (P : OpticalBarModel) (pixel : Vector2) :
  norm_2 (get_velocity P pixel) = Rabs (m_speed P).
Proof.
  unfold norm_2. rewrite get_velocity_dot. apply norm_2_sqrt_sqr.
Qed.

Lemma rotate_dot2 (q : Quat) (u v : Vector3) :
  dot (rotate q u) (rotate q v) = quat_norm2 q * quat_norm2 q * dot u v.
Proof.
  destruct q, u, v. unfold rotate, mat_vec, rotation_matrix, dot, quat_norm2; cbn. ring.
Qed.

(** X2.  The pose is a rotation at every pixel and for every orientation
    vector, the zero vector included: it is a quaternion of norm one, and
    rotating by it keeps the scalar product of any two vectors, hence
    lengths and angles. *)
Theorem camera_pose_rotation (P : OpticalBarModel) (pix : Vector2) (u v : Vector3) :
  quat_norm2 (camera_pose P pix) = 1 /\
  dot (rotate (camera_pose P pix) u) (rotate (camera_pose P pix) v) = dot u v /\
  norm_2 (rotate (camera_pose P pix) u) = norm_2 u.
Proof.
  assert (Hq : quat_norm2 (camera_pose P pix) = 1)
    by apply axis_angle_to_quaternion_unit.
  split; [exact Hq | split].
  - rewrite rotate_dot2, Hq. ring.
  - now apply rotate_norm.
Qed.

(** X3.  Inside the image the time offset lies between zero and the time of
    one scan. *)
Theorem pixel_to_time_delta_range (P : OpticalBarModel) (pix : Vector2) :
  valid P ->
  0 <= scan_time P ->
  0 <= v2x pix <= IZR (max_col P) ->
  exists dt, pixel_to_time_delta P pix = Some dt /\ 0 <= dt <= scan_time P.
Proof.
  intros Hv Ht [Hlo Hhi].
  pose proof (valid_max_col P Hv) as Hm.
  assert (Hpos : 0 < IZR (max_col P)).
  { destruct Hv as [Hc Hi _ _ _ _]. now destruct (max_col_valid P Hi Hc). }
  rewrite pixel_to_time_delta_value by (try apply Hv; assumption).
  eexists; split; [reflexivity |].
  assert (Hf : 0 <= v2x pix / IZR (max_col P) <= 1).
  { split.
    - apply Rmult_le_pos; [lra | left; now apply Rinv_0_lt_compat].
    - apply Rmult_le_reg_r with (IZR (max_col P)); [lra |].
      unfold Rdiv. rewrite Rmult_assoc, Rinv_l by lra. lra. }
  assert (Hg : (IZR (max_col P) - v2x pix) / IZR (max_col P)
               = 1 - v2x pix / IZR (max_col P)) by (field; lra).
  destruct (m_scan_left_to_right P); [| rewrite Hg]; nra.
Qed.

Lemma pixel_to_time_delta_range_witness :
  exists dt, pixel_to_time_delta example_scenario (vec2 500 250) = Some dt
             /\ 0 <= dt <= scan_time example_scenario.
Proof.
  apply (pixel_to_time_delta_range example_scenario (vec2 500 250)).
  - constructor; cbn; unfold is_int; try lia; lra.
  - unfold scan_time; cbn. lra.
  - change (max_col example_scenario) with 999%Z. cbn. lra.
Defined.

(** X4.  The two scan directions mirror each other: the time offset of a
    column in a scan from right to left is the time offset of the mirrored
    column [max_col - column] in a scan from left to right, and the two
    offsets of one column add up to the time of one scan. *)
Theorem pixel_to_time_delta_mirror (P : OpticalBarModel) (c r : R) :
  valid P ->
  exists t_ltr t_rtl,
    pixel_to_time_delta (set_scan_left_to_right true P) (vec2 c r) = Some t_ltr /\
    pixel_to_time_delta (set_scan_left_to_right false P) (vec2 c r) = Some t_rtl /\
    pixel_to_time_delta (set_scan_left_to_right true P)
      (vec2 (IZR (max_col P) - c) r) = Some t_rtl /\
    t_ltr + t_rtl = scan_time P.
Proof.
  intros Hv. pose proof (valid_max_col P Hv) as Hm.
  assert (Hr : m_scan_rate_radians P <> 0) by apply Hv.
  do 2 eexists.
  rewrite !pixel_to_time_delta_value by assumption.
  cbn [set_scan_left_to_right m_scan_left_to_right v2x].
  change (max_col (set_scan_left_to_right true P)) with (max_col P).
  change (max_col (set_scan_left_to_right false P)) with (max_col P).
  change (scan_time (set_scan_left_to_right true P)) with (scan_time P).
  change (scan_time (set_scan_left_to_right false P)) with (scan_time P).
  repeat split. field. exact Hm.
Qed.

Lemma pixel_to_time_delta_mirror_witness :
  exists t_ltr t_rtl,
    pixel_to_time_delta (set_scan_left_to_right true example_scenario) (vec2 100 0)
      = Some t_ltr /\
    pixel_to_time_delta (set_scan_left_to_right false example_scenario) (vec2 100 0)
      = Some t_rtl /\
    pixel_to_time_delta (set_scan_left_to_right true example_scenario)
      (vec2 (IZR (max_col example_scenario) - 100) 0) = Some t_rtl /\
    t_ltr + t_rtl = scan_time example_scenario.
Proof.
  apply (pixel_to_time_delta_mirror example_scenario 100 0).
  constructor; cbn; unfold is_int; try lia; lra.
Defined.

(** X5.  Degenerate configurations are not rejected; they make the
    geometry leave the finite numbers.  An image of one column has
    [max_col = 0], and a scan rate of zero has no scan time: in both cases
    the time offset and the camera center of every pixel are not finite.
    With a scan rate or a focal length of zero the uncorrected ray of every
    pixel is not finite. *)
Theorem degenerate_configurations (P : OpticalBarModel) (pix : Vector2) :
  (v2i_x (m_image_size P) = 1%Z \/ m_scan_rate_radians P = 0 ->
     pixel_to_time_delta P pix = None /\ camera_center P pix = None) /\
  (m_scan_rate_radians P = 0 \/ m_focal_length P = 0 ->
     pixel_to_vector_uncorrected P pix = None).
Proof.
  split.
  - intros H.
    assert (Ht : pixel_to_time_delta P pix = None).
    { unfold pixel_to_time_delta. destruct H as [H1 | H0].
      - unfold max_col. rewrite H1. change (wrap32 (1 - 1)) with 0%Z.
        destruct (m_scan_angle_radians P /? m_scan_rate_radians P); cbn [fbind];
          [| reflexivity].
        destruct (m_scan_left_to_right P); now rewrite fdiv_zero.
      - now rewrite H0, fdiv_zero. }
    split; [exact Ht |]. unfold camera_center. now rewrite Ht.
  - intros [H0 | Hf]; unfold pixel_to_vector_uncorrected.
    + unfold camera_center, pixel_to_time_delta. now rewrite H0, fdiv_zero.
    + destruct (camera_center P pix); cbn [fbind]; [| reflexivity].
      now rewrite Hf, fdiv_zero.
Qed.

Lemma vsub_vadd_vscale (p v : Vector3) (a b : R) :
  vsub (vadd p (vscale a v)) (vadd p (vscale b v)) = vscale (a - b) v.
Proof.
  destruct p, v. unfold vsub, vadd, vscale; cbn. f_equal; ring.
Qed.

Lemma norm_2_vscale (k : R) (v : Vector3) : norm_2 (vscale k v) = Rabs k * norm_2 v.
Proof.
  unfold norm_2. destruct v as [x y z]. unfold vscale, dot; cbn.
  replace (k * x * (k * x) + k * y * (k * y) + k * z * (k * z))
    with ((k * k) * (x * x + y * y + z * z)) by ring.
  rewrite sqrt_mult_alt by nra. now rewrite norm_2_sqrt_sqr.
Qed.

(** X6.  The camera moves on a straight line at constant speed: between the
    exposures of two pixels it travels along the velocity, over a distance
    that is the speed times the share of the scan between their columns;
    the rows play no part. *)
Theorem camera_center_travel (P : OpticalBarModel) (c1 c2 r1 r2 : R) :
  valid P ->
  exists p1 p2,
    camera_center P (vec2 c1 r1) = Some p1 /\
    camera_center P (vec2 c2 r2) = Some p2 /\
    vsub p2 p1
      = vscale ((if m_scan_left_to_right P then 1 else -1)
                * ((c2 - c1) / IZR (max_col P)) * scan_time P)
               (get_velocity P default_pixel) /\
    norm_2 (vsub p2 p1)
      = Rabs ((c2 - c1) / IZR (max_col P) * scan_time P) * Rabs (m_speed P).
Proof.
  intros Hv. pose proof (valid_max_col P Hv) as Hm.
  do 2 eexists. rewrite !camera_center_value by (try apply Hv; assumption).
  split; [reflexivity | split; [reflexivity |]].
  cbn [v2x]. change (get_velocity P (vec2 c1 r1)) with (get_velocity P default_pixel).
  change (get_velocity P (vec2 c2 r2)) with (get_velocity P default_pixel).
  rewrite vsub_vadd_vscale.
  assert (Hk : (if m_scan_left_to_right P
                then c2 / IZR (max_col P)
                else (IZR (max_col P) - c2) / IZR (max_col P)) * scan_time P
               - (if m_scan_left_to_right P
                  then c1 / IZR (max_col P)
                  else (IZR (max_col P) - c1) / IZR (max_col P)) * scan_time P
               = (if m_scan_left_to_right P then 1 else -1)
                 * ((c2 - c1) / IZR (max_col P)) * scan_time P).
  { destruct (m_scan_left_to_right P); field; exact Hm. }
  rewrite Hk. split; [reflexivity |].
  rewrite norm_2_vscale.
  replace (norm_2 (get_velocity P default_pixel)) with (Rabs (m_speed P))
    by (unfold norm_2; now rewrite get_velocity_dot, norm_2_sqrt_sqr).
  f_equal.
  destruct (m_scan_left_to_right P).
  - f_equal. ring.
  - rewrite <- (Rabs_Ropp ((c2 - c1) / IZR (max_col P) * scan_time P)). f_equal. ring.
Qed.

Lemma camera_center_travel_witness :
  exists p1 p2,
    camera_center example_scenario (vec2 0 0) = Some p1 /\
    camera_center example_scenario (vec2 999 499) = Some p2 /\
    vsub p2 p1
      = vscale ((if m_scan_left_to_right example_scenario then 1 else -1)
                * ((999 - 0) / IZR (max_col example_scenario))
                * scan_time example_scenario)
               (get_velocity example_scenario default_pixel) /\
    norm_2 (vsub p2 p1)
      = Rabs ((999 - 0) / IZR (max_col example_scenario) * scan_time example_scenario)
        * Rabs (m_speed example_scenario).
Proof.
  apply (camera_center_travel example_scenario 0 999 0 499).
  constructor; cbn; unfold is_int; try lia; lra.
Defined.

(** X7.  The optical axis.  The pixel at the image center looks along the
    third axis of the camera: for a valid Parameter Set whose camera height
    at that pixel is not zero, its uncorrected ray is the pose applied to
    (0, 0, 1), whatever the motion compensation and the scan direction. *)
Theorem center_pixel_ray (P : OpticalBarModel) (H : R) :
  valid P ->
  camera_height P (m_center_loc_pixels P) = Some H ->
  H <> 0 ->
  pixel_to_vector_uncorrected P (m_center_loc_pixels P)
  = Some (rotate (camera_pose P (m_center_loc_pixels P)) (vec3 0 0 1)).
Proof.
  intros Hv HH Hnz. unfold camera_height in HH. unfold pixel_to_vector_uncorrected.
  destruct (camera_center P (m_center_loc_pixels P)) as [c |]; [| discriminate].
  cbn [fbind] in *. injection HH as HH.
  pose proof (valid_focal_length P Hv) as Hfpos.
  assert (Hf : m_focal_length P <> 0) by lra.
  rewrite (fdiv_some _ _ Hf). cbn [fbind]. rewrite HH.
  assert (Hd : H * m_scan_rate_radians P <> 0).
  { apply Rmult_integral_contrapositive_currified; [exact Hnz | apply Hv]. }
  rewrite (image_motion_compensation_value P H _ Hd).
  cbn [fbind pixel_to_sensor_plane v2x v2y].
  replace ((v2x (m_center_loc_pixels P) - v2x (m_center_loc_pixels P))
           * m_pixel_size P / m_focal_length P) with 0 by (field; exact Hf).
  rewrite sin_0, cos_0.
  replace (vec3 (m_focal_length P * 0)
             ((v2y (m_center_loc_pixels P) - v2y (m_center_loc_pixels P))
              * m_pixel_size P
              + (if m_scan_left_to_right P then 1 else -1)
                * (m_focal_length P * m_speed P / (H * m_scan_rate_radians P) * 0)
                * IZR (m_use_motion_compensation P))
             (m_focal_length P * 1))
    with (vec3 0 0 (m_focal_length P)) by (f_equal; ring).
  assert (Hn : norm_2 (vec3 0 0 (m_focal_length P)) = m_focal_length P).
  { unfold norm_2, dot; cbn.
    replace (0 * 0 + 0 * 0 + m_focal_length P * m_focal_length P)
      with (m_focal_length P * m_focal_length P) by ring.
    apply sqrt_square. lra. }
  unfold normalize. rewrite Hn, !(fdiv_some _ _ Hf). cbn [fbind v3x v3y v3z].
  do 3 f_equal; field; exact Hf.
Qed.

Lemma example_left_center_height :
  camera_height example_left_center (m_center_loc_pixels example_left_center)
  = Some 629000.
Proof.
  unfold camera_height.
  rewrite camera_center_first_column;
    [| constructor; cbn; unfold is_int; try lia; lra | reflexivity | reflexivity].
  cbn [fbind]. change (m_initial_position example_left_center) with (vec3 7000000 0 0).
  rewrite norm_2_first_axis by lra. cbn. f_equal. lra.
Qed.

Lemma center_pixel_ray_witness :
  pixel_to_vector_uncorrected example_left_center
    (m_center_loc_pixels example_left_center)
  = Some (rotate (camera_pose example_left_center
                    (m_center_loc_pixels example_left_center)) (vec3 0 0 1)).
Proof.
  apply (center_pixel_ray example_left_center 629000).
  - constructor; cbn; unfold is_int; try lia; lra.
  - exact example_left_center_height.
  - lra.
Defined.

(** ** More on the corrections *)

(** X8.  [pixel_to_vector] calls the two corrections and no other
    collaborator, and whatever a correction throws it throws a pixel-to-ray
    error with the same message, and nothing else: every call recorded is a
    call of the refraction or of the aberration correction, an error of
    [pixel_to_vector] is always a pixel-to-ray error, and its message is
    the message of an error that one of the two corrections raised on the
    arguments recorded in the calls. *)
Theorem pixel_to_vector_errors (E : Collaborators) (P : OpticalBarModel)
    (pixel : Vector2) :
  Forall (fun c => is_refraction_call c = true \/ is_aberration_call c = true)
    (fst (pixel_to_vector E P pixel)) /\
  (List.length (fst (pixel_to_vector E P pixel)) <= 2)%nat /\
  forall e,
    snd (pixel_to_vector E P pixel) = Raise e ->
    kind e = PixelToRayErr /\
    exists c e0,
      In c (fst (pixel_to_vector E P pixel)) /\
      what e = what e0 /\
      match c with
      | CallAtmosphericRefraction cam_ctr radius elevation v =>
          apply_atmospheric_refraction_correction E cam_ctr radius elevation v = Raise e0
      | CallVelocityAberration cam_ctr velocity radius v =>
          apply_velocity_aberration_correction E cam_ctr velocity radius v = Raise e0
      | CallLevenbergMarquardt _ => False
      end.
Proof.
  assert (Hcalls : forall cs,
            (forall c, In c cs -> is_refraction_call c = true \/ is_aberration_call c = true)
            -> Forall (fun c => is_refraction_call c = true \/ is_aberration_call c = true)
                 cs).
  { intros cs H. now apply Forall_forall. }
  unfold pixel_to_vector.
  destruct (m_correct_atmospheric_refraction P), (m_correct_velocity_aberration P);
    cbn [negb].
  - cbn [fst snd app List.length].
    split; [apply Hcalls; intros c [<- | []]; now right |]. split; [lia |].
    destruct (apply_velocity_aberration_correction E _ _ _ _) as [v | e0] eqn:Hv;
      cbn [repackage]; intros e He; [discriminate |].
    injection He as <-. split; [reflexivity |].
    eexists _, e0. split; [now left |]. split; [reflexivity | exact Hv].
  - cbn [fst snd List.length]. split; [constructor |]. split; [lia | discriminate].
  - destruct (apply_atmospheric_refraction_correction E _ _ _ _) as [v | e0] eqn:Ha.
    + cbn [fst snd app List.length].
      split; [apply Hcalls; intros c [<- | [<- | []]]; [now left | now right] |].
      split; [lia |].
      destruct (apply_velocity_aberration_correction E _ _ _ _) as [v' | e1] eqn:Hv;
        cbn [repackage]; intros e He; [discriminate |].
      injection He as <-. split; [reflexivity |].
      eexists _, e1. split; [right; now left |]. split; [reflexivity | exact Hv].
    + cbn [fst snd repackage List.length].
      split; [apply Hcalls; intros c [<- | []]; now left |]. split; [lia |].
      intros e He. injection He as <-.
      split; [reflexivity |].
      eexists _, e0. split; [now left |]. split; [reflexivity | exact Ha].
  - destruct (apply_atmospheric_refraction_correction E _ _ _ _) as [v | e0] eqn:Ha;
      cbn [fst snd repackage List.length];
      (split; [apply Hcalls; intros c [<- | []]; now left |]); (split; [lia |]);
      intros e He; [discriminate |].
    injection He as <-. split; [reflexivity |].
    eexists _, e0. split; [now left |]. split; [reflexivity | exact Ha].
Qed.

Lemma pixel_to_vector_errors_witness :
  Forall (fun c => is_refraction_call c = true \/ is_aberration_call c = true)
    (fst (pixel_to_vector failing_refraction example_corrected (vec2 500 250))) /\
  kind (mkExn PixelToRayErr "refraction") = PixelToRayErr /\
  exists c e0,
    In c (fst (pixel_to_vector failing_refraction example_corrected (vec2 500 250))) /\
    what (mkExn PixelToRayErr "refraction") = what e0 /\
    match c with
    | CallAtmosphericRefraction cam_ctr radius elevation v =>
        apply_atmospheric_refraction_correction failing_refraction cam_ctr radius
          elevation v = Raise e0
    | CallVelocityAberration cam_ctr velocity radius v =>
        apply_velocity_aberration_correction failing_refraction cam_ctr velocity
          radius v = Raise e0
    | CallLevenbergMarquardt _ => False
    end.
Proof.
  destruct (pixel_to_vector_errors failing_refraction example_corrected (vec2 500 250))
    as (Hc & _ & He).
  split; [exact Hc |]. exact (He _ eq_refl).
Defined.

(** X9.  The sensor-plane position is the offset from the optical center in
    units of the pixel size: the center pixel maps to the origin, a step of
    one pixel is a step of one pixel size along the same axis, and when the
    pixel size is not zero different pixels have different positions. *)
Theorem pixel_to_sensor_plane_affine (P : OpticalBarModel) (p q : Vector2) :
  pixel_to_sensor_plane P (m_center_loc_pixels P) = vec2 0 0 /\
  v2x (pixel_to_sensor_plane P p) - v2x (pixel_to_sensor_plane P q)
    = (v2x p - v2x q) * m_pixel_size P /\
  v2y (pixel_to_sensor_plane P p) - v2y (pixel_to_sensor_plane P q)
    = (v2y p - v2y q) * m_pixel_size P /\
  (m_pixel_size P <> 0 ->
   pixel_to_sensor_plane P p = pixel_to_sensor_plane P q -> p = q).
Proof.
  unfold pixel_to_sensor_plane. repeat split; cbn [v2x v2y]; try ring.
  - f_equal; ring.
  - intros Hs Heq. injection Heq as Hx Hy. destruct p as [px py], q as [qx qy].
    cbn [v2x v2y] in *.
    apply Rmult_eq_reg_r in Hx; [| exact Hs]. apply Rmult_eq_reg_r in Hy; [| exact Hs].
    f_equal; lra.
Qed.

(** ** More on the rigid transform *)

Lemma apply_transform_position_left_to_right_witness :
  exists P1 P2 P12,
    apply_transform sample_collaborators identity_matrix (vec3 1 2 3) 2 example_scenario
      = Some P1 /\
    apply_transform sample_collaborators (rotation_x_axis 1) (vec3 4 5 6) 3 P1 = Some P2 /\
    apply_transform sample_collaborators (mat_mul (rotation_x_axis 1) identity_matrix)
      (vadd (vscale 3 (mat_vec (rotation_x_axis 1) (vec3 1 2 3))) (vec3 4 5 6)) (2 * 3)
      example_scenario = Some P12 /\
    m_initial_position P2 = m_initial_position P12.
Proof.
  apply (apply_transform_position_left_to_right sample_collaborators
           identity_matrix (rotation_x_axis 1) (vec3 1 2 3) (vec3 4 5 6) 2 3
           example_scenario).
  - constructor; cbn; unfold is_int; try lia; lra.
  - reflexivity.
Defined.

(** The matrix of a product of quaternions is the product of their
    matrices. *)
Lemma rotation_matrix_qmul (a b : Quat) :
  rotation_matrix (qmul a b) = mat_mul (rotation_matrix a) (rotation_matrix b).
Proof.
  destruct a, b. unfold rotation_matrix, qmul, mat_mul, dot, col0, col1, col2; cbn.
  f_equal; f_equal; ring.
Qed.

(** X11.  The transform turns the pose by the rotation.  Where the
    quaternion class converts faithfully (the quaternion it makes of the
    rotation matrix has that matrix, and the axis-angle vector it extracts
    from the new pose is a vector of that pose), the pose matrix at every
    pixel after the transform is the rotation matrix times the pose matrix
    of before; the translation and the scale play no part in it. *)
Theorem apply_transform_pose (E : Collaborators) (rotation : Matrix3x3)
    (translation : Vector3) (scale : R) (P : OpticalBarModel) :
  valid P ->
  rotation_matrix (quat_of_matrix E rotation) = rotation ->
  rotation_matrix
    (axis_angle_to_quaternion
       (quat_axis_angle E (qmul (quat_of_matrix E rotation) (camera_pose P default_pixel))))
  = rotation_matrix (qmul (quat_of_matrix E rotation) (camera_pose P default_pixel)) ->
  exists P',
    apply_transform E rotation translation scale P = Some P' /\
    forall pix pix',
      rotation_matrix (camera_pose P' pix)
      = mat_mul rotation (rotation_matrix (camera_pose P pix')).
Proof.
  intros Hv Hq Haa. unfold apply_transform.
  rewrite (camera_center_at_default_pixel P Hv). cbn [fbind].
  eexists; split; [reflexivity |].
  intros pix pix'.
  change (rotation_matrix (camera_pose P pix'))
    with (rotation_matrix (camera_pose P default_pixel)).
  transitivity (rotation_matrix
                  (qmul (quat_of_matrix E rotation) (camera_pose P default_pixel)));
    [exact Haa | now rewrite rotation_matrix_qmul, Hq].
Qed.

(** The conversions of the second sample of collaborators. *)

Lemma quat_norm2_qmul (a b : Quat) :
  quat_norm2 (qmul a b) = quat_norm2 a * quat_norm2 b.
Proof. destruct a, b. unfold quat_norm2, qmul; cbn. ring. Qed.

(** The quaternion of the matrix of a unit quaternion with a positive real
    part is that quaternion. *)
Lemma quaternion_of_rotation (q : Quat) :
  quat_norm2 q = 1 -> 0 < qw q -> quaternion_of (rotation_matrix q) = q.
Proof.
  destruct q as [w x y z]. unfold quat_norm2, quaternion_of, rotation_matrix.
  cbn [qw qx qy qz row0 row1 row2 v3x v3y v3z]. intros Hn Hw.
  replace (1 + (w * w + x * x - y * y - z * z) + (w * w - x * x + y * y - z * z)
           + (w * w - x * x - y * y + z * z))
    with ((2 * w) * (2 * w)) by nra.
  rewrite sqrt_square by lra. f_equal; field; lra.
Qed.

(** The axis-angle vector of a unit quaternion is a vector of its
    rotation. *)
Lemma axis_angle_of_rotation (q : Quat) :
  quat_norm2 q = 1 ->
  rotation_matrix (axis_angle_to_quaternion (axis_angle_of q)) = rotation_matrix q.
Proof.
  destruct q as [w x y z]. unfold quat_norm2, axis_angle_of.
  cbn [qw qx qy qz]. intros Hn.
  set (v := vec3 x y z). set (n := norm_2 v).
  assert (Hn2 : n * n = x * x + y * y + z * z) by apply (norm_2_sqr v).
  assert (Hn0 : 0 <= n) by apply sqrt_pos.
  destruct (Req_dec_T n 0) as [Hz | Hnz].
  - rewrite axis_angle_to_quaternion_zero.
    assert (x = 0 /\ y = 0 /\ z = 0) as (-> & -> & ->) by (rewrite Hz in Hn2; nra).
    unfold rotation_matrix; cbn [qw qx qy qz]. f_equal; f_equal; nra.
  - assert (Hpos : 0 < n) by lra.
    assert (Hw : -1 <= w <= 1) by nra.
    pose proof (acos_bound w) as [Ha0 Hapi].
    assert (Hsin : sin (acos w) = n).
    { rewrite sin_acos by exact Hw. unfold Rsqr.
      replace (1 - w * w) with (n * n) by nra. now apply sqrt_square. }
    assert (Hacos : acos w <> 0).
    { intros H0. rewrite H0, sin_0 in Hsin. lra. }
    assert (Hangle : norm_2 (vscale (2 * acos w / n) v) = 2 * acos w).
    { rewrite norm_2_vscale. fold n. rewrite Rabs_right.
      - field. exact Hnz.
      - apply Rle_ge. apply Rmult_le_pos; [lra | left; now apply Rinv_0_lt_compat]. }
    f_equal. unfold axis_angle_to_quaternion. rewrite Hangle.
    destruct (Req_dec_T (2 * acos w) 0) as [H0 | _]; [lra |].
    replace (2 * acos w / 2) with (acos w) by field.
    rewrite Hsin, cos_acos by exact Hw.
    unfold v, vscale; cbn [v3x v3y v3z]. f_equal; field; split; assumption.
Qed.

Lemma example_turn_converted :
  quat_of_matrix precise_collaborators example_turn = quat (4 / 5) (3 / 5) 0 0.
Proof.
  unfold example_turn. change (quat_of_matrix precise_collaborators) with quaternion_of.
  apply quaternion_of_rotation; [unfold quat_norm2 |]; cbn [qw qx qy qz]; lra.
Qed.

Lemma example_oriented_valid : valid example_oriented.
Proof. constructor; cbn; unfold is_int; try lia; lra. Qed.

Lemma precise_collaborators_convert (P : OpticalBarModel) :
  rotation_matrix (quat_of_matrix precise_collaborators example_turn) = example_turn /\
  rotation_matrix
    (axis_angle_to_quaternion
       (quat_axis_angle precise_collaborators
          (qmul (quat_of_matrix precise_collaborators example_turn)
             (camera_pose P default_pixel))))
  = rotation_matrix
      (qmul (quat_of_matrix precise_collaborators example_turn)
         (camera_pose P default_pixel)).
Proof.
  rewrite example_turn_converted. split; [reflexivity |].
  change (quat_axis_angle precise_collaborators) with axis_angle_of.
  apply axis_angle_of_rotation. rewrite quat_norm2_qmul.
  unfold camera_pose. rewrite axis_angle_to_quaternion_unit.
  unfold quat_norm2; cbn [qw qx qy qz]. lra.
Qed.

Lemma apply_transform_pose_witness :
  exists P',
    apply_transform precise_collaborators example_turn (vec3 1 2 3) 2 example_oriented
      = Some P' /\
    forall pix pix',
      rotation_matrix (camera_pose P' pix)
      = mat_mul example_turn (rotation_matrix (camera_pose example_oriented pix')).
Proof.
  apply (apply_transform_pose precise_collaborators example_turn (vec3 1 2 3) 2
           example_oriented).
  - exact example_oriented_valid.
  - exact (proj1 (precise_collaborators_convert example_oriented)).
  - exact (proj2 (precise_collaborators_convert example_oriented)).
Defined.

(** ** More on [read] *)

Lemma getline_first (content old : string) :
  snd (getline (mkStream content true) old) = fst (split_line content).
Proof.
  unfold getline; cbn [good unread].
  destruct (split_line content) as [l [r |]]; reflexivity.
Qed.

Lemma read_old_version (E : Collaborators) (content filename : string)
    (P0 : OpticalBarModel) :
  find (fst (split_line content)) "VERSION" = true ->
  (version_of (fst (split_line content)) < 4)%Z ->
  read E (Some content) filename P0
  = Failed (mkExn ArgumentErr
              (read_file_msg "Versions prior to 4 are not supported!")) P0.
Proof.
  intros Hf Hv. unfold read.
  pose proof (getline_first content "") as Hg.
  destruct (getline (mkStream content true) "") as [st line]. cbn [snd] in Hg.
  subst line. rewrite Hf. cbn [negb]. fold (version_of (fst (split_line content))).
  apply Z.ltb_lt in Hv. now rewrite Hv.
Qed.

(** X12.  The header of the file.  A file that cannot be opened, a first
    line without [VERSION], a version below 4 (which is also what a first
    line counts as when it does not start with [VERSION_] and a number), and
    a second line without [OPTICAL_BAR] each end [read] with an error of
    their own, and leave the Parameter Set as it was. *)
Theorem read_header_errors (E : Collaborators) (filename : string) (P0 : OpticalBarModel) :
  read E None filename P0
    = Failed (mkExn IOErr ("OpticalBarModel::read_file: Could not open file: "
                           ++ filename)) P0
  /\
  (forall content,
     find (fst (split_line content)) "VERSION" = false ->
     read E (Some content) filename P0
     = Failed (mkExn IOErr (read_file_msg "Version missing!")) P0)
  /\
  (forall content,
     find (fst (split_line content)) "VERSION" = true ->
     (version_of (fst (split_line content)) < 4)%Z ->
     read E (Some content) filename P0
     = Failed (mkExn ArgumentErr
                 (read_file_msg "Versions prior to 4 are not supported!")) P0)
  /\
  (forall h0 h1 rest,
     no_newline h0 = true -> no_newline h1 = true ->
     find h0 "VERSION" = true -> (4 <= version_of h0)%Z ->
     find h1 "OPTICAL_BAR" = false ->
     read E (Some (h0 ++ nl ++ h1 ++ nl ++ rest)) filename P0
     = Failed (mkExn ArgumentErr
                 ("OpticalBarModel::read_file: Expected OPTICAL_BAR type, but got type "
                  ++ h1)) P0).
Proof.
  split; [reflexivity |]. split; [| split].
  - intros content Hf. unfold read.
    pose proof (getline_first content "") as Hg.
    destruct (getline (mkStream content true) "") as [st line]. cbn [snd] in Hg.
    subst line. now rewrite Hf.
  - intros content. apply read_old_version.
  - intros h0 h1 rest Hn0 Hn1 Hf Hv Hb. unfold read.
    rewrite getline_line by assumption. rewrite Hf. cbn [negb].
    fold (version_of h0).
    destruct (Z.ltb_spec (version_of h0) 4) as [Hlt | _]; [lia |].
    rewrite getline_line by assumption. now rewrite Hb.
Qed.

Lemma version_of_show_int (n : Z) :
  is_int n -> version_of ("VERSION_" ++ show_int n) = n.
Proof.
  intros Hn. unfold version_of, sscanf.
  change (parse_format "VERSION_%d") with (chars "VERSION_" ++ [DInt])%list.
  rewrite <- (append_empty (show_int n)) at 1.
  rewrite scan_chars. cbn [scan].
  rewrite skip_space_show_int, scan_int_show_int by now left.
  now rewrite wrap32_int.
Qed.

(** X13.  The version gate.  A file that opens with [VERSION_n] for a
    number [n] below 4 is rejected with an argument error, whatever follows,
    and the Parameter Set is left as it was. *)
Theorem read_version_gate (E : Collaborators) (filename rest : string)
    (P0 : OpticalBarModel) (n : Z) :
  is_int n -> (n < 4)%Z ->
  read E (Some ("VERSION_" ++ show_int n ++ nl ++ rest)) filename P0
  = Failed (mkExn ArgumentErr
              (read_file_msg "Versions prior to 4 are not supported!")) P0.
Proof.
  intros Hn Hlt.
  assert (Hl : fst (split_line ("VERSION_" ++ show_int n ++ nl ++ rest))
               = "VERSION_" ++ show_int n).
  { rewrite <- append_assoc. rewrite split_line_app; [reflexivity |].
    rewrite no_newline_app, no_newline_show_int. reflexivity. }
  apply read_old_version; rewrite Hl.
  - reflexivity.
  - now rewrite version_of_show_int.
Qed.

Lemma read_version_gate_witness :
  read sample_collaborators (Some ("VERSION_" ++ show_int 3 ++ nl ++ "OPTICAL_BAR" ++ nl))
    "camera.tsai" example_scenario
  = Failed (mkExn ArgumentErr
              (read_file_msg "Versions prior to 4 are not supported!")) example_scenario.
Proof.
  apply (read_version_gate sample_collaborators "camera.tsai" ("OPTICAL_BAR" ++ nl)
           example_scenario 3); unfold is_int; lia.
Defined.

(** ** What [read] leaves of the Parameter Set *)

Lemma store_corrections (E : Collaborators) (f : field) (vs : list value)
    (P : OpticalBarModel) :
  In f (fields E) -> corrections (store f vs P) = corrections P.
Proof.
  intros Hf. cbn [fields In] in Hf.
  repeat (destruct Hf as [<- | Hf];
          [cbn [store];
           unfold store_image_size, store_image_center, store_double,
             store_initial_position, store_rotation, store_use_motion_compensation;
           repeat (destruct vs as [| [? | ? |] vs]; try reflexivity) |]).
  destruct Hf.
Qed.

Lemma read_fields_corrections (E : Collaborators) (fs : list field) :
  (forall f, In f fs -> In f (fields E)) ->
  forall cam_file line P,
    corrections (outcome_state (read_fields fs cam_file line P)) = corrections P.
Proof.
  induction fs as [| f fs IH]; intros Hfs cam_file line P; cbn [read_fields].
  - destruct (getline cam_file line); reflexivity.
  - destruct (getline cam_file line) as [st l].
    destruct (negb (good st)); [reflexivity |]. cbv zeta.
    assert (H : corrections
                  (outcome_state
                     (if Nat.eqb (List.length (sscanf l (fmt f))) (arity f)
                      then read_fields fs st l (store f (sscanf l (fmt f)) P)
                      else Failed (mkExn IOErr (msg f)) (store f (sscanf l (fmt f)) P)))
                = corrections P).
    { destruct (Nat.eqb _ _).
      - rewrite IH by (intros g Hg; apply Hfs; now right).
        apply (store_corrections E). apply Hfs. now left.
      - cbn [outcome_state]. apply (store_corrections E). apply Hfs. now left. }
    destruct (forallb is_finite (sscanf l (fmt f))); [exact H |].
    now rewrite outcome_state_not_finite.
Qed.

(** X14.  [read] never touches the two correction switches: whatever the
    file holds, and whether [read] succeeds or fails, the Parameter Set it
    leaves has the switches for the velocity aberration and for the
    atmospheric refraction as they were. *)
Theorem read_keeps_corrections (E : Collaborators) (file : option string)
    (filename : string) (P0 : OpticalBarModel) :
  m_correct_velocity_aberration (outcome_state (read E file filename P0))
  = m_correct_velocity_aberration P0 /\
  m_correct_atmospheric_refraction (outcome_state (read E file filename P0))
  = m_correct_atmospheric_refraction P0.
Proof.
  assert (H : corrections (outcome_state (read E file filename P0)) = corrections P0).
  { unfold read. destruct file as [content |]; [| reflexivity].
    destruct (getline (mkStream content true) "") as [st line].
    destruct (negb (find line "VERSION")); [reflexivity |].
    match goal with |- context [Z.ltb ?a ?b] => destruct (Z.ltb a b) end;
      [reflexivity |].
    destruct (getline st line) as [st' line'].
    destruct (negb (find line' "OPTICAL_BAR")); [reflexivity |].
    apply (read_fields_corrections E). auto. }
  unfold corrections in H. now inversion H.
Qed.




(** A line that stops after the width of the image: [read] fails, and the
    width of the Parameter Set is the one of the line. *)
Example read_half_image_size :
  match read sample_collaborators (Some file_half_image_size) "camera.tsai"
          example_scenario with
  | Failed e P' =>
      e = mkExn IOErr (read_file_msg "Could not read the image size") /\
      m_image_size P' = vec2i 1234 500
  | _ => False
  end.
Proof. split; reflexivity. Qed.

(** ** A successful [read] overwrites every member it knows *)

Lemma scan_kinds (ds : list directive) :
  forall s, exists n,
    map is_int_value (scan ds s) = firstn n (conversion_kinds ds).
Proof.
  induction ds as [| d ds IH]; intros s.
  - exists 0%nat. reflexivity.
  - destruct d; cbn [scan conversion_kinds].
    + apply IH.
    + destruct s as [| c' t]; [exists 0%nat; now destruct (conversion_kinds ds) |].
      destruct (Ascii.eqb c c'); [apply IH |].
      exists 0%nat; now destruct (conversion_kinds ds).
    + destruct (scan_int (skip_space s)) as [[z t] |]; [| now exists 0%nat].
      destruct (IH t) as [n Hn]. exists (S n). cbn [map is_int_value firstn].
      now rewrite Hn.
    + destruct (scan_double (skip_space s)) as [[z t] |]; [| now exists 0%nat].
      destruct (IH t) as [n Hn]. exists (S n). cbn [map firstn].
      rewrite Hn. f_equal. unfold double_value. now destruct (number_value z).
Qed.

Lemma scan_all_kinds (ds : list directive) (s : string) :
  List.length (scan ds s) = List.length (conversion_kinds ds) ->
  map is_int_value (scan ds s) = conversion_kinds ds.
Proof.
  intros Hlen. destruct (scan_kinds ds s) as [n Hn]. rewrite Hn.
  apply firstn_all2.
  assert (H : List.length (firstn n (conversion_kinds ds))
              = List.length (conversion_kinds ds)).
  { now rewrite <- Hn, length_map. }
  rewrite length_firstn in H. lia.
Qed.

Lemma read_fields_loaded (fs : list field) :
  forall cam_file line P P',
    read_fields fs cam_file line P = Loaded P' ->
    exists ls b,
      Forall2 (fun f l => List.length (sscanf l (fmt f)) = arity f /\ finite_line f l)
        fs ls /\
      forall Q, read_fields fs cam_file line Q
                = Loaded (set_scan_left_to_right b (stored fs ls Q)).
Proof.
  induction fs as [| f fs IH]; intros cam_file line P P'; cbn [read_fields].
  - destruct (getline cam_file line) as [st l]. intros _.
    exists nil, (negb (find l "scan_dir = left")). split; [constructor | reflexivity].
  - destruct (getline cam_file line) as [st l].
    destruct (negb (good st)); [discriminate |]. cbv zeta.
    destruct (forallb is_finite (sscanf l (fmt f))) eqn:Hfin.
    + destruct (Nat.eqb _ _) eqn:Hn; [| discriminate].
      intros H. destruct (IH _ _ _ _ H) as (ls & b & Hall & Hq).
      exists (l :: ls)%list, b. split.
      * constructor; [split; [now apply Nat.eqb_eq | exact Hfin] | assumption].
      * intros Q. cbn [stored]. apply Hq.
    + intros H. exfalso. revert H.
      destruct (if Nat.eqb _ _ then _ else _); discriminate.
Qed.

Lemma sscanf_kinds (l f : string) (n : nat) :
  List.length (sscanf l f) = n ->
  n = List.length (conversion_kinds (parse_format f)) ->
  map is_int_value (sscanf l f) = conversion_kinds (parse_format f).
Proof.
  intros H Hn. apply scan_all_kinds. unfold sscanf in H. congruence.
Qed.

Ltac line_shape H :=
  match type of H with
  | List.length (sscanf ?l ?f) = _ /\ finite_line _ ?l =>
      let Hk := fresh "Hk" in
      let Hfin := fresh "Hfin" in
      let Hlen := fresh "Hlen" in
      let v := fresh "v" in
      let Hv := fresh "Hv" in
      destruct H as [Hlen Hfin]; unfold finite_line in Hfin; cbn [fmt] in Hfin;
      pose proof (sscanf_kinds l f _ Hlen ltac:(vm_compute; reflexivity)) as Hk;
      clear Hlen;
      let k := eval vm_compute in (conversion_kinds (parse_format f)) in
      replace (conversion_kinds (parse_format f)) with k in Hk
        by (vm_compute; reflexivity);
      remember (sscanf l f) as v eqn:Hv;
      repeat (destruct v as [| [? | ? |] v];
              try discriminate Hk; try discriminate Hfin);
      clear Hk Hfin
  end.

Lemma stored_fields (E : Collaborators) (ls : list string) (b : bool)
    (P Q : OpticalBarModel) :
  Forall2 (fun f l => List.length (sscanf l (fmt f)) = arity f /\ finite_line f l)
    (fields E) ls ->
  set_scan_left_to_right b (stored (fields E) ls Q)
  = with_corrections_of Q (set_scan_left_to_right b (stored (fields E) ls P)).
Proof.
  intros H. unfold fields in H.
  repeat match goal with
         | H : Forall2 _ (_ :: _) _ |- _ => inversion H; clear H; subst
         | H : Forall2 _ nil _ |- _ => inversion H; clear H; subst
         end.
  cbn [fmt arity] in *.
  repeat match goal with
         | H : List.length (sscanf _ _) = _ /\ _ |- _ => line_shape H
         end.
  cbn [fields stored fmt store].
  repeat match goal with
         | H : _ = sscanf _ _ |- _ => rewrite <- H; clear H
         end.
  destruct P, Q. reflexivity.
Qed.

(** X16.  A successful [read] overwrites every member it knows.  If [read]
    succeeds on a file, it succeeds on that file whatever Parameter Set it
    is called on, and the Parameter Set it leaves is the same each time but
    for the two correction switches, which are those of the Parameter Set
    it was called on: nothing else of the earlier values survives. *)
Theorem read_overwrites (E : Collaborators) (content filename : string)
    (P0 P' Q0 : OpticalBarModel) :
  read E (Some content) filename P0 = Loaded P' ->
  read E (Some content) filename Q0 = Loaded (with_corrections_of Q0 P').
Proof.
  unfold read.
  destruct (getline (mkStream content true) "") as [st line].
  destruct (negb (find line "VERSION")); [discriminate |].
  match goal with |- context [Z.ltb ?a ?b] => destruct (Z.ltb a b) end;
    [discriminate |].
  destruct (getline st line) as [st' line'].
  destruct (negb (find line' "OPTICAL_BAR")); [discriminate |].
  intros H. destruct (read_fields_loaded _ _ _ _ _ H) as (ls & b & Hall & Hq).
  rewrite (Hq P0) in H. apply (f_equal outcome_state) in H.
  cbn [outcome_state] in H. subst P'. rewrite (Hq Q0). f_equal.
  now apply stored_fields.
Qed.

Lemma read_overwrites_witness :
  exists P',
    read sample_collaborators (Some file_without_scan_dir) "camera.tsai" example_on_datum
    = Loaded P' /\
    read sample_collaborators (Some file_without_scan_dir) "camera.tsai"
      example_right_to_left
    = Loaded (with_corrections_of example_right_to_left P').
Proof.
  eexists. split; [reflexivity |].
  apply (read_overwrites sample_collaborators file_without_scan_dir "camera.tsai"
           example_on_datum _ example_right_to_left).
  reflexivity.
Defined.

(** ** The rigid transform and the path of the camera *)

Lemma rotation_x_axis_zero (m : Matrix3x3) :
  mat_mul (rotation_x_axis (- 0)) m = m.
Proof.
  unfold rotation_x_axis. rewrite Ropp_0, cos_0, sin_0.
  destruct m as [[? ? ?] [? ? ?] [? ? ?]].
  unfold mat_mul, dot, col0, col1, col2; cbn. f_equal; f_equal; ring.
Qed.

Lemma mat_vec_linear (m : Matrix3x3) (p v : Vector3) (k s : R) :
  mat_vec (mat_scale s m) (vadd p (vscale k v))
  = vadd (mat_vec (mat_scale s m) p) (vscale (s * k) (mat_vec m v)).
Proof.
  destruct m as [[? ? ?] [? ? ?] [? ? ?]], p, v.
  unfold mat_vec, mat_scale, vadd, vscale, dot; cbn. f_equal; ring.
Qed.

(** X17.  What a rigid transform does to the path of the camera.  For a
    level camera (no forward tilt) scanning from left to right, and
    quaternion conversions that return the rotation they are given, the
    transformed Parameter Set places the camera, at every pixel, at the
    transformed initial position plus the flight time times the rotated
    velocity: the scale applies to the position and not to the velocity.
    So the camera center of a pixel is the rotation and the translation of
    the camera center of before, plus the rotated initial position times
    the scale less one; with scale 1 it is the rigid transform of the
    camera center of before. *)
Theorem apply_transform_camera_centers (E : Collaborators) (rotation : Matrix3x3)
    (translation : Vector3) (scale : R) (P : OpticalBarModel) :
  valid P ->
  m_scan_left_to_right P = true ->
  m_forward_tilt_radians P = 0 ->
  rotation_matrix (quat_of_matrix E rotation) = rotation ->
  rotation_matrix
    (axis_angle_to_quaternion
       (quat_axis_angle E (qmul (quat_of_matrix E rotation) (camera_pose P default_pixel))))
  = rotation_matrix (qmul (quat_of_matrix E rotation) (camera_pose P default_pixel)) ->
  exists P',
    apply_transform E rotation translation scale P = Some P' /\
    forall pix, exists dt c,
      pixel_to_time_delta P pix = Some dt /\
      camera_center P pix = Some c /\
      camera_center P' pix
      = Some (vadd (vadd (mat_vec (mat_scale scale rotation) (m_initial_position P))
                         translation)
                   (vscale dt (mat_vec rotation (get_velocity P pix)))) /\
      camera_center P' pix
      = Some (vadd (vadd (mat_vec rotation c) translation)
                   (vscale (scale - 1) (mat_vec rotation (m_initial_position P)))).
Proof.
  intros Hv Hl Ht Hq Haa. pose proof (valid_max_col P Hv) as Hm.
  unfold apply_transform.
  rewrite (camera_center_at_default_pixel P Hv), Hl. cbn [fbind].
  eexists; split; [reflexivity |].
  intros pix. do 2 eexists. split.
  { apply pixel_to_time_delta_value; [apply Hv | assumption]. }
  split.
  { apply camera_center_value; [apply Hv | assumption]. }
  assert (Hvel : forall P',
             m_forward_tilt_radians P' = 0 -> m_speed P' = m_speed P ->
             rotation_matrix (camera_pose P' pix)
             = mat_mul rotation (rotation_matrix (camera_pose P pix)) ->
             get_velocity P' pix = mat_vec rotation (get_velocity P pix)).
  { intros P' Ht' Hs' Hp'. unfold get_velocity. rewrite Ht', Ht, Hs', Hp'.
    rewrite !rotation_x_axis_zero. apply mat_mul_vec. }
  assert (Hc : camera_center
                 (set_camera_pose
                    (quat_axis_angle E
                       (qmul (quat_of_matrix E rotation) (camera_pose P default_pixel)))
                    (set_camera_center
                       (vadd (mat_vec (mat_scale scale rotation) (m_initial_position P))
                          translation) P)) pix
               = Some (vadd (vadd (mat_vec (mat_scale scale rotation) (m_initial_position P))
                               translation)
                         (vscale ((if m_scan_left_to_right P
                                   then v2x pix / IZR (max_col P)
                                   else (IZR (max_col P) - v2x pix) / IZR (max_col P))
                                  * scan_time P)
                            (mat_vec rotation (get_velocity P pix))))).
  { rewrite camera_center_value; [| apply Hv | exact Hm].
    rewrite Hvel; [reflexivity | exact Ht | reflexivity |].
    change (rotation_matrix (camera_pose P pix))
      with (rotation_matrix (camera_pose P default_pixel)).
    transitivity (rotation_matrix
                    (qmul (quat_of_matrix E rotation) (camera_pose P default_pixel)));
      [exact Haa | now rewrite rotation_matrix_qmul, Hq]. }
  split; [exact Hc |].
  rewrite Hc. f_equal.
  generalize ((if m_scan_left_to_right P
               then v2x pix / IZR (max_col P)
               else (IZR (max_col P) - v2x pix) / IZR (max_col P)) * scan_time P).
  intros k.
  destruct rotation as [[? ? ?] [? ? ?] [? ? ?]], translation, (m_initial_position P),
    (get_velocity P pix).
  unfold vadd, vscale, mat_vec, mat_scale, dot; cbn. f_equal; ring.
Qed.

Lemma apply_transform_camera_centers_witness :
  exists P',
    apply_transform precise_collaborators example_turn (vec3 1 2 3) 2 example_oriented
      = Some P' /\
    forall pix, exists dt c,
      pixel_to_time_delta example_oriented pix = Some dt /\
      camera_center example_oriented pix = Some c /\
      camera_center P' pix
      = Some (vadd (vadd (mat_vec (mat_scale 2 example_turn)
                            (m_initial_position example_oriented))
                         (vec3 1 2 3))
                   (vscale dt (mat_vec example_turn (get_velocity example_oriented pix))))
      /\
      camera_center P' pix
      = Some (vadd (vadd (mat_vec example_turn c) (vec3 1 2 3))
                   (vscale (2 - 1)
                      (mat_vec example_turn (m_initial_position example_oriented)))).
Proof.
  apply (apply_transform_camera_centers precise_collaborators example_turn (vec3 1 2 3) 2
           example_oriented).
  - exact example_oriented_valid.
  - reflexivity.
  - reflexivity.
  - exact (proj1 (precise_collaborators_convert example_oriented)).
  - exact (proj2 (precise_collaborators_convert example_oriented)).
Defined.

(** ** The ray without motion compensation *)

Lemma norm_2_ray (f alpha y : R) :
  norm_2 (vec3 (f * sin alpha) y (f * cos alpha)) = sqrt (f * f + y * y).
Proof.
  unfold norm_2, dot; cbn [v3x v3y v3z]. f_equal.
  pose proof (sin2_cos2 alpha) as Hsc. unfold Rsqr in Hsc.
  replace (f * sin alpha * (f * sin alpha) + y * y + f * cos alpha * (f * cos alpha))
    with (f * f * (sin alpha * sin alpha + cos alpha * cos alpha) + y * y) by ring.
  rewrite Hsc. ring.
Qed.

(** X18.  With the motion compensation switched off (the member is 0) the
    ray is a function of the optics and the orientation alone.  Where the
    camera is not on the datum, the uncorrected ray at a pixel with sensor
    plane position [(x, y)] is the pose applied to
    [(f sin a, y, f cos a) / sqrt (f^2 + y^2)] with [a = x / f]: the speed,
    the scan rate and the height do not enter it. *)
Theorem pixel_to_vector_uncorrected_no_compensation (P : OpticalBarModel)
    (pixel : Vector2) (H : R) :
  valid P ->
  m_use_motion_compensation P = 0%Z ->
  camera_height P pixel = Some H ->
  H <> 0 ->
  let f := m_focal_length P in
  let x := v2x (pixel_to_sensor_plane P pixel) in
  let y := v2y (pixel_to_sensor_plane P pixel) in
  pixel_to_vector_uncorrected P pixel
  = Some (rotate (camera_pose P pixel)
            (vscale (/ sqrt (f * f + y * y))
                    (vec3 (f * sin (x / f)) y (f * cos (x / f))))).
Proof.
  intros Hv Hu HH Hnz f x y. unfold camera_height in HH.
  unfold pixel_to_vector_uncorrected.
  destruct (camera_center P pixel) as [c |]; [| discriminate].
  cbn [fbind] in *. injection HH as HH.
  pose proof (valid_focal_length P Hv) as Hfpos. fold f in Hfpos.
  assert (Hf : f <> 0) by lra.
  fold f x y. rewrite (fdiv_some _ _ Hf). cbn [fbind]. rewrite HH.
  assert (Hd : H * m_scan_rate_radians P <> 0).
  { apply Rmult_integral_contrapositive_currified; [exact Hnz | apply Hv]. }
  rewrite (image_motion_compensation_value P H _ Hd), Hu. cbn [fbind]. fold f.
  replace (y + (if m_scan_left_to_right P then 1 else -1)
               * (f * m_speed P / (H * m_scan_rate_radians P) * sin (x / f)) * 0)
    with y by ring.
  assert (Hn : sqrt (f * f + y * y) <> 0).
  { assert (0 < sqrt (f * f + y * y)); [apply sqrt_lt_R0; nra | lra]. }
  unfold normalize. rewrite norm_2_ray, !(fdiv_some _ _ Hn).
  cbn [fbind v3x v3y v3z]. unfold vscale; cbn [v3x v3y v3z].
  do 3 f_equal; field; exact Hn.
Qed.

Lemma pixel_to_vector_uncorrected_no_compensation_witness :
  let f := m_focal_length example_scenario in
  let x := v2x (pixel_to_sensor_plane example_scenario (vec2 0 250)) in
  let y := v2y (pixel_to_sensor_plane example_scenario (vec2 0 250)) in
  pixel_to_vector_uncorrected example_scenario (vec2 0 250)
  = Some (rotate (camera_pose example_scenario (vec2 0 250))
            (vscale (/ sqrt (f * f + y * y))
                    (vec3 (f * sin (x / f)) y (f * cos (x / f))))).
Proof.
  apply (pixel_to_vector_uncorrected_no_compensation example_scenario (vec2 0 250) 629000).
  - constructor; cbn; unfold is_int; try lia; lra.
  - reflexivity.
  - exact example_scenario_height.
  - lra.
Defined.
